(** * RealTimeTranslator base module: error pipeline and request tracing

  A shallow embedding of [src/exception.py] (error taxonomy, the [EXC]
  exception, the three installed exception handlers), of the adapter, the
  filter and the request middleware of [src/logger.py], of the
  enumerations and views of [src/model.py] and of the loaders of
  [src/config.py], followed by the properties that are settled on it.  The
  library functions the code calls ([json.loads], [jsonable_encoder],
  [JSONResponse], header assignment, [str.strip], [str.split], [int]) are
  embedded from their sources.

  Conventions of the embedding.
  - A Python [str] is a [string]; characters above 127 are carried as their
    UTF-8 bytes.  A Python [int] is a [Z].
  - Values of type [Any] that travel through the pipeline are JSON values
    ([json]): [None], booleans, integers, strings, lists (a tuple is carried
    as a list) and dictionaries.  Floating-point numbers are not among
    them: [json.loads] reads a floating-point literal without giving it a
    value, and what the code does with a float, [NaN] included, is outside
    the embedding.
  - A Python [dict] is an association list in insertion order whose keys
    are pairwise distinct ([dict_set] keeps it so).
  - A call that may raise returns an [outcome].
  - Limits of the interpreter (recursion depth, the digit limit of [int],
    memory) are not modelled. *)

From Stdlib Require Import ZArith List String Ascii Bool Arith Lia.
From Stdlib Require Import DecimalString DecimalPos DecimalN DecimalZ DecimalNat.
Import ListNotations.

Local Open Scope string_scope.
Local Open Scope Z_scope.

(* ================================================================== *)
(** * Part I: definitions *)
(* ================================================================== *)

(** ** Python outcomes *)

Module Py.

(** The exception classes that can leave the modelled code. *)
Inductive exn : Type :=
| JSONDecodeError
| TypeError
| ValidationError
| Uncaught (name : string).

(** [Unspecified] marks behaviour of a library that the embedding does not
    determine (the value of a floating-point literal, pydantic's lax
    coercions between scalar types, digits outside ASCII given to [int],
    exhausted fuel).  No theorem concludes anything from it. *)
Inductive outcome (A : Type) : Type :=
| Returns (a : A)
| Raises (e : exn)
| Unspecified.

Arguments Returns {A} a.
Arguments Raises {A} e.
Arguments Unspecified {A}.

Definition bind {A B : Type} (m : outcome A) (k : A -> outcome B) : outcome B :=
  match m with
  | Returns a => k a
  | Raises e => Raises e
  | Unspecified => Unspecified
  end.

End Py.

Import Py.

Notation "x <- m ;; k" := (Py.bind m (fun x => k))
(at level 61, m at next level, right associativity).
Notation "' p <- m ;; k" := (Py.bind m (fun p => k))
(at level 61, p pattern, m at next level, right associativity).

(** ** JSON values and Python dictionaries *)

Module Json.

#[warnings="-register-all"] Inductive json : Type :=
| JNull
| JBool (b : bool)
| JInt (z : Z)
| JStr (s : string)
| JList (l : list json)
| JDict (d : list (string * json)).

Definition dict : Type := list (string * json).

(** [d.get(k)] *)
Fixpoint dict_get (k : string) (d : dict) : option json :=
  match d with
  | [] => None
  | (k', v) :: t => if String.eqb k' k then Some v else dict_get k t
  end.

(** [d[k] = v]: an existing key keeps its position, a new one goes last. *)
Fixpoint dict_set (k : string) (v : json) (d : dict) : dict :=
  match d with
  | [] => [(k, v)]
  | (k', v') :: t =>
      if String.eqb k' k then (k, v) :: t else (k', v') :: dict_set k v t
  end.

(** [del d[k]], doing nothing when the key is absent. *)
Fixpoint dict_del (k : string) (d : dict) : dict :=
  match d with
  | [] => []
  | (k', v) :: t =>
      if String.eqb k' k then dict_del k t else (k', v) :: dict_del k t
  end.

(** [d.pop(k, default)]: the value and the dictionary left behind. *)
Definition dict_pop (k : string) (default : json) (d : dict) : json * dict :=
  (match dict_get k d with Some v => v | None => default end, dict_del k d).

(** Python truthiness, as tested by [if x:]. *)
Definition truthy (v : json) : bool :=
  match v with
  | JNull => false
  | JBool b => b
  | JInt z => negb (z =? 0)
  | JStr s => negb (String.eqb s "")
  | JList l => match l with [] => false | _ => true end
  | JDict d => match d with [] => false | _ => true end
  end.

(** [x is None] *)
Definition is_None (v : option json) : bool :=
  match v with
  | None | Some JNull => true
  | Some _ => false
  end.

(** *** Serialisation: [model_dump_json] / compact JSON text

    The text pydantic emits: no white space, members in insertion order,
    the two-character escapes for quote, backslash and the five named
    control characters, [\u00XX] for any other character below 32. *)

Definition dquote : ascii := ascii_of_N 34.
Definition backslash : ascii := ascii_of_N 92.

Definition hex_digit (n : N) : ascii :=
  if (n <? 10)%N then ascii_of_N (48 + n) else ascii_of_N (87 + n).

(** Each writer puts its text in front of the text [k] that follows. *)
Definition write_char (c : ascii) (k : string) : string :=
  let n := N_of_ascii c in
  if (n =? 34)%N then String backslash (String dquote k)
  else if (n =? 92)%N then String backslash (String backslash k)
  else if (n =? 8)%N then String backslash (String "b" k)
  else if (n =? 12)%N then String backslash (String "f" k)
  else if (n =? 10)%N then String backslash (String "n" k)
  else if (n =? 13)%N then String backslash (String "r" k)
  else if (n =? 9)%N then String backslash (String "t" k)
  else if (n <? 32)%N
       then String backslash
              (String "u" (String "0" (String "0"
                 (String (hex_digit (n / 16))
                    (String (hex_digit (n mod 16)) k)))))
  else String c k.

Fixpoint write_escaped (s k : string) : string :=
  match s with
  | EmptyString => k
  | String c t => write_char c (write_escaped t k)
  end.

Definition write_quoted (s k : string) : string :=
  String dquote (write_escaped s (String dquote k)).

Definition string_of_Z (z : Z) : string :=
  DecimalString.NilZero.string_of_int (Z.to_int z).

Section Sequences.

Context {A : Type} (write_item : A -> string -> string).

(** What follows an element of a list: the closing bracket, or a comma and
    the next element. *)
Fixpoint write_elems (l : list A) (k : string) : string :=
  match l with
  | [] => String "]" k
  | x :: t => String "," (write_item x (write_elems t k))
  end.

(** What follows a member of an object. *)
Fixpoint write_members (d : list (string * A)) (k : string) : string :=
  match d with
  | [] => String "}" k
  | (key, x) :: t =>
      String ","
        (write_quoted key (String ":" (write_item x (write_members t k))))
  end.

End Sequences.

Fixpoint write (v : json) (k : string) : string :=
  match v with
  | JNull => "null" ++ k
  | JBool true => "true" ++ k
  | JBool false => "false" ++ k
  | JInt z => string_of_Z z ++ k
  | JStr s => write_quoted s k
  | JList l =>
      String "["
        match l with
        | [] => String "]" k
        | x :: t => write x (write_elems write t k)
        end
  | JDict d =>
      String "{"
        match d with
        | [] => String "}" k
        | (key, x) :: t =>
            write_quoted key (String ":" (write x (write_members write t k)))
        end
  end.

Definition dumps (v : json) : string := write v "".

(** *** Parsing: [json.loads]

    The scanner of the standard library, read off [json/decoder.py] and
    [json/scanner.py]: the same white space, the same order of tests, the
    same places where [JSONDecodeError] is raised.  Two things are read but
    not valued: a floating-point number (a number with a fraction or an
    exponent, and the constants [NaN], [Infinity], [-Infinity]) and a
    [\uXXXX] escape denoting a character above 127.  The scanner passes
    over them as Python does and goes on, with [None] in place of the value
    read, so that an error further on in the text is raised as Python
    raises it; [loads] is [Unspecified] only for a text that is JSON and
    holds one of the two. *)

(** What the scanner read: [None] for a value that holds a floating-point
    number or an escaped character above 127. *)
Definition read_cons {A : Type} (x : option A) (l : option (list A))
  : option (list A) :=
  match x, l with
  | Some a, Some t => Some (a :: t)
  | _, _ => None
  end.

Definition read_pair {A B : Type} (x : option A) (y : option B)
  : option (A * B) :=
  match x, y with
  | Some a, Some b => Some (a, b)
  | _, _ => None
  end.

Definition is_ws (c : ascii) : bool :=
  let n := N_of_ascii c in
  ((n =? 32) || (n =? 9) || (n =? 10) || (n =? 13))%N.

Fixpoint skip_ws (s : string) : string :=
  match s with
  | String c t => if is_ws c then skip_ws t else s
  | EmptyString => s
  end.

Definition is_digit (c : ascii) : bool :=
  let n := N_of_ascii c in ((48 <=? n) && (n <=? 57))%N.

Definition digit_of_char (c : ascii) : option (Decimal.uint -> Decimal.uint) :=
  match N_of_ascii c with
  | 48%N => Some Decimal.D0 | 49%N => Some Decimal.D1
  | 50%N => Some Decimal.D2 | 51%N => Some Decimal.D3
  | 52%N => Some Decimal.D4 | 53%N => Some Decimal.D5
  | 54%N => Some Decimal.D6 | 55%N => Some Decimal.D7
  | 56%N => Some Decimal.D8 | 57%N => Some Decimal.D9
  | _ => None
  end.

(** The longest run of decimal digits at the head of [s]. *)
Fixpoint scan_digits (s : string) : Decimal.uint * string :=
  match s with
  | String c t =>
      match digit_of_char c with
      | Some D => let '(d, r) := scan_digits t in (D d, r)
      | None => (Decimal.Nil, s)
      end
  | EmptyString => (Decimal.Nil, s)
  end.

(** The integer part of a number: a lone zero, or a digit from one to nine
    followed by the longest run of digits. *)
Definition int_part (s : string) : option (Decimal.uint * string) :=
  match s with
  | String c t =>
      if (N_of_ascii c =? 48)%N then Some (Decimal.D0 Decimal.Nil, t)
      else if is_digit c then Some (scan_digits s)
      else None
  | EmptyString => None
  end.

(** The fraction of a number, when one starts here: a dot and the longest
    run of digits, at least one.  The result is the text after it. *)
Definition skip_fraction (s : string) : option string :=
  match s with
  | String c (String d t) =>
      if (N_of_ascii c =? 46)%N && is_digit d
      then Some (snd (scan_digits (String d t)))
      else None
  | _ => None
  end.

(** The exponent of a number, when one starts here: e or E, an optional
    sign, and the longest run of digits, at least one. *)
Definition skip_exponent (s : string) : option string :=
  match s with
  | String c t =>
      if ((N_of_ascii c =? 101) || (N_of_ascii c =? 69))%N then
        let digits :=
          match t with
          | String sign t' =>
              if ((N_of_ascii sign =? 43) || (N_of_ascii sign =? 45))%N
              then t' else t
          | EmptyString => t
          end in
        match digits with
        | String d _ =>
            if is_digit d then Some (snd (scan_digits digits)) else None
        | EmptyString => None
        end
      else None
  | EmptyString => None
  end.

(** [NUMBER_RE.match]: [None] when the pattern does not match at all;
    otherwise the integer read and the text after it, or, for a number with
    a fraction or an exponent, no value and the text after the number. *)
Definition match_number (s : string) : option (option json * string) :=
  let '(neg, s1) :=
    match s with
    | String c t => if (N_of_ascii c =? 45)%N then (true, t) else (false, s)
    | EmptyString => (false, s)
    end in
  match int_part s1 with
  | None => None
  | Some (d, rest) =>
      let after_fraction :=
        match skip_fraction rest with Some r => r | None => rest end in
      match skip_fraction rest, skip_exponent after_fraction with
      | None, None =>
          Some (Some (JInt (Z.of_int (if neg then Decimal.Neg d
                                      else Decimal.Pos d))), rest)
      | _, Some r => Some (None, r)
      | Some r, None => Some (None, r)
      end
  end.

Definition hex_val (c : ascii) : option N :=
  let n := N_of_ascii c in
  if ((48 <=? n) && (n <=? 57))%N then Some (n - 48)%N
  else if ((97 <=? n) && (n <=? 102))%N then Some (n - 87)%N
  else if ((65 <=? n) && (n <=? 70))%N then Some (n - 55)%N
  else None.

(** The character of a two-character escape. *)
Definition unescape (c : ascii) : option ascii :=
  let n := N_of_ascii c in
  if (n =? 34)%N then Some dquote
  else if (n =? 92)%N then Some backslash
  else if (n =? 47)%N then Some (ascii_of_N 47)
  else if (n =? 98)%N then Some (ascii_of_N 8)
  else if (n =? 102)%N then Some (ascii_of_N 12)
  else if (n =? 110)%N then Some (ascii_of_N 10)
  else if (n =? 114)%N then Some (ascii_of_N 13)
  else if (n =? 116)%N then Some (ascii_of_N 9)
  else None.

(** [scanstring(s, end, strict=True)], entered after the opening quote.
    An escape [\uXXXX] with four hexadecimal digits is passed over whatever
    it denotes: a surrogate that a second escape completes is read with it
    or before it, and the text after both is the same. *)
Fixpoint scanstring (s : string) : outcome (option string * string) :=
  match s with
  | EmptyString => Raises JSONDecodeError
  | String c t =>
      if (N_of_ascii c =? 34)%N then Returns (Some EmptyString, t)
      else if (N_of_ascii c =? 92)%N then
        match t with
        | EmptyString => Raises JSONDecodeError
        | String e t' =>
            if (N_of_ascii e =? 117)%N then
              match t' with
              | String h1 (String h2 (String h3 (String h4 t''))) =>
                  match hex_val h1, hex_val h2, hex_val h3, hex_val h4 with
                  | Some a, Some b, Some c', Some d =>
                      let uni := (((a * 16 + b) * 16 + c') * 16 + d)%N in
                      '(r, rest) <- scanstring t'' ;;
                      Returns
                        (if (uni <? 128)%N
                         then option_map (String (ascii_of_N uni)) r
                         else None,
                         rest)
                  | _, _, _, _ => Raises JSONDecodeError
                  end
              | _ => Raises JSONDecodeError
              end
            else
              match unescape e with
              | Some ch =>
                  '(r, rest) <- scanstring t' ;;
                  Returns (option_map (String ch) r, rest)
              | None => Raises JSONDecodeError
              end
        end
      else if (N_of_ascii c <? 32)%N then Raises JSONDecodeError
      else '(r, rest) <- scanstring t ;; Returns (option_map (String c) r, rest)
  end.

(** [s[idx:idx+len(p)] == p], returning what follows. *)
Fixpoint strip_prefix (p s : string) : option string :=
  match p, s with
  | EmptyString, _ => Some s
  | String a p', String b s' =>
      if Ascii.eqb a b then strip_prefix p' s' else None
  | String _ _, EmptyString => None
  end.

(** [dict(pairs)] *)
Definition dict_of_pairs (pairs : list (string * json)) : dict :=
  fold_left (fun d kv => dict_set (fst kv) (snd kv) d) pairs [].

(** [scan_once], [JSONArray] and [JSONObject].  The recursion of the
    scanner is bounded by [fuel]; [loads] supplies enough of it. *)
Fixpoint scan_once (fuel : nat) (s : string) {struct fuel}
  : outcome (option json * string) :=
  match fuel with
  | O => Unspecified
  | S f =>
      match s with
      | EmptyString => Raises JSONDecodeError
      | String c t =>
          let n := N_of_ascii c in
          if (n =? 34)%N then
            '(r, rest) <- scanstring t ;; Returns (option_map JStr r, rest)
          else if (n =? 123)%N then
            match skip_ws t with
            | String c1 t1 =>
                if (N_of_ascii c1 =? 125)%N then Returns (Some (JDict []), t1)
                else if (N_of_ascii c1 =? 34)%N then
                  '(pairs, rest) <- JSONObject f t1 ;;
                  Returns
                    (option_map (fun pairs => JDict (dict_of_pairs pairs)) pairs,
                     rest)
                else Raises JSONDecodeError
            | EmptyString => Raises JSONDecodeError
            end
          else if (n =? 91)%N then
            match skip_ws t with
            | String c1 t1 =>
                if (N_of_ascii c1 =? 93)%N then Returns (Some (JList []), t1)
                else '(values, rest) <- JSONArray f (skip_ws t) ;;
                     Returns (option_map JList values, rest)
            | EmptyString => Raises JSONDecodeError
            end
          else
            match (if (n =? 110)%N then strip_prefix "ull" t else None),
                  (if (n =? 116)%N then strip_prefix "rue" t else None),
                  (if (n =? 102)%N then strip_prefix "alse" t else None) with
            | Some rest, _, _ => Returns (Some JNull, rest)
            | None, Some rest, _ => Returns (Some (JBool true), rest)
            | None, None, Some rest => Returns (Some (JBool false), rest)
            | None, None, None =>
                match match_number s with
                | Some r => Returns r
                | None =>
                    match strip_prefix "NaN" s, strip_prefix "Infinity" s,
                          strip_prefix "-Infinity" s with
                    | Some rest, _, _ => Returns (None, rest)
                    | None, Some rest, _ => Returns (None, rest)
                    | None, None, Some rest => Returns (None, rest)
                    | None, None, None => Raises JSONDecodeError
                    end
                end
            end
      end
  end

(** The loop of [JSONArray], entered at the first character of a value. *)
with JSONArray (fuel : nat) (s : string) {struct fuel}
  : outcome (option (list json) * string) :=
  match fuel with
  | O => Unspecified
  | S f =>
      '(value, r) <- scan_once f s ;;
      match skip_ws r with
      | String c t =>
          if (N_of_ascii c =? 93)%N then Returns (read_cons value (Some []), t)
          else if (N_of_ascii c =? 44)%N then
            '(values, rest) <- JSONArray f (skip_ws t) ;;
            Returns (read_cons value values, rest)
          else Raises JSONDecodeError
      | EmptyString => Raises JSONDecodeError
      end
  end

(** The loop of [JSONObject], entered after the opening quote of a key. *)
with JSONObject (fuel : nat) (s : string) {struct fuel}
  : outcome (option (list (string * json)) * string) :=
  match fuel with
  | O => Unspecified
  | S f =>
      '(key, r) <- scanstring s ;;
      match skip_ws r with
      | String c t =>
          if (N_of_ascii c =? 58)%N then
            '(value, r2) <- scan_once f (skip_ws t) ;;
            match skip_ws r2 with
            | String c2 t2 =>
                if (N_of_ascii c2 =? 125)%N
                then Returns (read_cons (read_pair key value) (Some []), t2)
                else if (N_of_ascii c2 =? 44)%N then
                  match skip_ws t2 with
                  | String c3 t3 =>
                      if (N_of_ascii c3 =? 34)%N then
                        '(pairs, rest) <- JSONObject f t3 ;;
                        Returns (read_cons (read_pair key value) pairs, rest)
                      else Raises JSONDecodeError
                  | EmptyString => Raises JSONDecodeError
                  end
                else Raises JSONDecodeError
            | EmptyString => Raises JSONDecodeError
            end
          else Raises JSONDecodeError
      | EmptyString => Raises JSONDecodeError
      end
  end.

(** [json.loads(s)] for a [str]: leading white space, one value, trailing
    white space, nothing else. *)
Definition loads (s : string) : outcome json :=
  '(obj, rest) <- scan_once (2 * String.length s + 2) (skip_ws s) ;;
  match skip_ws rest with
  | EmptyString =>
      match obj with
      | Some v => Returns v
      | None => Unspecified
      end
  | String _ _ => Raises JSONDecodeError
  end.

(** *** Well-formed values

    Every dictionary inside a value has pairwise distinct keys, as every
    Python [dict] has. *)

Fixpoint distinct (l : list string) : bool :=
  match l with
  | [] => true
  | k :: t => negb (existsb (String.eqb k) t) && distinct t
  end.

Fixpoint wf (v : json) : bool :=
  match v with
  | JList l => forallb wf l
  | JDict d => distinct (map fst d) && forallb (fun kv => wf (snd kv)) d
  | _ => true
  end.

Definition wf_dict (d : dict) : bool := wf (JDict d).

Section Fuel.

Context {A : Type} (fuel_item : A -> nat).

Fixpoint fuel_elems (l : list A) : nat :=
  match l with
  | [] => O
  | x :: t => S (fuel_item x + fuel_elems t)
  end.

Fixpoint fuel_members (d : list (string * A)) : nat :=
  match d with
  | [] => O
  | (_, x) :: t => S (fuel_item x + fuel_members t)
  end.

End Fuel.

(** Fuel that is enough for [scan_once] on the text of a value. *)
Fixpoint fuel_of (v : json) : nat :=
  match v with
  | JList l => S (fuel_elems fuel_of l)
  | JDict d => S (fuel_members fuel_of d)
  | _ => 1%nat
  end.

(** The characters a value can start with in the text [write] produces. *)
Definition value_start (c : ascii) : bool :=
  let n := N_of_ascii c in
  (is_digit c || (n =? 45) || (n =? 34) || (n =? 91) || (n =? 123) ||
   (n =? 110) || (n =? 116) || (n =? 102))%N.

(** The text after a value inside a document: nothing, or a comma or a
    closing bracket or brace. *)
Definition delimited (k : string) : bool :=
  match k with
  | EmptyString => true
  | String c _ =>
      let n := N_of_ascii c in ((n =? 44) || (n =? 93) || (n =? 125))%N
  end.

(** Digits that start with a digit other than zero. *)
Definition nonzero_head (u : Decimal.uint) : bool :=
  match u with
  | Decimal.Nil | Decimal.D0 _ => false
  | _ => true
  end.

End Json.

Import Json.

(** ** Starlette: headers, requests, responses *)

Module Starlette.

Definition lower_char (c : ascii) : ascii :=
  let n := N_of_ascii c in
  if ((65 <=? n) && (n <=? 90))%N then ascii_of_N (n + 32) else c.

(** [key.lower()] *)
Fixpoint lower (s : string) : string :=
  match s with
  | EmptyString => EmptyString
  | String c t => String (lower_char c) (lower t)
  end.

(** The raw header list of a request or response: names as the server
    delivers them (lower case), in order. *)
Definition raw_headers : Type := list (string * string).

Fixpoint find_header (get_header_key : string) (l : raw_headers) : option string :=
  match l with
  | [] => None
  | (header_key, header_value) :: t =>
      if String.eqb header_key get_header_key then Some header_value
      else find_header get_header_key t
  end.

(** [Headers.get(key, default)] *)
Definition headers_get (key default : string) (l : raw_headers) : string :=
  match find_header (lower key) l with
  | Some v => v
  | None => default
  end.

Fixpoint drop_header (set_key : string) (l : raw_headers) : raw_headers :=
  match l with
  | [] => []
  | (k, v) :: t =>
      if String.eqb k set_key then drop_header set_key t
      else (k, v) :: drop_header set_key t
  end.

Fixpoint set_header (set_key set_value : string) (l : raw_headers) : raw_headers :=
  match l with
  | [] => [(set_key, set_value)]
  | (k, v) :: t =>
      if String.eqb k set_key then (set_key, set_value) :: drop_header set_key t
      else (k, v) :: set_header set_key set_value t
  end.

(** [MutableHeaders.__setitem__(key, value)]: the first entry of that name
    is replaced and later ones are deleted; a new name is appended. *)
Definition headers_set (key value : string) (l : raw_headers) : raw_headers :=
  set_header (lower key) value l.

Module Request.
Record t : Type := mk {
  url_path : string;
  headers : raw_headers
}.
End Request.

(** A response as middleware sees it. *)
Module Response.
Record t : Type := mk {
  status_code : Z;
  body : string;
  headers : raw_headers
}.
End Response.

(** [JSONResponse(status_code=..., content=...)]: the two arguments the
    response is built from, the content before it is rendered. *)
Module JSONResponse.
Record t : Type := mk {
  status_code : Z;
  content : json
}.

(** [JSONResponse.render], which the constructor calls: the body is
    [json.dumps(content, ensure_ascii=False, allow_nan=False, indent=None,
    separators=(",", ":"))], the compact text of the content.  With
    [allow_nan=False] the call raises [ValueError] on [NaN] and on the
    infinities; these are floating-point numbers, which the values of the
    embedding do not have, so that the rendering of a content of the
    embedding always returns. *)
Definition render (content : json) : string := dumps content.

Definition body (response : t) : string := render (content response).
End JSONResponse.

End Starlette.

(** ** FastAPI: [jsonable_encoder] *)

Module FastAPI.

(** [key.startswith("_sa")]: the keys [sqlalchemy_safe], which is on by
    default, keeps out of the result. *)
Definition sqlalchemy_key (key : string) : bool := String.prefix "_sa" key.

Section Members.

Context {A : Type} (encode : A -> A).

(** The loop over the items of a dictionary: an item whose key starts with
    [_sa] is left out, any other is entered under its key with its value
    encoded.  The keys of a dictionary are distinct, so that each
    assignment adds an item. *)
Fixpoint encode_members (d : list (string * A)) : list (string * A) :=
  match d with
  | [] => []
  | (key, value) :: t =>
      if sqlalchemy_key key then encode_members t
      else (key, encode value) :: encode_members t
  end.

End Members.

(** [jsonable_encoder(obj)] with its default arguments, on the values of
    the embedding: a string, an integer, a boolean and [None] are returned
    as they are; a dictionary is encoded item by item, a list element by
    element. *)
Fixpoint jsonable_encoder (obj : json) : json :=
  match obj with
  | JDict d => JDict (encode_members jsonable_encoder d)
  | JList l => JList (map jsonable_encoder l)
  | _ => obj
  end.

(** A value the encoder has nothing to take out of: no key starts with
    [_sa], at any depth. *)
Fixpoint encoded (v : json) : bool :=
  match v with
  | JDict d =>
      forallb (fun kv => negb (sqlalchemy_key (fst kv)) && encoded (snd kv)) d
  | JList l => forallb encoded l
  | _ => true
  end.

End FastAPI.

(** ** [src/exception.py] *)

Module Exception.

(** [class ResponseException(ModuleExceptionPayload)]: the fields of the
    payload in declaration order, then [custom], which dumps leave out. *)
Record ResponseException : Type := mkResponseException {
  prefix : string;
  msg : string;
  code : Z;
  details : dict;
  redirect : bool;
  notification : bool;
  custom : bool
}.

(** Attribute assignment on a payload object. *)
Definition set_details (r : ResponseException) (d : dict) : ResponseException :=
  {| prefix := prefix r; msg := msg r; code := code r; details := d;
     redirect := redirect r; notification := notification r;
     custom := custom r |}.

Definition set_msg (r : ResponseException) (m : string) : ResponseException :=
  {| prefix := prefix r; msg := m; code := code r; details := details r;
     redirect := redirect r; notification := notification r;
     custom := custom r |}.

Definition set_redirect (r : ResponseException) (b : bool) : ResponseException :=
  {| prefix := prefix r; msg := msg r; code := code r; details := details r;
     redirect := b; notification := notification r; custom := custom r |}.

Definition set_notification (r : ResponseException) (b : bool) : ResponseException :=
  {| prefix := prefix r; msg := msg r; code := code r; details := details r;
     redirect := redirect r; notification := b; custom := custom r |}.

(** *** Construction from keyword arguments

    [ResponseException] called with [error_dict] unpacked into keyword
    arguments.  The unpacking needs a mapping
    ([TypeError] otherwise); pydantic then validates each declared field,
    takes the default of an absent one, ignores undeclared keys, and raises
    [ValidationError] when [msg] is missing or a value has the wrong shape.
    A scalar of another scalar type, which pydantic may coerce, is left
    [Unspecified]. *)

Definition validate_str (v : json) : outcome string :=
  match v with
  | JStr s => Returns s
  | _ => Raises ValidationError
  end.

Definition validate_int (v : json) : outcome Z :=
  match v with
  | JInt z => Returns z
  | JBool _ | JStr _ => Unspecified
  | JNull | JList _ | JDict _ => Raises ValidationError
  end.

Definition validate_bool (v : json) : outcome bool :=
  match v with
  | JBool b => Returns b
  | JInt _ | JStr _ => Unspecified
  | JNull | JList _ | JDict _ => Raises ValidationError
  end.

Definition validate_dict (v : json) : outcome dict :=
  match v with
  | JDict d => Returns d
  | _ => Raises ValidationError
  end.

Definition field {A : Type} (kwargs : dict) (name : string)
  (validate : json -> outcome A) (default : option A) : outcome A :=
  match dict_get name kwargs with
  | Some v => validate v
  | None =>
      match default with
      | Some a => Returns a
      | None => Raises ValidationError
      end
  end.

Definition ResponseException_init (error_dict : json) : outcome ResponseException :=
  match error_dict with
  | JDict kwargs =>
      prefix <- field kwargs "prefix" validate_str (Some "ModuleException") ;;
      msg <- field kwargs "msg" validate_str None ;;
      code <- field kwargs "code" validate_int (Some 500) ;;
      details <- field kwargs "details" validate_dict (Some []) ;;
      redirect <- field kwargs "redirect" validate_bool (Some false) ;;
      notification <- field kwargs "notification" validate_bool (Some false) ;;
      custom <- field kwargs "custom" validate_bool (Some true) ;;
      Returns (mkResponseException prefix msg code details redirect
                 notification custom)
  | _ => Raises TypeError
  end.

(** [model_dump_json()]: every field but [custom]. *)
Definition model_dump (r : ResponseException) : dict :=
  [ ("prefix", JStr (prefix r));
    ("msg", JStr (msg r));
    ("code", JInt (code r));
    ("details", JDict (details r));
    ("redirect", JBool (redirect r));
    ("notification", JBool (notification r)) ].

Definition model_dump_json (r : ResponseException) : string :=
  dumps (JDict (model_dump r)).

(** [model_copy(update=...)]: a new object, the fields named in [update]
    replaced without validation. *)
Inductive field_update : Type :=
| Update_details (d : dict)
| Update_redirect (b : bool)
| Update_notification (b : bool).

Definition apply_update (r : ResponseException) (u : field_update)
  : ResponseException :=
  match u with
  | Update_details d => set_details r d
  | Update_redirect b => set_redirect r b
  | Update_notification b => set_notification r b
  end.

Definition model_copy (r : ResponseException) (update : list field_update)
  : ResponseException :=
  fold_left apply_update update r.

(** *** The catalogue *)

Inductive ErrorCode : Type :=
| BadRequest
| CouldNotValidateUserCreds
| UserExpiredSignatureError
| IncorrUserCreds
| NotAuthenticated
| InactiveUser
| UserRegistrationForbidden
| UserNotExists
| UserExists
| ProjectLocked
| NameAlreadyExists
| GTINNotExists
| GTINAlreadyExists
| DMCodeNotExists
| DMCodeAlreadyExists
| TaskNotFound
| TaskAlreadyExists
| SessionNotFound
| SessionAlreadyExists
| DeviceDisconnect
| TooManyRequestsError
| ValidationError
| WrongFormat
| DMCodeValidationError
| GTINValidationError
| DMCodeAddingError
| GTINAddingError
| Unauthorized
| AuthorizeError
| ForbiddenError
| NotFoundError
| ResponseProcessingError
| YookassaApiError
| InternalError
| CoreOffline
| CoreFileUploadingError
| DbError.

Scheme Equality for ErrorCode.

(** The keyword constructor [ResponseException(code=.., msg=..)] with the
    class defaults for every other field. *)
Definition descriptor (c : Z) (m : string) : ResponseException :=
  {| prefix := "ModuleException"; msg := m; code := c; details := [];
     redirect := false; notification := false; custom := true |}.

(** The payload objects the enumeration members are created with. *)
Definition value (e : ErrorCode) : ResponseException :=
  match e with
  | BadRequest => descriptor 4000 "Bad Request"
  | CouldNotValidateUserCreds =>
      descriptor 4021 "Could not validate credentials: ValidationError"
  | UserExpiredSignatureError =>
      descriptor 4022 "Could not validate credentials: ExpiredSignatureError"
  | IncorrUserCreds => descriptor 4023 "Incorrect login or password"
  | NotAuthenticated => descriptor 4030 "Not authenticated"
  | InactiveUser => descriptor 4032 "Inactive user"
  | UserRegistrationForbidden =>
      descriptor 4033 "Open user registration is forbidden on this server"
  | UserNotExists =>
      descriptor 4035 "The user with this username does not exist in the system"
  | UserExists => descriptor 4036 "The user already exists in the system"
  | ProjectLocked => descriptor 4041 "Project locked"
  | NameAlreadyExists => descriptor 4044 "This name already exists"
  | GTINNotExists => descriptor 4045 "GTIN not found"
  | GTINAlreadyExists => descriptor 4046 "GTIN already exists"
  | DMCodeNotExists => descriptor 4045 "DataMatrix code not found"
  | DMCodeAlreadyExists => descriptor 4046 "DataMatrix code already exists"
  | TaskNotFound => descriptor 4061 "Task not found"
  | TaskAlreadyExists => descriptor 4062 "Task already exists"
  | SessionNotFound => descriptor 4071 "Session not found"
  | SessionAlreadyExists => descriptor 4072 "Session already exists"
  | DeviceDisconnect => descriptor 4073 "Some of devices disconnected"
  | TooManyRequestsError => descriptor 4301 "Too Many Requests"
  | ValidationError => descriptor 4400 "Validation error"
  | WrongFormat => descriptor 4411 "Wrong format"
  | DMCodeValidationError => descriptor 4412 "DMCode validation error"
  | GTINValidationError => descriptor 4413 "GTIN validation error"
  | DMCodeAddingError => descriptor 4414 "DMCode adding error"
  | GTINAddingError => descriptor 4415 "GTIN adding error"
  | Unauthorized =>
      descriptor 4501
        "Sorry, you are not allowed to access this service: UnauthorizedRequest"
  | AuthorizeError => descriptor 4502 "Authorization error"
  | ForbiddenError => descriptor 4503 "Forbidden"
  | NotFoundError => descriptor 4504 "Not Found"
  | ResponseProcessingError => descriptor 4505 "Response Processing Error"
  | YookassaApiError => descriptor 4511 "Yookassa Api Error"
  | InternalError => descriptor 5000 "Internal Server Error"
  | CoreOffline => descriptor 5021 "Core is offline"
  | CoreFileUploadingError => descriptor 5022 "Core file uploading error"
  | DbError => descriptor 5041 "Bad Gateway"
  end.

(** The members' payload objects are shared and mutable: the state of the
    catalogue is the current payload of every member. *)
Definition catalogue : Type := ErrorCode -> ResponseException.

Definition catalogue_set (cat : catalogue) (e : ErrorCode) (r : ResponseException)
  : catalogue :=
  fun e' => if ErrorCode_beq e' e then r else cat e'.

(** [HTTP_2_CUSTOM_ERR] *)
Definition HTTP_2_CUSTOM_ERR : list (Z * ResponseException) :=
  [ (422,
     {| prefix := "ModuleException"; msg := "Validation error"; code := 422;
        details := []; redirect := false; notification := false;
        custom := false |}) ].

Fixpoint table_get (c : Z) (t : list (Z * ResponseException))
  : option ResponseException :=
  match t with
  | [] => None
  | (c', r) :: t' => if c' =? c then Some r else table_get c t'
  end.

(** *** [class EXC(HTTPException)] *)

Inductive Detail : Type :=
| DetailStr (s : string)
| DetailDict (d : dict).

Module HTTPException.
Record t : Type := mk {
  status_code : Z;
  detail : Detail
}.
End HTTPException.

(** [details or {}] *)
Definition or_empty (details : option dict) : dict :=
  match details with
  | Some d => d
  | None => []
  end.

(** The [update] dictionary built by [EXC.__init__]. *)
Definition EXC_update (details : option dict) (redirect notification : bool)
  : list field_update :=
  let update := [Update_details (or_empty details)] in
  let update :=
    if redirect then (update ++ [Update_redirect true])%list else update in
  if notification then (update ++ [Update_notification true])%list
  else update.

(** [error_response = exc.value.model_copy(update=update)] *)
Definition EXC_payload (cat : catalogue) (exc : ErrorCode)
  (details : option dict) (redirect notification : bool) : ResponseException :=
  model_copy (cat exc) (EXC_update details redirect notification).

Definition EXC (cat : catalogue) (exc : ErrorCode) (details : option dict)
  (redirect notification : bool) : HTTPException.t :=
  let error_response := EXC_payload cat exc details redirect notification in
  HTTPException.mk 400 (DetailStr (model_dump_json error_response)).

(** *** [exception_handler(app)] *)

Definition parse_error_detail (detail : Detail) : outcome ResponseException :=
  error_dict <-
    match detail with
    | DetailStr s =>
        match loads s with
        | Raises JSONDecodeError =>
            Returns (JDict [ ("msg", JStr s); ("code", JInt 5000);
                             ("custom", JBool false) ])
        | r => r
        end
    | DetailDict d => Returns (JDict d)
    end ;;
  ResponseException_init error_dict.

(** The branch of [create_error_response] that picks the code sent to the
    client, with the payload object as the branch leaves it ([resp_exc.msg]
    is assigned in the table branch). *)
Definition inner (resp_exc : ResponseException) : Z * ResponseException :=
  if custom resp_exc then (code resp_exc, resp_exc)
  else match table_get (code resp_exc) HTTP_2_CUSTOM_ERR with
       | Some custom_error =>
           (code custom_error, set_msg resp_exc (msg custom_error))
       | None => (5999, resp_exc)
       end.

Definition inner_code (resp_exc : ResponseException) : Z :=
  fst (inner resp_exc).

Definition status_of (inner_code : Z) : Z :=
  if (4000 <=? inner_code) && (inner_code <? 5000) then 400 else 500.

(** The [details] of the body: a copy of the payload's, without the keys
    [redirect] and [notification] and without a [reason] that is [None]. *)
Definition body_details (details : dict) : dict :=
  let details := dict_del "redirect" details in
  let details := dict_del "notification" details in
  if is_None (dict_get "reason" details) then dict_del "reason" details
  else details.

(** [create_error_response]: the payload object as the call leaves it, and
    the response. *)
Definition create_error_response (resp_exc : ResponseException)
  : ResponseException * Starlette.JSONResponse.t :=
  let details := details resp_exc in
  let '(redirect, details) :=
    dict_pop "redirect" (JBool (redirect resp_exc)) details in
  let '(notification, details) :=
    dict_pop "notification" (JBool (notification resp_exc)) details in
  let details :=
    if is_None (dict_get "reason" details) then dict_del "reason" details
    else details in
  let '(inner_code, resp_exc) := inner resp_exc in
  let status_code := status_of inner_code in
  let response_data :=
    [ ("msg", JStr (msg resp_exc));
      ("code", JInt inner_code);
      ("details", JDict details) ] in
  let response_data :=
    if truthy redirect then dict_set "redirect" redirect response_data
    else response_data in
  let response_data :=
    if truthy notification
    then dict_set "notification" notification response_data
    else response_data in
  (resp_exc,
   Starlette.JSONResponse.mk status_code
     (FastAPI.jsonable_encoder (JDict response_data))).

(** A member of the JSON body of a response. *)
Definition body_get (key : string) (response : Starlette.JSONResponse.t)
  : option json :=
  match Starlette.JSONResponse.content response with
  | JDict body => dict_get key body
  | _ => None
  end.

(** [http_exception_handler], installed for [fastapi.HTTPException]. *)
Definition http_exception_handler (request : Starlette.Request.t)
  (exc : HTTPException.t) : outcome Starlette.JSONResponse.t :=
  error <- parse_error_detail (HTTPException.detail exc) ;;
  let error :=
    set_details error
      (dict_set "endpoint" (JStr (Starlette.Request.url_path request))
         (details error)) in
  Returns (snd (create_error_response error)).

(** [custom_http_exception_handler], installed for Starlette's
    [HTTPException]. *)
Definition custom_http_exception_handler (request : Starlette.Request.t)
  (exc : HTTPException.t) : outcome Starlette.JSONResponse.t :=
  error <- parse_error_detail (HTTPException.detail exc) ;;
  let error :=
    set_details error
      (dict_set "endpoint" (JStr (Starlette.Request.url_path request))
         (details error)) in
  Returns (snd (create_error_response error)).

(** [validation_exception_handler], installed for [RequestValidationError];
    [errors] is [exc.errors()].  The payload it works on is the catalogue
    member's own object. *)
Definition validation_exception_handler (cat : catalogue)
  (request : Starlette.Request.t) (errors : list json)
  : catalogue * Starlette.JSONResponse.t :=
  let error := cat ValidationError in
  let error :=
    set_details error
      [ ("endpoint", JStr (Starlette.Request.url_path request));
        ("errors", JList errors) ] in
  let cat := catalogue_set cat ValidationError error in
  let '(error, response) := create_error_response error in
  (catalogue_set cat ValidationError error, response).

(** What a request handler can raise, by the handler Starlette selects. *)
Inductive raised : Type :=
| Raised_HTTPException (exc : HTTPException.t)
| Raised_StarletteHTTPException (exc : HTTPException.t)
| Raised_RequestValidationError (errors : list json)
| Raised_other (name : string).

(** The three handlers as installed on the application: one escaped
    exception, handled by the handler registered for its class; an exception
    of any other class is not handled here. *)
Definition exception_handler (cat : catalogue) (request : Starlette.Request.t)
  (e : raised) : catalogue * outcome Starlette.JSONResponse.t :=
  match e with
  | Raised_HTTPException exc => (cat, http_exception_handler request exc)
  | Raised_StarletteHTTPException exc =>
      (cat, custom_http_exception_handler request exc)
  | Raised_RequestValidationError errors =>
      let '(cat, response) := validation_exception_handler cat request errors in
      (cat, Returns response)
  | Raised_other name => (cat, Raises (Uncaught name))
  end.

(** Two payload objects that differ at most in their [details]. *)
Definition same_but_details (a b : ResponseException) : Prop :=
  set_details a [] = set_details b [].

(** The catalogue after a sequence of handled exceptions. *)
Fixpoint catalogue_after (cat : catalogue)
  (history : list (Starlette.Request.t * raised)) : catalogue :=
  match history with
  | [] => cat
  | (request, e) :: rest =>
      catalogue_after (fst (exception_handler cat request e)) rest
  end.

(** *** [class ModuleExceptionPayload], [class ModuleException] *)

Module ModuleExceptionPayload.
Record t : Type := mk {
  prefix : string;
  msg : string;
  code : Z;
  details : dict;
  redirect : bool;
  notification : bool
}.
End ModuleExceptionPayload.

(** The first argument of [ModuleException]: a message or a payload. *)
Inductive msg_or_payload : Type :=
| Msg (msg : string)
| Payload (payload : ModuleExceptionPayload.t).

(** A [ModuleException] object: its payload and the message handed to
    [Exception.__init__]. *)
Module ModuleException.
Record t : Type := mk {
  payload : ModuleExceptionPayload.t;
  args : string
}.
End ModuleException.

(** The default of [code] in [ModuleException.__init__]. *)
Definition ModuleException_default_code : Z := 5999.

(** [ModuleException.__init__] *)
Definition ModuleException_init (msg : msg_or_payload) (code : Z)
  (details : option dict) (redirect notification : bool) : ModuleException.t :=
  let payload :=
    match msg with
    | Payload p => p
    | Msg m =>
        ModuleExceptionPayload.mk "ModuleException" m code (or_empty details)
          redirect notification
    end in
  ModuleException.mk payload (ModuleExceptionPayload.msg payload).

(** [ModuleException.dict]: [payload.model_dump()] *)
Definition ModuleException_dict (e : ModuleException.t) : dict :=
  let p := ModuleException.payload e in
  [ ("prefix", JStr (ModuleExceptionPayload.prefix p));
    ("msg", JStr (ModuleExceptionPayload.msg p));
    ("code", JInt (ModuleExceptionPayload.code p));
    ("details", JDict (ModuleExceptionPayload.details p));
    ("redirect", JBool (ModuleExceptionPayload.redirect p));
    ("notification", JBool (ModuleExceptionPayload.notification p)) ].

(** [ModuleException.json]: [payload.model_dump_json()] *)
Definition ModuleException_json (e : ModuleException.t) : string :=
  dumps (JDict (ModuleException_dict e)).

End Exception.

(** ** [src/logger.py] *)

Module Logger.
Import Starlette.

Definition DEFAULT_TRACE_ID : string := "root".
Definition DEFAULT_REQUEST_ID : string := "no-request".

(** What [dispatch] reads and writes besides its arguments: the identifiers
    [uuid.uuid4()] hands out, numbered by the order of the calls, and the two
    context variables ([None] before the first [set]). *)
Record world : Type := mkWorld {
  uuid_source : nat -> string;
  uuid_drawn : nat;
  TRACE_ID : option string;
  REQUEST_ID : option string
}.

(** [str(uuid.uuid4())] *)
Definition uuid4 (w : world) : string * world :=
  (uuid_source w (uuid_drawn w),
   mkWorld (uuid_source w) (S (uuid_drawn w)) (TRACE_ID w) (REQUEST_ID w)).

Definition TRACE_ID_set (v : string) (w : world) : world :=
  mkWorld (uuid_source w) (uuid_drawn w) (Some v) (REQUEST_ID w).

Definition REQUEST_ID_set (v : string) (w : world) : world :=
  mkWorld (uuid_source w) (uuid_drawn w) (TRACE_ID w) (Some v).

Definition TRACE_ID_get (w : world) : string :=
  match TRACE_ID w with Some v => v | None => DEFAULT_TRACE_ID end.

Definition REQUEST_ID_get (w : world) : string :=
  match REQUEST_ID w with Some v => v | None => DEFAULT_REQUEST_ID end.

(** The rest of the application, as [dispatch] sees it. *)
Definition downstream : Type :=
  Request.t -> world -> world * outcome Response.t.

(** [LoggingMiddleware.dispatch] *)
Definition dispatch (request : Request.t) (call_next : downstream) (w : world)
  : world * outcome Response.t :=
  let '(request_id, w) := uuid4 w in
  let '(fresh, w) := uuid4 w in
  let trace_id := headers_get "X-Trace-ID" fresh (Request.headers request) in
  let w := REQUEST_ID_set request_id w in
  let w := TRACE_ID_set trace_id w in
  let '(w, called) := call_next request w in
  (w,
   response <- called ;;
   let headers := Response.headers response in
   let headers := headers_set "X-Request-ID" request_id headers in
   let headers := headers_set "X-Trace-ID" trace_id headers in
   Returns (Response.mk (Response.status_code response)
              (Response.body response) headers)).

(** *** [class ColorPicker] *)

(** The levels of the [logging] module. *)
Definition DEBUG : Z := 10.
Definition INFO : Z := 20.
Definition WARNING : Z := 30.
Definition ERROR : Z := 40.
Definition CRITICAL : Z := 50.

Inductive ColorPicker : Type :=
| debug
| info
| warn
| error
| fatal
| end_of_hope
| clear.

(** [ColorPicker.pick] *)
Definition pick (level : Z) : ColorPicker :=
  if (DEBUG <=? level) && (level <? INFO) then debug
  else if (INFO <=? level) && (level <? WARNING) then info
  else if (WARNING <=? level) && (level <? ERROR) then warn
  else if (ERROR <=? level) && (level <? CRITICAL) then error
  else if CRITICAL =? level then fatal
  else end_of_hope.

(** *** [class EndpointFilter] *)

(** A key of a mapping: [None], a boolean, an integer or a string. *)
Inductive hashable : Type :=
| Key_None
| Key_bool (b : bool)
| Key_int (z : Z)
| Key_str (s : string).

(** [record.args]: the tuple of arguments, or the single mapping the
    [logging] module puts in its place. *)
Inductive record_args : Type :=
| Args_tuple (args : list json)
| Args_mapping (args : list (hashable * json)).

(** [args[2]] on a mapping: the value under the key 2.  Of the keys here
    only the integer 2 is equal to it ([True] is 1). *)
Fixpoint mapping_item_2 (args : list (hashable * json)) : option json :=
  match args with
  | [] => None
  | (Key_int z, v) :: t => if z =? 2 then Some v else mapping_item_2 t
  | _ :: t => mapping_item_2 t
  end.

(** [x != path] for a value [x] and the string [path]. *)
Definition differs_from (x : json) (path : string) : bool :=
  match x with
  | JStr s => negb (String.eqb s path)
  | _ => true
  end.

(** [EndpointFilter.filter]: whether the record is kept.  An index into a
    mapping is a key lookup, which raises [KeyError] without the key. *)
Definition EndpointFilter_filter (path : string) (args : record_args)
  : outcome bool :=
  match args with
  | Args_tuple l =>
      match l with
      | [] => Returns false
      | _ =>
          if (3 <=? List.length l)%nat
          then match nth_error l 2 with
               | Some x => Returns (differs_from x path)
               | None => Raises (Uncaught "IndexError")
               end
          else Returns false
      end
  | Args_mapping d =>
      match d with
      | [] => Returns false
      | _ =>
          if (3 <=? List.length d)%nat
          then match mapping_item_2 d with
               | Some x => Returns (differs_from x path)
               | None => Raises (Uncaught "KeyError")
               end
          else Returns false
      end
  end.

(** The path [setup_logging] keeps out of the access log. *)
Definition heartbeat_path : string :=
  "/api/v1/heartbeat/service-heartbeat/ping".

(** *** [class FastAPILoggerAdapter] *)

(** [value or default] for an optional string. *)
Definition or_default (value : option string) (default : string) : string :=
  match value with
  | Some v => if String.eqb v "" then default else v
  | None => default
  end.

(** The setters of the properties [trace_id] and [request_id]. *)
Definition trace_id_setter (value : option string) (w : world) : world :=
  TRACE_ID_set (or_default value DEFAULT_TRACE_ID) w.

Definition request_id_setter (value : option string) (w : world) : world :=
  REQUEST_ID_set (or_default value DEFAULT_REQUEST_ID) w.

(** An adapter whose [extra] is a mapping: [service_name] is [None] on an
    instance of the base class that [create] did not make, [extra] is what
    the constructor was given. *)
Record adapter : Type := mkAdapter {
  service_name : option string;
  extra : dict
}.

(** An instance in general: its [extra] is whatever the constructor was
    given under the keyword [extra], a mapping or not. *)
Record instance : Type := mkInstance {
  instance_service_name : option string;
  instance_extra : json
}.

(** The [issuer] of [create]: a string, or any other object, of which only
    [type(issuer).__name__] is used. *)
Inductive issuer : Type :=
| Issuer_str (name : string)
| Issuer_object (type_name : string).

(** [FastAPILoggerAdapter.__init__]: [kwargs.pop('extra', {})] becomes the
    [extra] of the object, the other keyword arguments are dropped. *)
Definition init (kwargs : dict) : instance :=
  mkInstance None
    (match dict_get "extra" kwargs with
     | Some extra => extra
     | None => JDict []
     end).

(** [FastAPILoggerAdapter.create]; [kwargs] are the keyword arguments. *)
Definition create (who : issuer) (kwargs : dict) : instance :=
  let logger := init kwargs in
  mkInstance
    (Some (match who with
           | Issuer_str name => name
           | Issuer_object type_name => type_name
           end))
    (instance_extra logger).

(** [{**a, **b}]: the keys of [b] are assigned over [a]. *)
Definition dict_update (a b : dict) : dict :=
  fold_left (fun d kv => dict_set (fst kv) (snd kv) d) b a.

(** [kwargs.get('extra') or {}] *)
Definition extra_or_empty (kwargs : dict) : json :=
  match dict_get "extra" kwargs with
  | Some v => if truthy v then v else JDict []
  | None => JDict []
  end.

(** [FastAPILoggerAdapter.process] on an adapter whose [extra] is a
    mapping: [kwargs] with its new [extra]; [APP_EXTRA] is the class
    attribute. *)
Definition process (self : adapter) (APP_EXTRA : dict) (kwargs : dict)
  (w : world) : outcome dict :=
  let data := extra_or_empty kwargs in
  match service_name self with
  | None => Raises (Uncaught "AttributeError")
  | Some declarer =>
      let base :=
        [ ("data", data);
          ("declarer", JStr declarer);
          ("trace_id", JStr (TRACE_ID_get w));
          ("request_id", JStr (REQUEST_ID_get w)) ] in
      Returns
        (dict_set "extra"
           (JDict (dict_update (dict_update base (extra self)) APP_EXTRA))
           kwargs)
  end.

(** [FastAPILoggerAdapter.process] on any instance.  The dictionary display
    is evaluated from left to right: [self.service_name] comes before
    [**self.extra], which raises [TypeError] unless [extra] is a mapping. *)
Definition process_instance (self : instance) (APP_EXTRA : dict)
  (kwargs : dict) (w : world) : outcome dict :=
  match instance_service_name self with
  | None => Raises (Uncaught "AttributeError")
  | Some declarer =>
      match instance_extra self with
      | JDict extra =>
          process (mkAdapter (Some declarer) extra) APP_EXTRA kwargs w
      | _ => Raises TypeError
      end
  end.

End Logger.

(** ** [src/model.py] *)

Module Model.
Import Exception.

(** *** [class ValuedEnum(str, Enum)]

    An enumeration is given by the body of its class: the names and the
    string values assigned to them, in order, the names pairwise distinct.
    A name whose value was already given to an earlier name is an alias of
    that member. *)

Module Member.
Record t : Type := mk {
  name : string;
  value : string
}.
End Member.

Definition enum_body : Type := list (string * string).

Fixpoint find_value (value : string) (ms : list Member.t) : option Member.t :=
  match ms with
  | [] => None
  | m :: t =>
      if String.eqb (Member.value m) value then Some m else find_value value t
  end.

(** The members in definition order, aliases left out: the values of
    [_value2member_map_]. *)
Definition canonical (body : enum_body) : list Member.t :=
  fold_left
    (fun ms nv =>
       match find_value (snd nv) ms with
       | Some _ => ms
       | None => (ms ++ [Member.mk (fst nv) (snd nv)])%list
       end)
    body [].

Fixpoint lookup_name (key : string) (ms : list (string * Member.t))
  : option Member.t :=
  match ms with
  | [] => None
  | (n, m) :: t => if String.eqb n key then Some m else lookup_name key t
  end.

(** [__members__], which is also [_member_map_]: every name, aliases
    included, with its member. *)
Definition members (body : enum_body) : list (string * Member.t) :=
  flat_map
    (fun nv =>
       match find_value (snd nv) (canonical body) with
       | Some m => [(fst nv, m)]
       | None => []
       end)
    body.

(** What a lookup gives: a member, [None], or an exception. *)
Inductive found : Type :=
| Found (m : Member.t)
| Nothing
| Raised_ModelException (e : ModuleException.t)
| Raised_KeyError.

(** [ModelException(msg=..., code=400)]: the class keeps the constructor of
    [ModuleException] and overrides only the class attribute [prefix], which
    the constructor does not read. *)
Definition ModelException (msg : string) (code : Z) : ModuleException.t :=
  ModuleException_init (Msg msg) code None false false.

(** [has_value] *)
Definition has_value (body : enum_body) (value : string) : bool :=
  match find_value value (canonical body) with
  | Some _ => true
  | None => false
  end.

(** [values] *)
Definition values (body : enum_body) : list string :=
  map Member.value (canonical body).

(** [from_key] *)
Definition from_key (body : enum_body) (key : string) (safe : bool) : found :=
  match lookup_name key (members body) with
  | Some member => Found member
  | None =>
      if negb safe
      then Raised_ModelException
             (ModelException ("Недопустимое значение: " ++ key) 400)
      else Nothing
  end.

(** [from_value] *)
Definition from_value (body : enum_body) (value : string) (safe : bool)
  : found :=
  match find_value value (canonical body) with
  | Some m => Found m
  | None =>
      if negb safe
      then Raised_ModelException
             (ModelException ("Недопустимое значение: " ++ value) 400)
      else Nothing
  end.

(** [from_name] *)
Definition from_name (body : enum_body) (name : string) : found :=
  match lookup_name name (members body) with
  | Some member => Found member
  | None => Raised_KeyError
  end.

(** [to_dict] *)
Definition to_dict (body : enum_body) : list (string * string) :=
  map (fun km => (fst km, Member.value (snd km))) (members body).

(** *** [view]

    [view(cls)] with [field_names] the fields of [cls], applied to [data]:
    the dump of a model, or a dictionary. *)
Definition view (field_names : list string) (data : dict) : dict :=
  fold_left
    (fun d k =>
       match dict_get k data with
       | Some v => dict_set k v d
       | None => d
       end)
    field_names [].

End Model.

(** ** [src/config.py] *)

Module Config.

Definition ValueError : exn := Uncaught "ValueError".

(** *** Strings: [strip], [split], [int]

    The white space of [str.strip] is that of [str.isspace]: the ASCII
    characters 9 to 13 and 28 to 32, and U+0085, U+00A0, U+1680, U+2000 to
    U+200A, U+2028, U+2029, U+202F, U+205F and U+3000, here in their UTF-8
    bytes. *)

Definition ws1 (c : ascii) : bool :=
  let n := N_of_ascii c in
  (((9 <=? n) && (n <=? 13)) || ((28 <=? n) && (n <=? 32)))%N.

Definition ws2 (c1 c2 : ascii) : bool :=
  let a := N_of_ascii c1 in
  let b := N_of_ascii c2 in
  ((a =? 194) && ((b =? 133) || (b =? 160)))%N.

Definition ws3 (c1 c2 c3 : ascii) : bool :=
  let a := N_of_ascii c1 in
  let b := N_of_ascii c2 in
  let c := N_of_ascii c3 in
  (((a =? 225) && (b =? 154) && (c =? 128)) ||
   ((a =? 226) && (b =? 128) &&
    (((128 <=? c) && (c <=? 138)) || (c =? 168) || (c =? 169) || (c =? 175))) ||
   ((a =? 226) && (b =? 129) && (c =? 159)) ||
   ((a =? 227) && (b =? 128) && (c =? 128)))%N.

Fixpoint lstrip (s : string) : string :=
  match s with
  | String c1 t =>
      if ws1 c1 then lstrip t
      else match t with
           | String c2 t2 =>
               if ws2 c1 c2 then lstrip t2
               else match t2 with
                    | String c3 t3 => if ws3 c1 c2 c3 then lstrip t3 else s
                    | EmptyString => s
                    end
           | EmptyString => s
           end
  | EmptyString => s
  end.

(** Is [s] white space from end to end? *)
Fixpoint all_ws (s : string) : bool :=
  match s with
  | String c1 t =>
      if ws1 c1 then all_ws t
      else match t with
           | String c2 t2 =>
               if ws2 c1 c2 then all_ws t2
               else match t2 with
                    | String c3 t3 => ws3 c1 c2 c3 && all_ws t3
                    | EmptyString => false
                    end
           | EmptyString => false
           end
  | EmptyString => true
  end.

Fixpoint rstrip (s : string) : string :=
  match s with
  | String c t => if all_ws s then EmptyString else String c (rstrip t)
  | EmptyString => s
  end.

(** [s.strip()] *)
Definition strip (s : string) : string := rstrip (lstrip s).

(** The pieces of [s] between the occurrences of [sep], found from the
    left; [skip] counts the characters of an occurrence still to pass. *)
Fixpoint split_from (sep s : string) (skip : nat) : list string :=
  match s with
  | EmptyString => [EmptyString]
  | String c t =>
      match skip with
      | S k => split_from sep t k
      | O =>
          if String.prefix sep s
          then EmptyString :: split_from sep t (String.length sep - 1)
          else match split_from sep t 0 with
               | piece :: pieces => String c piece :: pieces
               | [] => [String c EmptyString]
               end
      end
  end.

(** [s.split(sep)] *)
Definition split (sep s : string) : outcome (list string) :=
  match sep with
  | EmptyString => Raises ValueError
  | String _ _ => Returns (split_from sep s 0)
  end.

Fixpoint drop (n : nat) (s : string) : string :=
  match n, s with
  | S k, String _ t => drop k t
  | _, _ => s
  end.

(** The text before the first occurrence of [sep] and the text after it. *)
Fixpoint cut (sep s : string) : option (string * string) :=
  match s with
  | EmptyString => None
  | String c t =>
      if String.prefix sep s then Some (EmptyString, drop (String.length sep) s)
      else match cut sep t with
           | Some (before, after) => Some (String c before, after)
           | None => None
           end
  end.

(** [s.split(sep, 1)] *)
Definition split_once (sep s : string) : outcome (list string) :=
  match sep with
  | EmptyString => Raises ValueError
  | String _ _ =>
      match cut sep s with
      | Some (before, after) => Returns [before; after]
      | None => Returns [s]
      end
  end.

(** [sep.join(items)] *)
Fixpoint join (sep : string) (items : list string) : string :=
  match items with
  | [] => EmptyString
  | [x] => x
  | x :: t => x ++ sep ++ join sep t
  end.

(** The digits of an integer literal: digits, single underscores allowed
    between them. *)
Fixpoint int_digits (s : string) (after_digit : bool) : option Decimal.uint :=
  match s with
  | EmptyString => if after_digit then Some Decimal.Nil else None
  | String c t =>
      match digit_of_char c with
      | Some D => option_map D (int_digits t true)
      | None =>
          if (N_of_ascii c =? 95)%N && after_digit then int_digits t false
          else None
      end
  end.

Fixpoint is_ascii (s : string) : bool :=
  match s with
  | EmptyString => true
  | String c t => (N_of_ascii c <? 128)%N && is_ascii t
  end.

(** The white space [int] passes over at the two ends of its argument:
    that of [str.strip] without the characters 28 to 31, which [int]
    refuses. *)
Definition int_ws1 (c : ascii) : bool :=
  let n := N_of_ascii c in
  (((9 <=? n) && (n <=? 13)) || (n =? 32))%N.

Fixpoint int_lstrip (s : string) : string :=
  match s with
  | String c1 t =>
      if int_ws1 c1 then int_lstrip t
      else match t with
           | String c2 t2 =>
               if ws2 c1 c2 then int_lstrip t2
               else match t2 with
                    | String c3 t3 =>
                        if ws3 c1 c2 c3 then int_lstrip t3 else s
                    | EmptyString => s
                    end
           | EmptyString => s
           end
  | EmptyString => s
  end.

Fixpoint int_all_ws (s : string) : bool :=
  match s with
  | String c1 t =>
      if int_ws1 c1 then int_all_ws t
      else match t with
           | String c2 t2 =>
               if ws2 c1 c2 then int_all_ws t2
               else match t2 with
                    | String c3 t3 => ws3 c1 c2 c3 && int_all_ws t3
                    | EmptyString => false
                    end
           | EmptyString => false
           end
  | EmptyString => true
  end.

Fixpoint int_rstrip (s : string) : string :=
  match s with
  | String c t => if int_all_ws s then EmptyString else String c (int_rstrip t)
  | EmptyString => s
  end.

Definition int_strip (s : string) : string := int_rstrip (int_lstrip s).

(** [int(s)] in base ten.  Digits outside ASCII are left [Unspecified]. *)
Definition py_int (s : string) : outcome Z :=
  let s := int_strip s in
  if negb (is_ascii s) then Unspecified
  else
    let '(negative, body) :=
      match s with
      | String c t =>
          if (N_of_ascii c =? 45)%N then (true, t)
          else if (N_of_ascii c =? 43)%N then (false, t)
          else (false, s)
      | EmptyString => (false, s)
      end in
    match int_digits body false with
    | Some d =>
        Returns (if negative then Z.opp (Z.of_uint d) else Z.of_uint d)
    | None => Raises ValueError
    end.

(** *** [class EnvListLoader] *)

Section EnvListLoader.

Context {T : Type} (item_type : string -> outcome T).

Fixpoint load_items (pieces : list string) : outcome (list T) :=
  match pieces with
  | [] => Returns []
  | v :: rest =>
      if String.eqb (strip v) EmptyString then load_items rest
      else
        item <- item_type (strip v) ;;
        items <- load_items rest ;;
        Returns (item :: items)
  end.

(** [EnvListLoader.__call__] *)
Definition EnvListLoader (item_separator value : string) : outcome (list T) :=
  if String.eqb value EmptyString then Returns []
  else
    pieces <- split item_separator value ;;
    load_items pieces.

End EnvListLoader.

(** [str] as an item type. *)
Definition item_str (s : string) : outcome string := Returns s.

(** *** [class EnvDictLoader] *)

Section EnvDictLoader.

Context {K V : Type} (key_type : string -> outcome K)
  (value_type : string -> outcome V) (key_eqb : K -> K -> bool).

Fixpoint assign (k : K) (v : V) (d : list (K * V)) : list (K * V) :=
  match d with
  | [] => [(k, v)]
  | (k', v') :: t =>
      if key_eqb k' k then (k, v) :: t else (k', v') :: assign k v t
  end.

(** The list [pairs]. *)
Fixpoint split_entries (key_value_separator : string) (entries : list string)
  : outcome (list (list string)) :=
  match entries with
  | [] => Returns []
  | entry :: rest =>
      if String.eqb (strip entry) EmptyString
      then split_entries key_value_separator rest
      else
        pair <- split_once key_value_separator entry ;;
        pairs <- split_entries key_value_separator rest ;;
        Returns (pair :: pairs)
  end.

(** The dictionary built from [pairs]. *)
Fixpoint load_pairs (pairs : list (list string)) (d : list (K * V))
  : outcome (list (K * V)) :=
  match pairs with
  | [] => Returns d
  | [k; v] :: rest =>
      key <- key_type (strip k) ;;
      val <- value_type (strip v) ;;
      load_pairs rest (assign key val d)
  | _ :: _ => Raises ValueError
  end.

(** [EnvDictLoader.__call__] *)
Definition EnvDictLoader (pair_separator key_value_separator value : string)
  : outcome (list (K * V)) :=
  if String.eqb value EmptyString then Returns []
  else
    entries <- split pair_separator value ;;
    pairs <- split_entries key_value_separator entries ;;
    load_pairs pairs [].

End EnvDictLoader.

(** *** [class EnvLoggerModulesLoader] *)

Module ModuleLoggingConfig.
Record t : Type := mk {
  name : string;
  log_level : Z
}.
End ModuleLoggingConfig.

Fixpoint load_modules (entry_separator : string) (entries : list string)
  : outcome (list ModuleLoggingConfig.t) :=
  match entries with
  | [] => Returns []
  | entry :: rest =>
      if String.eqb (strip entry) EmptyString
      then load_modules entry_separator rest
      else
        parts <- split_once entry_separator entry ;;
        match parts with
        | [name; log_level] =>
            level <- py_int (strip log_level) ;;
            modules <- load_modules entry_separator rest ;;
            Returns (ModuleLoggingConfig.mk (strip name) level :: modules)
        | _ => Raises ValueError
        end
  end.

(** [EnvLoggerModulesLoader.__call__] *)
Definition EnvLoggerModulesLoader (separator entry_separator value : string)
  : outcome (list ModuleLoggingConfig.t) :=
  if String.eqb value EmptyString then Returns []
  else
    entries <- split separator value ;;
    load_modules entry_separator entries.

(** *** [BaseConfig.parse_env_var]

    [loaders] is the class attribute [_env_fields_loaders]; the result is
    what the loader of the field returns or, without one, the decoded
    JSON. *)
Inductive parsed (A : Type) : Type :=
| By_loader (a : A)
| By_json (v : json).

Arguments By_loader {A} a.
Arguments By_json {A} v.

Fixpoint find_loader {A : Type} (field_name : string)
  (loaders : list (string * (string -> outcome A)))
  : option (string -> outcome A) :=
  match loaders with
  | [] => None
  | (name, loader) :: t =>
      if String.eqb name field_name then Some loader
      else find_loader field_name t
  end.

Definition parse_env_var {A : Type}
  (loaders : list (string * (string -> outcome A)))
  (field_name raw_val : string) : outcome (parsed A) :=
  match find_loader field_name loaders with
  | Some loader => a <- loader raw_val ;; Returns (By_loader a)
  | None => v <- loads raw_val ;; Returns (By_json v)
  end.

(** [LoggerConfig._env_fields_loaders] *)
Definition LoggerConfig_loaders
  : list (string * (string -> outcome (list ModuleLoggingConfig.t))) :=
  [ ("modules", EnvLoggerModulesLoader "," ":") ].

(** *** [class BaseServiceConfig] *)

(** [BaseServiceConfig.load]; [cls] builds the instance from the keyword
    arguments.  The dictionary returned first is [config_data] as the call
    leaves it. *)
Definition load {A : Type} (cls : dict -> outcome A) (config_data : dict)
  : dict * outcome A :=
  let config_data :=
    match dict_get "modules" config_data with
    | Some modules_config =>
        dict_set "module" modules_config (dict_del "modules" config_data)
    | None => config_data
    end in
  (config_data, cls config_data).

(** [yaml_settings_source]: [file] is [None] when there is no file at the
    configured path and otherwise what [yaml.safe_load] returned. *)
Definition yaml_settings_source (file : option json) : outcome dict :=
  match file with
  | None => Returns []
  | Some content =>
      match (if truthy content then content else JDict []) with
      | JDict loaded =>
          let '(modules_config, loaded) :=
            dict_pop "modules" (JDict []) loaded in
          Returns (if truthy modules_config
                   then dict_set "module" modules_config loaded
                   else loaded)
      | JList _ => Raises TypeError
      | _ => Raises (Uncaught "AttributeError")
      end
  end.

(** *** Texts an environment variable is written with *)

(** A character above the space and below 128. *)
Definition printable_char (c : ascii) : bool :=
  ((32 <? N_of_ascii c) && (N_of_ascii c <? 128))%N.

Fixpoint printable (s : string) : bool :=
  match s with
  | EmptyString => true
  | String c t => printable_char c && printable t
  end.

Fixpoint has_char (c : ascii) (s : string) : bool :=
  match s with
  | EmptyString => false
  | String a t => Ascii.eqb a c || has_char c t
  end.

(** An entry of [LOGGING_MODULES]: the name, a colon, the level. *)
Definition entry_text (m : ModuleLoggingConfig.t) : string :=
  ModuleLoggingConfig.name m ++ ":"
  ++ string_of_Z (ModuleLoggingConfig.log_level m).

End Config.

(* ================================================================== *)
(** * Part II: properties *)
(* ================================================================== *)

(** ** JSON text: reading back what was written *)

Module JsonFacts.

(** Induction over values that reaches inside lists and dictionaries. *)
Lemma json_induction (P : json -> Prop) :
  P JNull ->
  (forall b, P (JBool b)) ->
  (forall z, P (JInt z)) ->
  (forall s, P (JStr s)) ->
  (forall l, Forall P l -> P (JList l)) ->
  (forall d, Forall (fun kv => P (snd kv)) d -> P (JDict d)) ->
  forall v, P v.
Proof.
  intros Hnull Hbool Hint Hstr Hlist Hdict.
  fix IH 1. intros [ | b | z | s | l | d ].
  - exact Hnull.
  - apply Hbool.
  - apply Hint.
  - apply Hstr.
  - apply Hlist. induction l as [|x t IHl]; constructor; [apply IH | exact IHl].
  - apply Hdict. induction d as [|[k x] t IHd]; constructor;
      [apply IH | exact IHd].
Qed.

(** *** Strings *)

Lemma scanstring_write_char (c : ascii) (t k : string) (s : string) :
  scanstring t = Returns (Some s, k) ->
  scanstring (write_char c t) = Returns (Some (String c s), k).
Proof.
  intros Ht.
  destruct c as [[] [] [] [] [] [] [] []];
    cbv [write_char N_of_ascii N_of_digits N.eqb N.ltb N.compare N.add N.mul
         Pos.eqb Pos.compare Pos.compare_cont Pos.add Pos.mul];
    cbn; rewrite Ht; reflexivity.
Qed.

Lemma scanstring_write_escaped (s k : string) :
  scanstring (write_escaped s (String dquote k)) = Returns (Some s, k).
Proof.
  induction s as [|c t IH]; simpl.
  - reflexivity.
  - apply scanstring_write_char, IH.
Qed.

(** *** What follows a value *)

Lemma delimited_inv (k : string) :
  delimited k = true ->
  k = EmptyString \/
  exists c t, k = String c t /\
    (N_of_ascii c = 44 \/ N_of_ascii c = 93 \/ N_of_ascii c = 125)%N.
Proof.
  destruct k as [|c t]; [now left|]. unfold delimited. intros H. right.
  exists c, t. split; [reflexivity|].
  apply orb_true_iff in H. destruct H as [H|H].
  - apply orb_true_iff in H. destruct H as [H|H]; apply N.eqb_eq in H; auto.
  - apply N.eqb_eq in H. auto.
Qed.

Ltac by_delimiter H :=
  destruct (delimited_inv _ H) as [-> | (c & t & -> & [E | [E | E]])].

Lemma scan_digits_delimited (k : string) :
  delimited k = true -> scan_digits k = (Decimal.Nil, k).
Proof.
  intros H. by_delimiter H; try reflexivity;
    unfold scan_digits, digit_of_char; rewrite E; reflexivity.
Qed.

Lemma skip_fraction_delimited (k : string) :
  delimited k = true -> skip_fraction k = None.
Proof.
  intros H. by_delimiter H; try reflexivity;
    destruct t; try reflexivity; unfold skip_fraction; rewrite E; reflexivity.
Qed.

Lemma skip_exponent_delimited (k : string) :
  delimited k = true -> skip_exponent k = None.
Proof.
  intros H. by_delimiter H; try reflexivity;
    unfold skip_exponent; rewrite E; reflexivity.
Qed.

Lemma skip_ws_delimited (k : string) :
  delimited k = true -> skip_ws k = k.
Proof.
  intros H. by_delimiter H; try reflexivity;
    unfold skip_ws, is_ws; rewrite E; reflexivity.
Qed.

(** *** Numbers *)

Lemma scan_digits_string_of_uint (u : Decimal.uint) (k : string) :
  delimited k = true ->
  scan_digits (NilEmpty.string_of_uint u ++ k) = (u, k).
Proof.
  intros H. induction u; simpl;
    try (rewrite IHu; reflexivity).
  apply scan_digits_delimited, H.
Qed.

Lemma to_uint_nonzero_head (p : positive) : nonzero_head (Pos.to_uint p) = true.
Proof.
  pose proof (DecimalN.Unsigned.to_of (Pos.to_uint p)) as H.
  unfold N.of_uint in H. rewrite DecimalPos.Unsigned.of_to in H. simpl in H.
  destruct (Pos.to_uint p) as [|u| | | | | | | | |] eqn:E; try reflexivity.
  - destruct (DecimalPos.Unsigned.to_uint_nonnil p E).
  - exfalso. unfold Decimal.unorm in H. simpl in H.
    destruct (Decimal.nzhead u) eqn:Eu.
    + injection H as ->. apply (DecimalPos.Unsigned.to_uint_nonzero p E).
    + apply (DecimalFacts.nzhead_nonzero _ _ Eu).
    + discriminate. + discriminate. + discriminate. + discriminate.
    + discriminate. + discriminate. + discriminate. + discriminate.
    + discriminate.
Qed.

Lemma match_number_digits (u : Decimal.uint) (k : string) :
  nonzero_head u = true -> delimited k = true ->
  match_number (NilEmpty.string_of_uint u ++ k)
  = Some (Some (JInt (Z.of_int (Decimal.Pos u))), k)
  /\ match_number (String "-" (NilEmpty.string_of_uint u ++ k))
     = Some (Some (JInt (Z.of_int (Decimal.Neg u))), k).
Proof.
  intros Hu Hk.
  destruct u; try discriminate Hu;
    unfold match_number; cbn -[Z.of_int skip_fraction skip_exponent];
    rewrite (scan_digits_string_of_uint _ _ Hk);
    cbn -[Z.of_int skip_fraction skip_exponent];
    rewrite (skip_fraction_delimited _ Hk), (skip_exponent_delimited _ Hk);
    split; reflexivity.
Qed.

Lemma string_of_uint_nonzero_head (u : Decimal.uint) :
  nonzero_head u = true ->
  NilZero.string_of_uint u = NilEmpty.string_of_uint u.
Proof. destruct u; try discriminate; reflexivity. Qed.

Lemma match_number_string_of_Z (z : Z) (k : string) :
  delimited k = true ->
  match_number (string_of_Z z ++ k) = Some (Some (JInt z), k).
Proof.
  intros Hk. rewrite <- (DecimalZ.of_to z) at 2.
  unfold string_of_Z. destruct z as [|p|p]; simpl Z.to_int.
  - unfold match_number. cbn -[skip_fraction skip_exponent].
    rewrite (skip_fraction_delimited _ Hk), (skip_exponent_delimited _ Hk).
    reflexivity.
  - unfold NilZero.string_of_int.
    rewrite (string_of_uint_nonzero_head _ (to_uint_nonzero_head p)).
    apply match_number_digits; [apply to_uint_nonzero_head | exact Hk].
  - unfold NilZero.string_of_int.
    rewrite (string_of_uint_nonzero_head _ (to_uint_nonzero_head p)).
    apply match_number_digits; [apply to_uint_nonzero_head | exact Hk].
Qed.

(** *** The first character of a value *)

Lemma string_of_Z_head (z : Z) (k : string) :
  exists c t, string_of_Z z ++ k = String c t /\
    (is_digit c || (N_of_ascii c =? 45)%N) = true.
Proof.
  unfold string_of_Z. destruct z as [|p|p]; simpl Z.to_int.
  - eexists _, _. split; reflexivity.
  - unfold NilZero.string_of_int.
    rewrite (string_of_uint_nonzero_head _ (to_uint_nonzero_head p)).
    pose proof (to_uint_nonzero_head p) as H.
    destruct (Pos.to_uint p); try discriminate H;
      eexists _, _; split; reflexivity.
  - eexists _, _. split; reflexivity.
Qed.

Lemma number_start (c : ascii) :
  (is_digit c || (N_of_ascii c =? 45)%N) = true -> value_start c = true.
Proof.
  destruct c as [[] [] [] [] [] [] [] []]; try discriminate; reflexivity.
Qed.

Lemma write_head (v : json) (k : string) :
  exists c t, write v k = String c t /\ value_start c = true.
Proof.
  destruct v as [ | [|] | z | s | l | d ]; try (eexists _, _; split; reflexivity).
  destruct (string_of_Z_head z k) as (c & t & E & H).
  exists c, t. split; [exact E | apply number_start, H].
Qed.

Lemma value_start_not_ws (c : ascii) : value_start c = true -> is_ws c = false.
Proof.
  destruct c as [[] [] [] [] [] [] [] []]; try discriminate; reflexivity.
Qed.

Lemma skip_ws_write (v : json) (k : string) : skip_ws (write v k) = write v k.
Proof.
  destruct (write_head v k) as (c & t & -> & H).
  simpl. now rewrite (value_start_not_ws _ H).
Qed.

(** *** One step of the scanner, by the first character *)

Lemma scan_once_number (f : nat) (c : ascii) (t : string) :
  (is_digit c || (N_of_ascii c =? 45)%N) = true ->
  scan_once (S f) (String c t)
  = match match_number (String c t) with
    | Some r => Returns r
    | None =>
        match strip_prefix "NaN" (String c t),
              strip_prefix "Infinity" (String c t),
              strip_prefix "-Infinity" (String c t) with
        | Some rest, _, _ => Returns (None, rest)
        | None, Some rest, _ => Returns (None, rest)
        | None, None, Some rest => Returns (None, rest)
        | None, None, None => Raises JSONDecodeError
        end
    end.
Proof.
  destruct c as [[] [] [] [] [] [] [] []]; try discriminate; reflexivity.
Qed.

Lemma scan_once_int (f : nat) (z : Z) (k : string) :
  delimited k = true ->
  scan_once (S f) (string_of_Z z ++ k) = Returns (Some (JInt z), k).
Proof.
  intros Hk. pose proof (match_number_string_of_Z z k Hk) as Hm.
  destruct (string_of_Z_head z k) as (c & t & E & Hc).
  rewrite E in *. rewrite (scan_once_number f c t Hc), Hm. reflexivity.
Qed.

Lemma scan_once_str (f : nat) (s k : string) :
  scan_once (S f) (write_quoted s k) = Returns (Some (JStr s), k).
Proof.
  unfold write_quoted. cbn [scan_once]. change (N_of_ascii dquote =? 34)%N with true.
  cbv iota. rewrite scanstring_write_escaped. reflexivity.
Qed.

Lemma JSONArray_S (f : nat) (s : string) :
  JSONArray (S f) s
  = ('(value, r) <- scan_once f s ;;
     match skip_ws r with
     | String c t =>
         if (N_of_ascii c =? 93)%N then Returns (read_cons value (Some []), t)
         else if (N_of_ascii c =? 44)%N then
           '(values, rest) <- JSONArray f (skip_ws t) ;;
           Returns (read_cons value values, rest)
         else Raises JSONDecodeError
     | EmptyString => Raises JSONDecodeError
     end).
Proof. reflexivity. Qed.

Lemma JSONObject_S (f : nat) (s : string) :
  JSONObject (S f) s
  = ('(key, r) <- scanstring s ;;
     match skip_ws r with
     | String c t =>
         if (N_of_ascii c =? 58)%N then
           '(value, r2) <- scan_once f (skip_ws t) ;;
           match skip_ws r2 with
           | String c2 t2 =>
               if (N_of_ascii c2 =? 125)%N
               then Returns (read_cons (read_pair key value) (Some []), t2)
               else if (N_of_ascii c2 =? 44)%N then
                 match skip_ws t2 with
                 | String c3 t3 =>
                     if (N_of_ascii c3 =? 34)%N then
                       '(pairs, rest) <- JSONObject f t3 ;;
                       Returns (read_cons (read_pair key value) pairs, rest)
                     else Raises JSONDecodeError
                 | EmptyString => Raises JSONDecodeError
                 end
               else Raises JSONDecodeError
           | EmptyString => Raises JSONDecodeError
           end
         else Raises JSONDecodeError
     | EmptyString => Raises JSONDecodeError
     end).
Proof. reflexivity. Qed.

(** *** Fuel

    The scanner consumes a character whenever it returns, so its recursion
    is bounded by the length of the text. *)

Lemma skip_ws_length (s : string) :
  (String.length (skip_ws s) <= String.length s)%nat.
Proof.
  induction s as [|c t IH]; simpl; [lia|]. destruct (is_ws c); simpl; lia.
Qed.

Lemma strip_prefix_length (p s r : string) :
  strip_prefix p s = Some r ->
  (String.length r + String.length p = String.length s)%nat.
Proof.
  revert s. induction p as [|a p IH]; intros [|b s]; simpl; try discriminate.
  - intros [= <-]. reflexivity.
  - intros [= <-]. simpl. lia.
  - destruct (Ascii.eqb a b); [|discriminate]. intros H. apply IH in H. lia.
Qed.

Lemma scan_digits_length (s : string) :
  (String.length (snd (scan_digits s)) <= String.length s)%nat.
Proof.
  induction s as [|c t IH]; simpl; [lia|].
  destruct (digit_of_char c); simpl; [|lia].
  destruct (scan_digits t). simpl in *. lia.
Qed.

Lemma is_digit_digit_of_char (c : ascii) :
  is_digit c = true -> digit_of_char c <> None.
Proof.
  destruct c as [[] [] [] [] [] [] [] []]; try discriminate; intros _; discriminate.
Qed.

Lemma int_part_consumes (s : string) (d : Decimal.uint) (rest : string) :
  int_part s = Some (d, rest) ->
  (String.length rest < String.length s)%nat.
Proof.
  destruct s as [|c t]; simpl; [discriminate|].
  destruct (N_of_ascii c =? 48)%N.
  - intros [= <- <-]. lia.
  - destruct (is_digit c) eqn:Hd; [|discriminate].
    apply is_digit_digit_of_char in Hd.
    destruct (digit_of_char c); [|contradiction].
    pose proof (scan_digits_length t) as Hl.
    destruct (scan_digits t). intros [= <- <-]. simpl in Hl. lia.
Qed.

Lemma skip_fraction_length (s r : string) :
  skip_fraction s = Some r -> (String.length r <= String.length s)%nat.
Proof.
  destruct s as [|c [|d t]]; try discriminate. unfold skip_fraction.
  destruct (_ && _); [|discriminate]. intros [= <-].
  pose proof (scan_digits_length (String d t)). simpl in *. lia.
Qed.

Lemma skip_exponent_length (s r : string) :
  skip_exponent s = Some r -> (String.length r <= String.length s)%nat.
Proof.
  destruct s as [|c t]; [discriminate|]. unfold skip_exponent.
  destruct (_ || _); [|discriminate].
  assert (forall digits,
             (String.length digits <= String.length t)%nat ->
             match digits with
             | String d _ =>
                 if is_digit d then Some (snd (scan_digits digits)) else None
             | EmptyString => None
             end = Some r ->
             (String.length r <= String.length (String c t))%nat) as H.
  { intros [|d u] Hl; [discriminate|]. destruct (is_digit d); [|discriminate].
    intros [= <-]. pose proof (scan_digits_length (String d u)).
    simpl in *. lia. }
  destruct t as [|sign t']; [discriminate|].
  destruct (_ || _).
  - apply (H t'). simpl. lia.
  - apply (H (String sign t')). simpl. lia.
Qed.

Lemma match_number_consumes (s : string) (v : option json) (r : string) :
  match_number s = Some (v, r) ->
  (String.length r < String.length s)%nat.
Proof.
  assert (forall rest,
             match skip_fraction rest,
                   skip_exponent
                     match skip_fraction rest with
                     | Some r0 => r0
                     | None => rest
                     end with
             | None, None => rest
             | _, Some r0 => r0
             | Some r0, None => r0
             end = r -> (String.length r <= String.length rest)%nat) as Hf.
  { intros rest.
    destruct (skip_fraction rest) as [r1|] eqn:E1;
      [apply skip_fraction_length in E1|];
      match goal with
      | |- context [skip_exponent ?x] =>
          destruct (skip_exponent x) as [r2|] eqn:E2;
          [apply skip_exponent_length in E2|]
      end; intros <-; lia. }
  unfold match_number. destruct s as [|c t].
  - simpl. discriminate.
  - destruct (N_of_ascii c =? 45)%N.
    + destruct (int_part t) as [[d rest]|] eqn:E; [|discriminate].
      apply int_part_consumes in E. specialize (Hf rest).
      destruct (skip_fraction rest);
        match goal with
        | |- context [skip_exponent ?x] => destruct (skip_exponent x)
        end; intros [= _ <-]; specialize (Hf eq_refl); simpl; lia.
    + destruct (int_part (String c t)) as [[d rest]|] eqn:E; [|discriminate].
      apply int_part_consumes in E. specialize (Hf rest).
      destruct (skip_fraction rest);
        match goal with
        | |- context [skip_exponent ?x] => destruct (skip_exponent x)
        end; intros [= _ <-]; specialize (Hf eq_refl); simpl in *; lia.
Qed.

Lemma scanstring_consumes (n : nat) :
  forall s x r, (String.length s <= n)%nat ->
    scanstring s = Returns (x, r) ->
    (String.length r < String.length s)%nat.
Proof.
  induction n as [|n IH]; intros s x r Hn H.
  - destruct s; [discriminate H | simpl in Hn; lia].
  - destruct s as [|c t]; [discriminate H|]. simpl in H, Hn.
    destruct (N_of_ascii c =? 34)%N.
    { injection H as _ <-. simpl. lia. }
    destruct (N_of_ascii c =? 92)%N.
    + destruct t as [|e t']; [discriminate H|]. simpl in Hn.
      destruct (N_of_ascii e =? 117)%N.
      * destruct t' as [|h1 [|h2 [|h3 [|h4 t'']]]]; try discriminate H.
        simpl in Hn.
        destruct (hex_val h1), (hex_val h2), (hex_val h3), (hex_val h4);
          try discriminate H.
        destruct (scanstring t'') as [[r0 rest0]| |] eqn:E;
          try discriminate H.
        simpl in H. injection H as _ <-.
        apply IH in E; [simpl; lia | lia].
      * destruct (unescape e); [|discriminate H].
        destruct (scanstring t') as [[r0 rest0]| |] eqn:E;
          try discriminate H.
        simpl in H. injection H as _ <-.
        apply IH in E; [simpl; lia | lia].
    + destruct (N_of_ascii c <? 32)%N; [discriminate H|].
      destruct (scanstring t) as [[r0 rest0]| |] eqn:E; try discriminate H.
      simpl in H. injection H as _ <-.
      apply IH in E; [simpl; lia | lia].
Qed.

Ltac step H :=
  match type of H with
  | Returns ?p = Returns _ => is_var p; injection H as H; subst p
  | Returns _ = Returns _ => injection H as ? ?; subst
  | Raises _ = _ => discriminate H
  | Unspecified = _ => discriminate H
  | ?x = _ => is_var x; subst x
  | bind ?m _ = _ =>
      let E := fresh "E" in destruct m as [[? ?]| |] eqn:E; cbn [bind] in H
  | match ?x with _ => _ end = _ => destruct x eqn:?
  end.

Ltac measure IH :=
  repeat match goal with
         | E : scanstring _ = Returns _ |- _ =>
             apply (scanstring_consumes _ _ _ _ (le_n _)) in E
         | E : scan_once _ _ = Returns _ |- _ => apply (proj1 IH) in E
         | E : JSONArray _ _ = Returns _ |- _ => apply (proj1 (proj2 IH)) in E
         | E : JSONObject _ _ = Returns _ |- _ => apply (proj2 (proj2 IH)) in E
         | E : (if ?b then _ else None) = Some _ |- _ =>
             destruct b; [|discriminate E]
         | E : strip_prefix _ _ = Some _ |- _ => apply strip_prefix_length in E
         | E : match_number _ = Some _ |- _ =>
             apply match_number_consumes in E
         | E : skip_ws ?t = _ |- _ =>
             let Hl := fresh "Hl" in
             pose proof (skip_ws_length t) as Hl; rewrite E in Hl; clear E
         end;
  repeat match goal with
         | H : context [String.length (skip_ws ?t)] |- _ =>
             lazymatch goal with
             | _ : (String.length (skip_ws t) <= String.length t)%nat |- _ =>
                 fail
             | _ => pose proof (skip_ws_length t)
             end
         | |- context [String.length (skip_ws ?t)] =>
             lazymatch goal with
             | _ : (String.length (skip_ws t) <= String.length t)%nat |- _ =>
                 fail
             | _ => pose proof (skip_ws_length t)
             end
         end;
  simpl in *; lia.

Lemma scan_consumes (n : nat) :
  (forall s v r, scan_once n s = Returns (v, r) ->
     (String.length r < String.length s)%nat) /\
  (forall s l r, JSONArray n s = Returns (l, r) ->
     (String.length r < String.length s)%nat) /\
  (forall s l r, JSONObject n s = Returns (l, r) ->
     (String.length r < String.length s)%nat).
Proof.
  induction n as [|n IH]; [repeat split; discriminate|].
  split; [|split]; intros s x r H.
  - destruct s as [|c t]; [discriminate H|]. cbn [scan_once] in H.
    repeat step H; try discriminate; measure IH.
  - rewrite JSONArray_S in H. repeat step H; measure IH.
  - rewrite JSONObject_S in H. repeat step H; measure IH.
Qed.

Ltac stable IH C :=
  repeat first
    [ reflexivity
    | match goal with
      | |- bind (scan_once ?m ?s) _ = bind (scan_once ?n ?s) _ =>
          rewrite (proj1 IH s) by measure C;
          destruct (scan_once n s) as [[? ?]| |] eqn:?; cbn [bind]
      | |- bind (JSONArray ?m ?s) _ = bind (JSONArray ?n ?s) _ =>
          rewrite (proj1 (proj2 IH) s) by measure C
      | |- bind (JSONObject ?m ?s) _ = bind (JSONObject ?n ?s) _ =>
          rewrite (proj2 (proj2 IH) s) by measure C
      | |- bind (scanstring ?t) _ = bind (scanstring ?t) _ =>
          destruct (scanstring t) as [[? ?]| |] eqn:?; cbn [bind]
      | |- match ?x with _ => _ end = match ?x with _ => _ end =>
          destruct x eqn:?
      end ].

(** Past twice the length of the text, more fuel changes nothing. *)
Lemma fuel_stable (n : nat) :
  forall m, (n <= m)%nat ->
    (forall s, (2 * String.length s + 1 <= n)%nat ->
       scan_once m s = scan_once n s) /\
    (forall s, (2 * String.length s + 2 <= n)%nat ->
       JSONArray m s = JSONArray n s) /\
    (forall s, (2 * String.length s + 1 <= n)%nat ->
       JSONObject m s = JSONObject n s).
Proof.
  induction n as [|n IH]; intros m Hm.
  - repeat split; intros s Hs; lia.
  - destruct m as [|m]; [lia|].
    assert (n <= m)%nat as Hnm by lia. specialize (IH m Hnm).
    pose proof (scan_consumes n) as C.
    split; [|split]; intros s Hs.
    + destruct s as [|c t]; [reflexivity|]. cbn [scan_once].
      stable IH C.
    + rewrite !JSONArray_S. stable IH C.
    + rewrite !JSONObject_S. stable IH C.
Qed.

(** The fuel [loads] supplies is never the reason for its outcome. *)
Lemma loads_fuel_enough (s : string) (fuel : nat) :
  (2 * String.length s + 2 <= fuel)%nat ->
  scan_once fuel (skip_ws s)
  = scan_once (2 * String.length s + 2) (skip_ws s).
Proof.
  intros H. apply fuel_stable; [exact H|]. pose proof (skip_ws_length s). lia.
Qed.

(** *** The fuel never runs out

    [Unspecified] comes out of the scanner for want of fuel only, and the
    fuel [loads] supplies is more than the scanner uses. *)

Lemma scanstring_specified (s : string) : scanstring s <> Unspecified.
Proof.
  remember (String.length s) as m eqn:Hm. revert s Hm.
  induction m as [m IH] using lt_wf_ind. intros s Hm H.
  destruct s as [|c t]; [discriminate H|]. simpl in H.
  repeat match type of H with
         | Returns _ = Unspecified => discriminate H
         | Raises _ = Unspecified => discriminate H
         | bind (scanstring ?u) _ = _ =>
             let E := fresh "E" in
             destruct (scanstring u) as [[? ?]| |] eqn:E; cbn [bind] in H;
             [discriminate H
             | discriminate H
             | eapply (IH (String.length u)); [|reflexivity|exact E];
               subst m; simpl; lia]
         | match ?x with _ => _ end = _ => destruct x
         end.
Qed.

Ltac specified IH C H :=
  repeat match type of H with
         | Returns _ = Unspecified => discriminate H
         | Raises _ = Unspecified => discriminate H
         | bind (scanstring ?t) _ = _ =>
             let E := fresh "E" in
             destruct (scanstring t) as [[? ?]| |] eqn:E; cbn [bind] in H;
             [ | discriminate H | exact (scanstring_specified _ E) ]
         | bind (scan_once ?n ?s) _ = _ =>
             let E := fresh "E" in
             destruct (scan_once n s) as [[? ?]| |] eqn:E; cbn [bind] in H;
             [ | discriminate H
               | refine (proj1 IH s _ E); clear E H; measure C ]
         | bind (JSONArray ?n ?s) _ = _ =>
             let E := fresh "E" in
             destruct (JSONArray n s) as [[? ?]| |] eqn:E; cbn [bind] in H;
             [ | discriminate H
               | refine (proj1 (proj2 IH) s _ E); clear E H; measure C ]
         | bind (JSONObject ?n ?s) _ = _ =>
             let E := fresh "E" in
             destruct (JSONObject n s) as [[? ?]| |] eqn:E; cbn [bind] in H;
             [ | discriminate H
               | refine (proj2 (proj2 IH) s _ E); clear E H; measure C ]
         | match ?x with _ => _ end = _ => destruct x eqn:?
         end.

Lemma scan_specified (n : nat) :
  (forall s, (2 * String.length s + 1 <= n)%nat ->
     scan_once n s <> Unspecified) /\
  (forall s, (2 * String.length s + 2 <= n)%nat ->
     JSONArray n s <> Unspecified) /\
  (forall s, (2 * String.length s + 1 <= n)%nat ->
     JSONObject n s <> Unspecified).
Proof.
  induction n as [|n IH].
  - repeat split; intros s Hs; lia.
  - pose proof (scan_consumes n) as C.
    split; [|split]; intros s Hs H.
    + destruct s as [|c t]; [discriminate H|]. cbn [scan_once] in H.
      specified IH C H.
    + rewrite JSONArray_S in H. specified IH C H.
    + rewrite JSONObject_S in H. specified IH C H.
Qed.

(** [loads] is [Unspecified] only for a text that is read to its end as
    JSON and in which a floating-point number or an escaped character above
    127 was passed over. *)
Lemma loads_unspecified (s : string) :
  loads s = Unspecified ->
  exists rest,
    scan_once (2 * String.length s + 2) (skip_ws s) = Returns (None, rest) /\
    skip_ws rest = EmptyString.
Proof.
  unfold loads.
  destruct (scan_once _ _) as [[[obj|] rest]| |] eqn:E; cbn [bind].
  - destruct (skip_ws rest); discriminate.
  - destruct (skip_ws rest) eqn:R; [|discriminate]. intros _. now exists rest.
  - discriminate.
  - intros _. exfalso. refine (proj1 (scan_specified _) _ _ E).
    pose proof (skip_ws_length s). lia.
Qed.

(** *** Lists and dictionaries *)

Local Abbreviation reads_back v :=
  (wf v = true ->
   forall (fuel : nat) (k : string),
     Nat.le (fuel_of v) fuel -> delimited k = true ->
     scan_once fuel (write v k) = Returns (Some v, k)).

Lemma JSONArray_write (t : list json) :
  Forall (fun v => reads_back v) t -> forallb wf t = true ->
  forall x, reads_back x -> wf x = true ->
  forall fuel k,
    (S (fuel_of x + fuel_elems fuel_of t) <= fuel)%nat -> delimited k = true ->
    JSONArray fuel (write x (write_elems write t k))
    = Returns (Some (x :: t), k).
Proof.
  induction 1 as [|y t Hy Ht IH]; intros Hwf x Hx Hwx fuel k Hf Hk;
    (destruct fuel as [|f]; [lia|]); rewrite JSONArray_S.
  - rewrite (Hx Hwx f) by (simpl in *; first [lia | reflexivity]).
    reflexivity.
  - simpl in Hwf. apply andb_true_iff in Hwf. destruct Hwf as [Hwy Hwt].
    rewrite (Hx Hwx f) by (simpl in *; first [lia | reflexivity]).
    cbn [bind write_elems]. cbn [skip_ws]. cbv beta iota.
    change (is_ws ",") with false. cbv iota.
    change (N_of_ascii "," =? 93)%N with false.
    change (N_of_ascii "," =? 44)%N with true. cbv iota.
    rewrite skip_ws_write.
    rewrite (IH Hwt y Hy Hwy f k) by (simpl in *; first [lia | assumption]).
    reflexivity.
Qed.

Lemma JSONObject_write (t : list (string * json)) :
  Forall (fun kv => reads_back (snd kv)) t ->
  forallb (fun kv => wf (snd kv)) t = true ->
  forall key x, reads_back x -> wf x = true ->
  forall fuel k,
    (S (fuel_of x + fuel_members fuel_of t) <= fuel)%nat -> delimited k = true ->
    JSONObject fuel
      (write_escaped key
         (String dquote (String ":" (write x (write_members write t k)))))
    = Returns (Some ((key, x) :: t), k).
Proof.
  induction 1 as [|[key' y] t Hy Ht IH]; intros Hwf key x Hx Hwx fuel k Hf Hk;
    (destruct fuel as [|f]; [lia|]); rewrite JSONObject_S;
    rewrite scanstring_write_escaped; cbn [bind]; cbn [skip_ws]; cbv beta iota;
    change (is_ws ":") with false; cbv iota;
    change (N_of_ascii ":" =? 58)%N with true; cbv iota;
    rewrite skip_ws_write.
  - rewrite (Hx Hwx f) by (simpl in *; first [lia | reflexivity]).
    reflexivity.
  - simpl in Hwf. apply andb_true_iff in Hwf. destruct Hwf as [Hwy Hwt].
    rewrite (Hx Hwx f) by (simpl in *; first [lia | reflexivity]).
    cbn [bind write_members write_quoted]. cbn [skip_ws]. cbv beta iota.
    change (is_ws ",") with false. cbv iota.
    change (N_of_ascii "," =? 125)%N with false.
    change (N_of_ascii "," =? 44)%N with true. cbv iota.
    unfold write_quoted. cbn [skip_ws]. cbv beta iota.
    change (is_ws dquote) with false. cbv iota.
    change (N_of_ascii dquote =? 34)%N with true. cbv iota.
    rewrite (IH Hwt key' y Hy Hwy f k) by (simpl in *; first [lia | assumption]).
    reflexivity.
Qed.

Lemma dict_set_fresh (k : string) (v : json) (d : dict) :
  existsb (String.eqb k) (map fst d) = false ->
  dict_set k v d = (d ++ [(k, v)])%list.
Proof.
  induction d as [|[k' v'] t IH]; simpl; intros H; [reflexivity|].
  apply orb_false_iff in H. destruct H as [Hk Ht].
  rewrite String.eqb_sym, Hk, (IH Ht). reflexivity.
Qed.

Lemma existsb_app_false (k : string) (l1 l2 : list string) :
  existsb (String.eqb k) (l1 ++ l2) = false <->
  existsb (String.eqb k) l1 = false /\ existsb (String.eqb k) l2 = false.
Proof. rewrite existsb_app. apply orb_false_iff. Qed.

Lemma fold_dict_set_distinct (d acc : dict) :
  distinct (map fst acc ++ map fst d) = true ->
  fold_left (fun d kv => dict_set (fst kv) (snd kv) d) d acc
  = (acc ++ d)%list.
Proof.
  revert acc. induction d as [|[k v] t IH]; intros acc H; simpl.
  - now rewrite app_nil_r.
  - assert (existsb (String.eqb k) (map fst acc) = false) as Hk.
    { clear IH. induction acc as [|[k' v'] acc IHa]; [reflexivity|].
      simpl in H. apply andb_true_iff in H. destruct H as [H1 H2].
      simpl. rewrite (IHa H2), orb_false_r.
      apply negb_true_iff in H1. apply existsb_app_false in H1.
      destruct H1 as [_ H1]. simpl in H1. apply orb_false_iff in H1.
      rewrite String.eqb_sym. apply H1. }
    rewrite (dict_set_fresh _ _ _ Hk), IH.
    + now rewrite <- app_assoc.
    + rewrite map_app. simpl. rewrite <- app_assoc. exact H.
Qed.

Lemma dict_of_pairs_distinct (d : dict) :
  distinct (map fst d) = true -> dict_of_pairs d = d.
Proof. intros H. apply (fold_dict_set_distinct d []), H. Qed.

(** *** Reading back a written value *)

Lemma scan_once_write (v : json) : reads_back v.
Proof.
  induction v as [ | b | z | s | l Hl | d Hd ] using json_induction;
    intros Hwf fuel k Hf Hk; (destruct fuel as [|f]; [simpl in Hf; lia|]).
  - reflexivity.
  - destruct b; reflexivity.
  - apply scan_once_int, Hk.
  - apply scan_once_str.
  - destruct l as [|x t]; [reflexivity|].
    simpl in Hwf. apply andb_true_iff in Hwf. destruct Hwf as [Hwx Hwt].
    inversion Hl as [|? ? Hx Ht]; subst.
    cbn [write scan_once]. change (N_of_ascii "[") with 91%N. cbv beta iota zeta.
    change (91 =? 34)%N with false. change (91 =? 123)%N with false.
    change (91 =? 91)%N with true. cbv iota.
    rewrite skip_ws_write.
    destruct (write_head x (write_elems write t k)) as (c & r & E & Hc).
    rewrite E.
    assert ((N_of_ascii c =? 93)%N = false) as ->.
    { clear -Hc. destruct c as [[] [] [] [] [] [] [] []];
        try discriminate; reflexivity. }
    rewrite <- E.
    rewrite (JSONArray_write t Ht Hwt x Hx Hwx f k)
      by (simpl in *; first [lia | assumption]).
    reflexivity.
  - destruct d as [|[key x] t]; [reflexivity|].
    simpl in Hwf. apply andb_true_iff in Hwf. destruct Hwf as [Hdist Hwf].
    apply andb_true_iff in Hwf. destruct Hwf as [Hwx Hwt].
    inversion Hd as [|? ? Hx Ht]; subst.
    cbn [write scan_once]. change (N_of_ascii "{") with 123%N.
    cbv beta iota zeta.
    change (123 =? 34)%N with false. change (123 =? 123)%N with true.
    cbv iota. unfold write_quoted. cbn [skip_ws]. cbv beta iota.
    change (is_ws dquote) with false. cbv iota.
    change (N_of_ascii dquote =? 125)%N with false.
    change (N_of_ascii dquote =? 34)%N with true. cbv iota.
    rewrite (JSONObject_write t Ht Hwt key x Hx Hwx f k)
      by (simpl in *; first [lia | assumption]).
    cbn [bind option_map]. cbv beta iota.
    rewrite dict_of_pairs_distinct by exact Hdist. reflexivity.
Qed.

(** *** The fuel [loads] supplies is enough *)

Lemma length_append_le (s k : string) :
  (String.length k <= String.length (s ++ k))%nat.
Proof. induction s; simpl; lia. Qed.

Lemma length_write_char (c : ascii) (k : string) :
  (String.length k < String.length (write_char c k))%nat.
Proof.
  unfold write_char.
  repeat match goal with
         | |- context [if ?b then _ else _] => destruct b
         end; simpl; lia.
Qed.

Lemma length_write_escaped (s k : string) :
  (String.length k <= String.length (write_escaped s k))%nat.
Proof.
  induction s as [|c t IH]; simpl; [lia|].
  pose proof (length_write_char c (write_escaped t k)). lia.
Qed.

Lemma length_write_quoted (s k : string) :
  (String.length k + 2 <= String.length (write_quoted s k))%nat.
Proof.
  unfold write_quoted. simpl.
  pose proof (length_write_escaped s (String dquote k)) as H. simpl in H. lia.
Qed.

Local Abbreviation fuel_bounded v :=
  (forall k : string,
     Nat.le (2 * String.length k + fuel_of v)
            (2 * String.length (write v k) + 1)).

Lemma fuel_elems_bound (t : list json) :
  Forall (fun v => fuel_bounded v) t ->
  forall k : string,
    (2 * String.length k + 2 + fuel_elems fuel_of t
     <= 2 * String.length (write_elems write t k))%nat.
Proof.
  induction 1 as [|y t Hy Ht IH]; intros k; simpl; [lia|].
  specialize (Hy (write_elems write t k)). specialize (IH k). lia.
Qed.

Lemma fuel_members_bound (t : list (string * json)) :
  Forall (fun kv => fuel_bounded (snd kv)) t ->
  forall k : string,
    (2 * String.length k + 2 + fuel_members fuel_of t
     <= 2 * String.length (write_members write t k))%nat.
Proof.
  induction 1 as [|[key y] t Hy Ht IH]; intros k; simpl; [lia|].
  simpl in Hy. specialize (Hy (write_members write t k)). specialize (IH k).
  pose proof (length_write_quoted key
                (String ":" (write y (write_members write t k)))) as Hq.
  simpl in Hq. lia.
Qed.

Lemma fuel_of_bound (v : json) : fuel_bounded v.
Proof.
  induction v as [ | b | z | s | l Hl | d Hd ] using json_induction; intros k.
  - simpl. lia.
  - destruct b; simpl; lia.
  - pose proof (length_append_le (string_of_Z z) k). cbn [write fuel_of]. lia.
  - pose proof (length_write_quoted s k). cbn [write fuel_of]. lia.
  - destruct l as [|x t]; [simpl; lia|].
    inversion Hl as [|? ? Hx Ht]; subst.
    specialize (Hx (write_elems write t k)).
    pose proof (fuel_elems_bound t Ht k). simpl. lia.
  - destruct d as [|[key x] t]; [simpl; lia|].
    inversion Hd as [|? ? Hx Ht]; subst. simpl in Hx.
    specialize (Hx (write_members write t k)).
    pose proof (fuel_members_bound t Ht k).
    pose proof (length_write_quoted key
                  (String ":" (write x (write_members write t k)))) as Hq.
    simpl in Hq. simpl. lia.
Qed.

(** [json.loads] returns the value whose text [dumps] wrote. *)
Lemma loads_dumps (v : json) : wf v = true -> loads (dumps v) = Returns v.
Proof.
  intros Hwf. unfold loads, dumps. rewrite skip_ws_write.
  rewrite (scan_once_write v Hwf) by
    (first [ pose proof (fuel_of_bound v EmptyString) as H; simpl in H; lia
           | reflexivity ]).
  reflexivity.
Qed.

(** *** Well-formedness is kept

    Assignment and deletion keep the keys of a dictionary distinct, and so
    does the scanner: every value [loads] returns is well formed. *)

Lemma existsb_eqb_dict_set (k k0 : string) (v : json) (d : dict) :
  existsb (String.eqb k0) (map fst (dict_set k v d))
  = existsb (String.eqb k0) (map fst d) || String.eqb k0 k.
Proof.
  induction d as [|[k' v'] t IH]; simpl.
  - now rewrite orb_false_r.
  - destruct (String.eqb_spec k' k); simpl.
    + subst. destruct (String.eqb k0 k); simpl; [reflexivity|].
      now rewrite orb_false_r.
    + rewrite IH. now rewrite orb_assoc.
Qed.

Lemma distinct_dict_set (k : string) (v : json) (d : dict) :
  distinct (map fst d) = true -> distinct (map fst (dict_set k v d)) = true.
Proof.
  induction d as [|[k' v'] t IH]; simpl; [reflexivity|].
  intros H. apply andb_true_iff in H. destruct H as [Hk Ht].
  destruct (String.eqb_spec k' k); simpl.
  - subst. now rewrite Hk, Ht.
  - rewrite existsb_eqb_dict_set, (IH Ht).
    apply negb_true_iff in Hk. rewrite Hk. simpl.
    destruct (String.eqb_spec k' k); [contradiction | reflexivity].
Qed.

Lemma wf_dict_set (k : string) (v : json) (d : dict) :
  wf_dict d = true -> wf v = true -> wf_dict (dict_set k v d) = true.
Proof.
  unfold wf_dict. cbn [wf]. intros H Hv.
  apply andb_true_iff in H. destruct H as [Hd Hall].
  rewrite (distinct_dict_set k v d Hd). simpl.
  clear Hd. induction d as [|[k' v'] t IH]; simpl.
  - now rewrite Hv.
  - simpl in Hall. apply andb_true_iff in Hall. destruct Hall as [H1 H2].
    destruct (String.eqb k' k); simpl.
    + now rewrite Hv, H2.
    + now rewrite H1, (IH H2).
Qed.

Lemma existsb_eqb_dict_del (k k0 : string) (d : dict) :
  existsb (String.eqb k0) (map fst d) = false ->
  existsb (String.eqb k0) (map fst (dict_del k d)) = false.
Proof.
  induction d as [|[k' v'] t IH]; simpl; [reflexivity|].
  intros H. apply orb_false_iff in H. destruct H as [H1 H2].
  destruct (String.eqb k' k); simpl; [exact (IH H2)|].
  now rewrite H1, (IH H2).
Qed.

Lemma wf_dict_del (k : string) (d : dict) :
  wf_dict d = true -> wf_dict (dict_del k d) = true.
Proof.
  unfold wf_dict. cbn [wf]. induction d as [|[k' v'] t IH]; simpl; [reflexivity|].
  intros H. apply andb_true_iff in H. destruct H as [H1 H2].
  apply andb_true_iff in H1. destruct H1 as [Hk Ht].
  apply andb_true_iff in H2. destruct H2 as [Hv Hall].
  assert (distinct (map fst (dict_del k t)) &&
          forallb (fun kv => wf (snd kv)) (dict_del k t) = true) as IH'.
  { apply IH. now rewrite Ht, Hall. }
  destruct (String.eqb k' k); simpl; [exact IH'|].
  apply andb_true_iff in IH'. destruct IH' as [I1 I2].
  apply negb_true_iff in Hk.
  now rewrite (existsb_eqb_dict_del k k' t Hk), I1, Hv, I2.
Qed.

Lemma wf_dict_of_pairs (pairs : list (string * json)) :
  forallb (fun kv => wf (snd kv)) pairs = true ->
  wf_dict (dict_of_pairs pairs) = true.
Proof.
  unfold dict_of_pairs.
  assert (forall acc, wf_dict acc = true ->
          forallb (fun kv => wf (snd kv)) pairs = true ->
          wf_dict (fold_left (fun d kv => dict_set (fst kv) (snd kv) d)
                     pairs acc) = true) as H.
  { induction pairs as [|[k v] t IH]; intros acc Hacc Hall; simpl; [exact Hacc|].
    simpl in Hall. apply andb_true_iff in Hall. destruct Hall as [Hv Ht].
    apply IH; [apply wf_dict_set; assumption | exact Ht]. }
  apply H. reflexivity.
Qed.

Ltac read_back :=
  repeat match goal with
         | H : context [read_cons ?a _] |- _ => is_var a; destruct a
         | H : context [read_cons _ ?b] |- _ => is_var b; destruct b
         | H : context [read_pair ?a _] |- _ => is_var a; destruct a
         | H : context [read_pair _ ?b] |- _ => is_var b; destruct b
         | H : context [option_map _ ?o] |- _ => is_var o; destruct o
         end;
  cbn [read_cons read_pair option_map] in *; try discriminate;
  repeat match goal with
         | H : Some _ = Some _ |- _ => injection H as <-
         end.

Lemma scan_wf (n : nat) :
  (forall s v r, scan_once n s = Returns (Some v, r) -> wf v = true) /\
  (forall s l r, JSONArray n s = Returns (Some l, r) -> forallb wf l = true) /\
  (forall s l r, JSONObject n s = Returns (Some l, r) ->
     forallb (fun kv => wf (snd kv)) l = true).
Proof.
  induction n as [|n IH]; [repeat split; discriminate|].
  destruct IH as (IHv & IHa & IHo).
  split; [|split]; intros s x r H.
  - destruct s as [|c t]; [discriminate H|]. cbn [scan_once] in H.
    repeat step H; try discriminate; read_back; try reflexivity.
    + apply wf_dict_of_pairs. eapply IHo; eassumption.
    + cbn [wf]. eapply IHa; eassumption.
    + unfold match_number in *.
      repeat match goal with
             | H : match ?x with _ => _ end = _ |- _ => destruct x eqn:?
             | H : Some _ = Some _ |- _ => injection H as H
             | H : (_, _) = (_, _) |- _ => injection H as ? ?; subst
             | H : (let '(_, _) := ?p in _) = _ |- _ => destruct p eqn:?
             end; try discriminate; reflexivity.
  - rewrite JSONArray_S in H. repeat step H; read_back; simpl;
      repeat match goal with
             | E : scan_once _ _ = Returns _ |- _ => apply IHv in E; rewrite E
             | E : JSONArray _ _ = Returns _ |- _ => apply IHa in E; rewrite E
             end; reflexivity.
  - rewrite JSONObject_S in H. repeat step H; read_back; simpl;
      repeat match goal with
             | E : scan_once _ _ = Returns _ |- _ => apply IHv in E; rewrite E
             | E : JSONObject _ _ = Returns _ |- _ => apply IHo in E; rewrite E
             end; reflexivity.
Qed.

Lemma loads_wf (s : string) (v : json) : loads s = Returns v -> wf v = true.
Proof.
  unfold loads.
  destruct (scan_once _ _) as [[[obj|] rest]| |] eqn:E; try discriminate;
    simpl; destruct (skip_ws rest); try discriminate.
  intros [= <-]. eapply (proj1 (scan_wf _)), E.
Qed.

(** The scanner raises nothing but [JSONDecodeError]. *)
Lemma scan_raises (n : nat) :
  (forall s e, scan_once n s = Raises e -> e = JSONDecodeError) /\
  (forall s e, JSONArray n s = Raises e -> e = JSONDecodeError) /\
  (forall s e, JSONObject n s = Raises e -> e = JSONDecodeError).
Proof.
  assert (forall s e, scanstring s = Raises e -> e = JSONDecodeError) as Hs.
  { intros s. remember (String.length s) as m eqn:Hm.
    revert s Hm. induction m as [m IH] using lt_wf_ind. intros s Hm e H.
    destruct s as [|c t]; [now injection H|]. simpl in H.
    repeat match type of H with
           | Raises _ = Raises _ => injection H as <-; reflexivity
           | Returns _ = _ => discriminate H
           | bind (scanstring ?u) _ = _ =>
               let E := fresh "E" in
               destruct (scanstring u) as [[? ?]| |] eqn:E; cbn [bind] in H;
               [discriminate H
               | injection H as <-;
                 eapply (IH (String.length u)); [|reflexivity|exact E];
                 subst m; simpl; lia
               | discriminate H]
           | match ?x with _ => _ end = _ => destruct x
           end. }
  induction n as [|n IH]; [repeat split; discriminate|].
  destruct IH as (IHv & IHa & IHo).
  split; [|split]; intros s e H.
  - destruct s as [|c t]; [now injection H|]. cbn [scan_once] in H.
    repeat match type of H with
           | Raises _ = Raises _ => injection H as <-; reflexivity
           | Returns _ = _ => discriminate H
           | bind ?m _ = _ =>
               let E := fresh "E" in
               destruct m as [[? ?]| |] eqn:E; cbn [bind] in H;
               [|injection H as <-; eauto|discriminate H]
           | match ?x with _ => _ end = _ => destruct x
           end.
  - rewrite JSONArray_S in H.
    repeat match type of H with
           | Raises _ = Raises _ => injection H as <-; reflexivity
           | Returns _ = _ => discriminate H
           | bind ?m _ = _ =>
               let E := fresh "E" in
               destruct m as [[? ?]| |] eqn:E; cbn [bind] in H;
               [|injection H as <-; eauto|discriminate H]
           | match ?x with _ => _ end = _ => destruct x
           end.
  - rewrite JSONObject_S in H.
    repeat match type of H with
           | Raises _ = Raises _ => injection H as <-; reflexivity
           | Returns _ = _ => discriminate H
           | bind ?m _ = _ =>
               let E := fresh "E" in
               destruct m as [[? ?]| |] eqn:E; cbn [bind] in H;
               [|injection H as <-; eauto|discriminate H]
           | match ?x with _ => _ end = _ => destruct x
           end.
Qed.

(** [loads] raises nothing but [JSONDecodeError]. *)
Lemma loads_raises (s : string) (e : exn) :
  loads s = Raises e -> e = JSONDecodeError.
Proof.
  unfold loads.
  destruct (scan_once _ _) as [[[obj|] rest]| |] eqn:E; simpl.
  - destruct (skip_ws rest); [discriminate | now intros [= <-]].
  - destruct (skip_ws rest); [discriminate | now intros [= <-]].
  - intros [= <-]. eapply (proj1 (scan_raises _)), E.
  - discriminate.
Qed.

End JsonFacts.

(** ** The error pipeline *)

Module ExceptionFacts.
Import Starlette FastAPI Exception.

(** *** Dictionaries *)

Lemma dict_get_set_other (k k' : string) (v : json) (d : dict) :
  k <> k' -> dict_get k (dict_set k' v d) = dict_get k d.
Proof.
  intros Hne. induction d as [|[k0 v0] t IH]; simpl.
  - destruct (String.eqb_spec k' k); congruence.
  - destruct (String.eqb_spec k0 k'); simpl.
    + subst. destruct (String.eqb_spec k' k); congruence.
    + destruct (String.eqb_spec k0 k); auto.
Qed.

Lemma dict_get_set_same (k : string) (v : json) (d : dict) :
  dict_get k (dict_set k v d) = Some v.
Proof.
  induction d as [|[k0 v0] t IH]; simpl.
  - now rewrite String.eqb_refl.
  - destruct (String.eqb_spec k0 k); simpl.
    + now rewrite String.eqb_refl.
    + destruct (String.eqb_spec k0 k); [contradiction | exact IH].
Qed.

Lemma dict_del_absent (k : string) (d : dict) :
  dict_get k d = None -> dict_del k d = d.
Proof.
  induction d as [|[k0 v0] t IH]; simpl; [reflexivity|].
  destruct (String.eqb k0 k); [discriminate|].
  intros H. now rewrite IH.
Qed.

(** *** The encoder *)

Lemma dict_get_encode_members (k : string) (d : dict) :
  dict_get k (encode_members jsonable_encoder d)
  = if sqlalchemy_key k then None
    else option_map jsonable_encoder (dict_get k d).
Proof.
  induction d as [|[k0 v0] t IH]; simpl.
  - now destruct (sqlalchemy_key k).
  - destruct (sqlalchemy_key k0) eqn:E0.
    + rewrite IH. destruct (String.eqb_spec k0 k) as [->|_]; [|reflexivity].
      now rewrite E0.
    + simpl. destruct (String.eqb_spec k0 k) as [->|_]; [|exact IH].
      now rewrite E0.
Qed.

Lemma map_fst_encode_members (d : dict) :
  map fst (encode_members jsonable_encoder d)
  = filter (fun k => negb (sqlalchemy_key k)) (map fst d).
Proof.
  induction d as [|[k0 v0] t IH]; simpl; [reflexivity|].
  destruct (sqlalchemy_key k0); simpl; now rewrite IH.
Qed.

(** The encoder changes nothing in a value without [_sa] keys. *)
Lemma jsonable_encoder_encoded (v : json) :
  encoded v = true -> jsonable_encoder v = v.
Proof.
  induction v as [ | b | z | s | l Hl | d Hd ] using JsonFacts.json_induction;
    try reflexivity; cbn [encoded jsonable_encoder]; intros H; f_equal.
  - induction Hl as [|x t Hx Ht IH]; [reflexivity|].
    cbn [forallb] in H. apply andb_true_iff in H as [H1 H2].
    cbn [map]. now rewrite (Hx H1), (IH H2).
  - induction Hd as [|[k x] t Hx Ht IH]; [reflexivity|].
    cbn [forallb fst snd] in H. apply andb_true_iff in H as [H1 H2].
    apply andb_true_iff in H1 as [Hk H1]. apply negb_true_iff in Hk.
    cbn [encode_members]. rewrite Hk. cbn [snd] in Hx.
    now rewrite (Hx H1), (IH H2).
Qed.



(** What the encoder returns has no [_sa] key left, at any depth. *)
Lemma encoded_jsonable_encoder (v : json) : encoded (jsonable_encoder v) = true.
Proof.
  induction v as [ | b | z | s | l Hl | d Hd ] using JsonFacts.json_induction;
    try reflexivity; cbn [encoded jsonable_encoder].
  - induction Hl as [|x t Hx Ht IH]; [reflexivity|].
    cbn [map forallb]. now rewrite Hx, IH.
  - induction Hd as [|[k x] t Hx Ht IH]; [reflexivity|].
    cbn [encode_members]. destruct (sqlalchemy_key k) eqn:Hk; [exact IH|].
    cbn [forallb fst snd]. cbn [snd] in Hx. now rewrite Hk, Hx, IH.
Qed.

(** *** [create_error_response], field by field *)

Lemma create_error_response_payload (r : ResponseException) :
  fst (create_error_response r) = snd (inner r).
Proof.
  unfold create_error_response, dict_pop. destruct (inner r). reflexivity.
Qed.

Lemma create_error_response_status (r : ResponseException) :
  JSONResponse.status_code (snd (create_error_response r))
  = status_of (inner_code r).
Proof.
  unfold create_error_response, inner_code, dict_pop.
  destruct (inner r). reflexivity.
Qed.

Ltac body_member :=
  unfold body_get, create_error_response, inner_code, dict_pop;
  destruct (inner _); cbn [snd fst JSONResponse.content jsonable_encoder];
  rewrite dict_get_encode_members;
  change (sqlalchemy_key _) with false; cbv iota;
  repeat match goal with
         | |- context [if ?b then _ else _] => destruct b
         end;
  repeat (rewrite dict_get_set_other by discriminate); reflexivity.

Lemma create_error_response_code (r : ResponseException) :
  body_get "code" (snd (create_error_response r)) = Some (JInt (inner_code r)).
Proof. body_member. Qed.

Lemma create_error_response_msg (r : ResponseException) :
  body_get "msg" (snd (create_error_response r))
  = Some (JStr (msg (snd (inner r)))).
Proof. body_member. Qed.

Lemma create_error_response_details (r : ResponseException) :
  body_get "details" (snd (create_error_response r))
  = Some (jsonable_encoder (JDict (body_details (details r)))).
Proof. unfold body_details. body_member. Qed.

Lemma status_of_400_or_500 (c : Z) : status_of c = 400 \/ status_of c = 500.
Proof. unfold status_of. destruct (_ && _); auto. Qed.

(** Every response the installed handlers return was built by
    [create_error_response]. *)
Lemma exception_handler_builds (cat : catalogue) (request : Request.t)
  (e : raised) (response : JSONResponse.t) :
  snd (exception_handler cat request e) = Returns response ->
  exists resp_exc, response = snd (create_error_response resp_exc).
Proof.
  destruct e as [exc | exc | errors | name]; simpl.
  - unfold http_exception_handler.
    destruct (parse_error_detail _) as [error| |]; simpl; try discriminate.
    intros [= <-]. eexists. reflexivity.
  - unfold custom_http_exception_handler.
    destruct (parse_error_detail _) as [error| |]; simpl; try discriminate.
    intros [= <-]. eexists. reflexivity.
  - unfold validation_exception_handler.
    destruct (create_error_response _) as [error response'] eqn:E. simpl.
    intros [= <-]. eexists. rewrite E. reflexivity.
  - discriminate.
Qed.

(** C1. The status of an error response is read off the code in its body:
    400 when that code is at least 4000 and below 5000, 500 for every other
    code, and never anything else.  This holds of [create_error_response] on
    every payload, and so of every response the installed handlers return. *)
Theorem C1_status_by_band :
  (forall resp_exc : ResponseException,
     let response := snd (create_error_response resp_exc) in
     let code := inner_code resp_exc in
     body_get "code" response = Some (JInt code) /\
     JSONResponse.status_code response
     = (if (4000 <=? code) && (code <? 5000) then 400 else 500) /\
     (JSONResponse.status_code response = 400 \/
      JSONResponse.status_code response = 500)) /\
  (forall cat request e,
     match snd (exception_handler cat request e) with
     | Returns response =>
         exists code,
           body_get "code" response = Some (JInt code) /\
           JSONResponse.status_code response
           = (if (4000 <=? code) && (code <? 5000) then 400 else 500) /\
           (JSONResponse.status_code response = 400 \/
            JSONResponse.status_code response = 500)
     | _ => True
     end).
Proof.
  assert (forall resp_exc : ResponseException,
     body_get "code" (snd (create_error_response resp_exc))
       = Some (JInt (inner_code resp_exc)) /\
     JSONResponse.status_code (snd (create_error_response resp_exc))
     = (if (4000 <=? inner_code resp_exc) && (inner_code resp_exc <? 5000)
        then 400 else 500) /\
     (JSONResponse.status_code (snd (create_error_response resp_exc)) = 400 \/
      JSONResponse.status_code (snd (create_error_response resp_exc)) = 500)) as H.
  { intros r. rewrite create_error_response_code, create_error_response_status.
    split; [reflexivity|]. split; [reflexivity|]. apply status_of_400_or_500. }
  split; [exact H|].
  intros cat request e.
  destruct (snd (exception_handler cat request e)) as [response| |] eqn:E;
    try exact I.
  destruct (exception_handler_builds _ _ _ _ E) as [r ->].
  exists (inner_code r). apply H.
Qed.

(** C8. A payload that is not custom and whose code is 422, a key of
    [HTTP_2_CUSTOM_ERR], is answered with the message and the code of the
    table's entry: the body's [msg] is 'Validation error' and the body's
    [code] is the entry's code.  Such a payload reaches the handler as a
    dictionary detail that says [custom] is false. *)
Theorem C8_fallback_table_remap :
  (forall resp_exc : ResponseException,
     custom resp_exc = false ->
     code resp_exc = 422 ->
     exists custom_error,
       table_get 422 HTTP_2_CUSTOM_ERR = Some custom_error /\
       msg custom_error = "Validation error" /\
       body_get "msg" (snd (create_error_response resp_exc))
         = Some (JStr (msg custom_error)) /\
       body_get "code" (snd (create_error_response resp_exc))
         = Some (JInt (code custom_error))) /\
  (forall (request : Request.t) (status : Z) (m : string),
     exists response custom_error,
       http_exception_handler request
         (HTTPException.mk status
            (DetailDict [ ("msg", JStr m); ("code", JInt 422);
                          ("custom", JBool false) ]))
       = Returns response /\
       table_get 422 HTTP_2_CUSTOM_ERR = Some custom_error /\
       body_get "msg" response = Some (JStr (msg custom_error)) /\
       body_get "code" response = Some (JInt (code custom_error))).
Proof.
  split.
  - intros resp_exc Hcustom Hcode.
    eexists. split; [reflexivity|]. split; [reflexivity|].
    rewrite create_error_response_msg, create_error_response_code.
    unfold inner_code, inner. rewrite Hcustom, Hcode. split; reflexivity.
  - intros request status m. eexists _, _. repeat split.
Qed.

Lemma C8_fallback_table_remap_witness :
  let resp_exc :=
    mkResponseException "ModuleException" "Unprocessable Entity" 422 []
      false false false in
  exists custom_error,
    table_get 422 HTTP_2_CUSTOM_ERR = Some custom_error /\
    msg custom_error = "Validation error" /\
    body_get "msg" (snd (create_error_response resp_exc))
      = Some (JStr (msg custom_error)) /\
    body_get "code" (snd (create_error_response resp_exc))
      = Some (JInt (code custom_error)).
Proof.
  intros resp_exc.
  apply (proj1 C8_fallback_table_remap resp_exc); reflexivity.
Defined.

(** *** Parsing the detail of an exception *)

(** The payload [parse_error_detail] rebuilds from a dump: [custom] is not
    in the dump and takes its default. *)
Lemma parse_error_detail_dump (r : ResponseException) :
  wf_dict (details r) = true ->
  parse_error_detail (DetailStr (model_dump_json r))
  = Returns (mkResponseException (prefix r) (msg r) (code r) (details r)
               (redirect r) (notification r) true).
Proof.
  intros Hwf. unfold parse_error_detail, model_dump_json.
  rewrite JsonFacts.loads_dumps.
  - reflexivity.
  - unfold wf_dict in Hwf. simpl in Hwf |- *. now rewrite Hwf.
Qed.

Lemma parse_error_detail_not_json (s : string) :
  loads s = Raises JSONDecodeError ->
  parse_error_detail (DetailStr s)
  = Returns (mkResponseException "ModuleException" s 5000 [] false false false).
Proof. intros H. unfold parse_error_detail. rewrite H. reflexivity. Qed.

Lemma EXC_payload_fields (cat : catalogue) (exc : ErrorCode)
  (details : option dict) (redirect notification : bool) :
  let payload := EXC_payload cat exc details redirect notification in
  msg payload = msg (cat exc) /\ code payload = code (cat exc) /\
  Exception.details payload = or_empty details.
Proof.
  unfold EXC_payload, EXC_update. destruct redirect, notification; simpl; auto.
Qed.

(** JSON text for anything but an object: the unpacking raises. *)
Lemma parse_error_detail_not_object (s : string) (v : json) :
  loads s = Returns v ->
  (forall d, v <> JDict d) ->
  parse_error_detail (DetailStr s) = Raises TypeError.
Proof.
  intros H Hv. unfold parse_error_detail. rewrite H. simpl.
  destruct v; try reflexivity. destruct (Hv d eq_refl).
Qed.

(** A dictionary without [msg]: validation raises. *)
Lemma parse_error_detail_missing_msg (d : dict) :
  dict_get "prefix" d = None ->
  dict_get "msg" d = None ->
  parse_error_detail (DetailDict d) = Raises Py.ValidationError.
Proof.
  intros Hp Hm. unfold parse_error_detail. simpl. unfold field.
  rewrite Hp, Hm. reflexivity.
Qed.

(** C2. The normaliser is not total.  A detail string that is JSON text
    for anything but an object is decoded and then unpacked as keyword
    arguments, which raises [TypeError]; a dictionary detail without [msg]
    fails validation.  Neither is caught, so the handler raises instead of
    answering with the 5999 payload. *)
Theorem C2_normalizer_raises :
  loads "404" = Returns (JInt 404) /\
  parse_error_detail (DetailStr "404") = Raises TypeError /\
  http_exception_handler (Request.mk "/items/404" [])
    (HTTPException.mk 404 (DetailStr "404")) = Raises TypeError /\
  custom_http_exception_handler (Request.mk "/items/404" [])
    (HTTPException.mk 404 (DetailStr "404")) = Raises TypeError /\
  http_exception_handler (Request.mk "/items/404" [])
    (HTTPException.mk 404 (DetailDict [("error", JStr "no such item")]))
  = Raises Py.ValidationError.
Proof. repeat split; vm_compute; reflexivity. Qed.

(** C3, as the code has it.  A detail string that is not JSON is answered
    with status 500 and code 5999, and the string itself is the [msg] of
    the body: the body is exactly msg, code 5999 and the endpoint. *)
Theorem C3_non_json_detail (request : Request.t) (status : Z) (s : string) :
  loads s = Raises JSONDecodeError ->
  let response :=
    JSONResponse.mk 500
      (JDict [ ("msg", JStr s); ("code", JInt 5999);
               ("details",
                JDict [("endpoint", JStr (Request.url_path request))]) ]) in
  http_exception_handler request (HTTPException.mk status (DetailStr s))
  = Returns response /\
  custom_http_exception_handler request (HTTPException.mk status (DetailStr s))
  = Returns response.
Proof.
  intros H response.
  unfold http_exception_handler, custom_http_exception_handler.
  cbn [HTTPException.detail]. rewrite (parse_error_detail_not_json s H).
  split; reflexivity.
Qed.

(** A text that starts like a number is no more JSON than any other: the
    number is read and the rest of the text is refused. *)
Example number_then_text_is_not_json :
  loads "2.5 MB limit exceeded" = Raises JSONDecodeError /\
  loads "127.0.0.1 refused" = Raises JSONDecodeError /\
  http_exception_handler (Request.mk "/upload" [])
    (HTTPException.mk 413 (DetailStr "2.5 MB limit exceeded"))
  = Returns
      (JSONResponse.mk 500
         (JDict [ ("msg", JStr "2.5 MB limit exceeded"); ("code", JInt 5999);
                  ("details", JDict [("endpoint", JStr "/upload")]) ])).
Proof. repeat split; vm_compute; reflexivity. Qed.

Lemma C3_non_json_detail_witness :
  loads "Not Found" = Raises JSONDecodeError /\
  custom_http_exception_handler (Request.mk "/missing" [])
    (HTTPException.mk 404 (DetailStr "Not Found"))
  = Returns
      (JSONResponse.mk 500
         (JDict [ ("msg", JStr "Not Found"); ("code", JInt 5999);
                  ("details", JDict [("endpoint", JStr "/missing")]) ])).
Proof.
  split; [vm_compute; reflexivity|].
  apply (C3_non_json_detail (Request.mk "/missing" []) 404 "Not Found").
  vm_compute. reflexivity.
Defined.

(** C3, as stated, fails: the 404 that Starlette raises for an unknown
    route carries the detail 'Not Found', and that text is the [msg] of the
    body sent to the client. *)
Lemma C3_message_reaches_client :
  ~ (forall response,
       custom_http_exception_handler (Request.mk "/missing" [])
         (HTTPException.mk 404 (DetailStr "Not Found")) = Returns response ->
       JSONResponse.status_code response = 500 /\
       body_get "code" response = Some (JInt 5999) /\
       body_get "msg" response <> Some (JStr "Not Found")).
Proof.
  intros H.
  destruct (H _ eq_refl) as (_ & _ & Hmsg). apply Hmsg. reflexivity.
Qed.

(** *** Exceptions raised through [EXC] *)

(** What the handler answers to an [EXC]: the response built from the
    payload with [custom] set and the endpoint attached. *)
Lemma http_exception_handler_EXC (cat : catalogue) (exc : ErrorCode)
  (details : option dict) (redirect notification : bool) (request : Request.t) :
  wf_dict (or_empty details) = true ->
  let payload := EXC_payload cat exc details redirect notification in
  http_exception_handler request (EXC cat exc details redirect notification)
  = Returns
      (snd (create_error_response
              (mkResponseException (prefix payload) (msg payload)
                 (code payload)
                 (dict_set "endpoint" (JStr (Request.url_path request))
                    (Exception.details payload))
                 (Exception.redirect payload)
                 (Exception.notification payload) true))).
Proof.
  intros Hwf payload. unfold http_exception_handler, EXC.
  cbn [HTTPException.detail].
  rewrite parse_error_detail_dump; [reflexivity|].
  pose proof (EXC_payload_fields cat exc details redirect notification) as H.
  cbv zeta in H. destruct H as (_ & _ & E). rewrite E. exact Hwf.
Qed.

Lemma body_details_unchanged (d : dict) :
  dict_get "redirect" d = None ->
  dict_get "notification" d = None ->
  dict_get "reason" d <> Some JNull ->
  body_details d = d.
Proof.
  intros Hr Hn Hreason. unfold body_details.
  rewrite (dict_del_absent _ _ Hr), (dict_del_absent _ _ Hn).
  destruct (dict_get "reason" d) as [[]|] eqn:E; simpl; try reflexivity.
  - contradiction.
  - apply dict_del_absent, E.
Qed.

Lemma encoded_dict_set (k : string) (v : json) (d : dict) :
  encoded (JDict d) = true -> sqlalchemy_key k = false -> encoded v = true ->
  encoded (JDict (dict_set k v d)) = true.
Proof.
  cbn [encoded]. intros Hd Hk Hv.
  induction d as [|[k0 v0] t IH]; cbn [dict_set forallb fst snd].
  - now rewrite Hk, Hv.
  - cbn [forallb fst snd] in Hd. apply andb_true_iff in Hd as [H0 Ht].
    destruct (String.eqb k0 k); cbn [forallb fst snd].
    + now rewrite Hk, Hv, Ht.
    + now rewrite H0, (IH Ht).
Qed.

(** C5, as the code has it.  An exception raised through [EXC] is answered
    with the [msg] and the [code] of its payload.  The [details] of the body
    are the payload's with [endpoint] set to the request path, then without
    the keys [redirect] and [notification] and without a [reason] that is
    [None], and then as [jsonable_encoder] leaves them: without the keys
    that start with [_sa], at every depth.  When the payload's details have
    none of these, they are the payload's details with [endpoint] added.
    The details are those of a Python dictionary: keys distinct at every
    level ([wf_dict]). *)
Theorem C5_custom_pass_through (cat : catalogue) (exc : ErrorCode)
  (details : option dict) (redirect notification : bool) (request : Request.t) :
  wf_dict (or_empty details) = true ->
  let payload := EXC_payload cat exc details redirect notification in
  let with_endpoint :=
    dict_set "endpoint" (JStr (Request.url_path request))
      (Exception.details payload) in
  exists response,
    http_exception_handler request (EXC cat exc details redirect notification)
    = Returns response /\
    body_get "msg" response = Some (JStr (msg payload)) /\
    body_get "code" response = Some (JInt (code payload)) /\
    body_get "details" response
    = Some (jsonable_encoder (JDict (body_details with_endpoint))) /\
    (dict_get "redirect" (Exception.details payload) = None ->
     dict_get "notification" (Exception.details payload) = None ->
     dict_get "reason" (Exception.details payload) <> Some JNull ->
     encoded (JDict (Exception.details payload)) = true ->
     body_get "details" response = Some (JDict with_endpoint)).
Proof.
  intros Hwf payload with_endpoint. eexists. split.
  - apply http_exception_handler_EXC, Hwf.
  - fold payload. fold with_endpoint.
    rewrite create_error_response_msg, create_error_response_code,
      create_error_response_details.
    cbn [Exception.details].
    split; [reflexivity|]. split; [reflexivity|]. split; [reflexivity|].
    intros Hr Hn Hreason Henc.
    assert (forall k, k <> "endpoint" ->
            dict_get k with_endpoint
            = dict_get k (Exception.details payload)) as Hget.
    { intros k Hk. apply dict_get_set_other, Hk. }
    rewrite body_details_unchanged;
      [| rewrite Hget by discriminate; assumption ..].
    rewrite jsonable_encoder_encoded; [reflexivity|].
    apply encoded_dict_set; [exact Henc | reflexivity | reflexivity].
Qed.

Lemma C5_custom_pass_through_witness :
  let request := Request.mk "/users/42" [] in
  exists response,
    http_exception_handler request
      (EXC value NotFoundError (Some [("user", JInt 42)]) false false)
    = Returns response /\
    body_get "msg" response = Some (JStr "Not Found") /\
    body_get "code" response = Some (JInt 4504) /\
    body_get "details" response
    = Some (JDict [("user", JInt 42); ("endpoint", JStr "/users/42")]).
Proof.
  intros request.
  destruct (C5_custom_pass_through value NotFoundError
              (Some [("user", JInt 42)]) false false request eq_refl)
    as (response & H & Hmsg & Hcode & _ & Hdetails).
  exists response. repeat split; try assumption.
  apply Hdetails; [reflexivity | reflexivity | discriminate | reflexivity].
Defined.

(** C5, as stated, fails: details that carry the key [redirect] do not
    come back with [endpoint] added, the key is gone from them. *)
Lemma C5_redirect_key_leaves_details :
  ~ (forall response,
       http_exception_handler (Request.mk "/users/42" [])
         (EXC value NotFoundError (Some [("redirect", JStr "/login")])
            false false)
       = Returns response ->
       body_get "details" response
       = Some (JDict [ ("redirect", JStr "/login");
                       ("endpoint", JStr "/users/42") ])).
Proof.
  intros H. specialize (H _ eq_refl). vm_compute in H. discriminate H.
Qed.

(** C10. [EXC] always builds its [HTTPException] with status code 400,
    whatever the descriptor; the status the client sees is computed later by
    the handler from the code of the payload, so that [InternalError] is
    raised with 400 and answered with 500. *)
Theorem C10_EXC_status_400 (cat : catalogue) (exc : ErrorCode)
  (details : option dict) (redirect notification : bool) (request : Request.t) :
  HTTPException.status_code (EXC cat exc details redirect notification) = 400 /\
  (wf_dict (or_empty details) = true ->
   exists response,
     http_exception_handler request (EXC cat exc details redirect notification)
     = Returns response /\
     JSONResponse.status_code response = status_of (code (cat exc))) /\
  code (value InternalError) = 5000 /\
  status_of (code (value InternalError)) = 500.
Proof.
  split; [reflexivity|]. split; [|split; reflexivity].
  intros Hwf. eexists. split.
  - apply http_exception_handler_EXC, Hwf.
  - rewrite create_error_response_status. unfold inner_code, inner.
    cbn [custom code fst].
    pose proof (EXC_payload_fields cat exc details redirect notification) as H.
    cbv zeta in H. destruct H as (_ & E & _). rewrite E. reflexivity.
Qed.

Lemma C10_EXC_status_400_witness :
  HTTPException.status_code (EXC value InternalError None false false) = 400 /\
  exists response,
    http_exception_handler (Request.mk "/jobs" [])
      (EXC value InternalError None false false) = Returns response /\
    JSONResponse.status_code response = 500.
Proof.
  destruct (C10_EXC_status_400 value InternalError None false false
              (Request.mk "/jobs" [])) as (H400 & Hlater & _).
  split; [exact H400|]. apply Hlater. reflexivity.
Defined.

(** *** The catalogue across requests *)

Lemma same_but_details_fields (a b : ResponseException) :
  same_but_details a b ->
  msg a = msg b /\ code a = code b /\ custom a = custom b /\
  redirect a = redirect b /\ notification a = notification b.
Proof.
  unfold same_but_details, set_details. intros H. injection H. intros.
  repeat split; assumption.
Qed.

Lemma catalogue_set_other (cat : catalogue) (e : ErrorCode)
  (r : ResponseException) :
  e <> ValidationError -> catalogue_set cat ValidationError r e = cat e.
Proof. unfold catalogue_set. destruct e; try reflexivity. congruence. Qed.

(** One handled exception leaves every descriptor as it was, except for the
    [details] of [ValidationError]. *)
Lemma exception_handler_stable (cat : catalogue) (request : Request.t)
  (e : raised) :
  custom (cat ValidationError) = true ->
  forall member,
    same_but_details (fst (exception_handler cat request e) member)
      (cat member) /\
    (member <> ValidationError ->
     fst (exception_handler cat request e) member = cat member).
Proof.
  intros Hcustom member.
  destruct e as [exc | exc | errors | name]; simpl;
    try (split; reflexivity).
  unfold validation_exception_handler.
  pose proof (create_error_response_payload
                (set_details (cat ValidationError)
                   [ ("endpoint", JStr (Request.url_path request));
                     ("errors", JList errors) ])) as Hp.
  destruct (create_error_response _) as [error response]. simpl in Hp.
  unfold inner in Hp. cbn [custom set_details] in Hp. rewrite Hcustom in Hp.
  simpl in Hp. subst error. simpl. split.
  - unfold catalogue_set. destruct (ErrorCode_beq member ValidationError) eqn:E.
    + destruct member; try discriminate E. reflexivity.
    + reflexivity.
  - intros Hne. now rewrite !catalogue_set_other.
Qed.

Lemma catalogue_after_stable (history : list (Request.t * raised)) :
  forall cat,
    custom (cat ValidationError) = true ->
    forall member,
      same_but_details (catalogue_after cat history member) (cat member) /\
      (member <> ValidationError ->
       catalogue_after cat history member = cat member).
Proof.
  induction history as [|[request e] rest IH]; intros cat Hcustom member.
  - split; reflexivity.
  - simpl.
    destruct (exception_handler_stable cat request e Hcustom ValidationError)
      as [Hve _].
    apply same_but_details_fields in Hve. destruct Hve as (_ & _ & Hc & _).
    rewrite Hcustom in Hc.
    destruct (IH (fst (exception_handler cat request e)) Hc member)
      as [Hsame Heq].
    destruct (exception_handler_stable cat request e Hcustom member)
      as [Hsame' Heq'].
    split.
    + unfold same_but_details in *. congruence.
    + intros Hne. rewrite (Heq Hne). apply Heq', Hne.
Qed.



(** C9. The validation handler assigns to the [details] of the catalogue's
    own [ValidationError] object: after one validation failure the shared
    descriptor carries that request's endpoint and errors, where [EXC] works
    on a copy. *)
Theorem C9_validation_handler_mutates_descriptor :
  let request := Request.mk "/items" [] in
  let errors :=
    [ JDict [ ("type", JStr "missing");
              ("loc", JList [JStr "body"; JStr "name"]);
              ("msg", JStr "Field required") ] ] in
  let cat :=
    fst (exception_handler value request (Raised_RequestValidationError errors)) in
  details (value ValidationError) = [] /\
  details (cat ValidationError)
  = [ ("endpoint", JStr "/items"); ("errors", JList errors) ] /\
  (forall exc details redirect notification,
     fst (exception_handler value request
            (Raised_HTTPException (EXC value exc details redirect notification)))
         ValidationError
     = value ValidationError).
Proof. repeat split. Qed.

End ExceptionFacts.

(** ** The request middleware *)

Module LoggerFacts.
Import Starlette Logger.

Lemma find_header_set_same (k v : string) (l : raw_headers) :
  find_header k (set_header k v l) = Some v.
Proof.
  induction l as [|[k0 v0] t IH]; simpl.
  - now rewrite String.eqb_refl.
  - destruct (String.eqb_spec k0 k); simpl.
    + now rewrite String.eqb_refl.
    + destruct (String.eqb_spec k0 k); [contradiction | exact IH].
Qed.

Lemma find_header_drop_other (k k' : string) (l : raw_headers) :
  k <> k' -> find_header k (drop_header k' l) = find_header k l.
Proof.
  intros Hne. induction l as [|[k0 v0] t IH]; simpl; [reflexivity|].
  destruct (String.eqb_spec k0 k'); simpl.
  - subst. destruct (String.eqb_spec k' k); [congruence | exact IH].
  - now rewrite IH.
Qed.

Lemma find_header_set_other (k k' v : string) (l : raw_headers) :
  k <> k' -> find_header k (set_header k' v l) = find_header k l.
Proof.
  intros Hne. induction l as [|[k0 v0] t IH]; simpl.
  - destruct (String.eqb_spec k' k); congruence.
  - destruct (String.eqb_spec k0 k'); simpl.
    + subst. destruct (String.eqb_spec k' k); [congruence|].
      now apply find_header_drop_other.
    + now rewrite IH.
Qed.

(** The world [call_next] runs in: two identifiers drawn, both context
    variables bound. *)
Lemma dispatch_binds_context (request : Request.t) (call_next : downstream)
  (w : world) :
  let request_id := uuid_source w (uuid_drawn w) in
  let trace_id :=
    headers_get "X-Trace-ID" (uuid_source w (S (uuid_drawn w)))
      (Request.headers request) in
  exists established,
    REQUEST_ID_get established = request_id /\
    TRACE_ID_get established = trace_id /\
    uuid_drawn established = S (S (uuid_drawn w)) /\
    fst (dispatch request call_next w)
    = fst (call_next request established).
Proof.
  intros request_id trace_id.
  exists (mkWorld (uuid_source w) (S (S (uuid_drawn w)))
            (Some trace_id) (Some request_id)).
  repeat split. unfold dispatch, uuid4, REQUEST_ID_set, TRACE_ID_set.
  cbn -[headers_get]. fold trace_id. fold request_id.
  destruct (call_next request _). reflexivity.
Qed.

(** C7, as the code has it.  [dispatch] draws a fresh request id, takes the
    trace id from the inbound [X-Trace-ID] header or, without one, draws a
    fresh one, and binds both to the context before calling on.  When the
    call returns a response, that response goes out with [X-Request-ID] and
    [X-Trace-ID] set to these values and is otherwise unchanged; when the call
    raises, [dispatch] raises the same exception and no header is set. *)
Theorem C7_headers_on_returned_response (request : Request.t)
  (call_next : downstream) (w w' : world) (called : outcome Response.t) :
  let request_id := uuid_source w (uuid_drawn w) in
  let fresh := uuid_source w (S (uuid_drawn w)) in
  let trace_id :=
    match find_header "x-trace-id" (Request.headers request) with
    | Some inbound => inbound
    | None => fresh
    end in
  let established :=
    mkWorld (uuid_source w) (S (S (uuid_drawn w)))
      (Some trace_id) (Some request_id) in
  call_next request established = (w', called) ->
  match called with
  | Returns response =>
      exists response',
        dispatch request call_next w = (w', Returns response') /\
        find_header "x-request-id" (Response.headers response')
        = Some request_id /\
        find_header "x-trace-id" (Response.headers response') = Some trace_id /\
        Response.status_code response' = Response.status_code response /\
        Response.body response' = Response.body response
  | Raises e => dispatch request call_next w = (w', Raises e)
  | Unspecified => dispatch request call_next w = (w', Unspecified)
  end.
Proof.
  intros request_id fresh trace_id established Hcall.
  assert (dispatch request call_next w
          = (w', response <- called ;;
                 Returns
                   (Response.mk (Response.status_code response)
                      (Response.body response)
                      (headers_set "X-Trace-ID" trace_id
                         (headers_set "X-Request-ID" request_id
                            (Response.headers response)))))) as Hd.
  { unfold dispatch, uuid4, REQUEST_ID_set, TRACE_ID_set. cbn -[headers_set].
    change (headers_get "X-Trace-ID" (uuid_source w (S (uuid_drawn w)))
              (Request.headers request)) with trace_id.
    change (uuid_source w (uuid_drawn w)) with request_id.
    change (mkWorld (uuid_source w) (S (S (uuid_drawn w))) (Some trace_id)
              (Some request_id)) with established.
    rewrite Hcall. reflexivity. }
  rewrite Hd. destruct called as [response| e |]; try reflexivity.
  eexists. split; [reflexivity|]. cbn [Response.headers Response.status_code
                                        Response.body bind].
  unfold headers_set. cbn [lower lower_char].
  change (lower "X-Trace-ID") with "x-trace-id".
  change (lower "X-Request-ID") with "x-request-id".
  rewrite find_header_set_other by discriminate.
  rewrite !find_header_set_same. repeat split.
Qed.

Lemma C7_headers_on_returned_response_witness :
  let w :=
    mkWorld (fun n => if Nat.eqb n 0 then "request-1" else "trace-1")
      0 None None in
  let request := Request.mk "/jobs" [("x-trace-id", "inbound-7")] in
  let call_next : downstream :=
    fun _ w => (w, Returns (Response.mk 200 "done" [("content-length", "4")])) in
  exists response',
    snd (dispatch request call_next w) = Returns response' /\
    find_header "x-request-id" (Response.headers response') = Some "request-1" /\
    find_header "x-trace-id" (Response.headers response') = Some "inbound-7".
Proof.
  intros w request call_next.
  destruct (C7_headers_on_returned_response request call_next w _ _ eq_refl)
    as (response' & Hd & Hr & Ht & _).
  exists response'. rewrite Hd. repeat split; assumption.
Defined.

(** C7, as stated, fails: when an exception leaves [call_next], no response
    comes back from [dispatch], with or without headers. *)
Lemma C7_no_response_when_call_next_raises :
  let w := mkWorld (fun _ => "fresh") 0 None None in
  let request := Request.mk "/jobs" [("x-trace-id", "inbound-7")] in
  let call_next : downstream := fun _ w => (w, Raises (Uncaught "KeyError")) in
  ~ (exists response,
       snd (dispatch request call_next w) = Returns response /\
       find_header "x-request-id" (Response.headers response) = Some "fresh" /\
       find_header "x-trace-id" (Response.headers response) = Some "inbound-7").
Proof. intros w request call_next (response & H & _). discriminate H. Qed.

End LoggerFacts.

(** ** More of the error pipeline *)

Module ExceptionMore.
Import Starlette FastAPI Exception ExceptionFacts.

Lemma dict_get_del_same (k : string) (d : dict) :
  dict_get k (dict_del k d) = None.
Proof.
  induction d as [|[k0 v0] t IH]; simpl; [reflexivity|].
  destruct (String.eqb k0 k) eqn:E; simpl; [exact IH|]. now rewrite E.
Qed.

Lemma dict_get_del_other (k k' : string) (d : dict) :
  k <> k' -> dict_get k (dict_del k' d) = dict_get k d.
Proof.
  intros Hne. induction d as [|[k0 v0] t IH]; simpl; [reflexivity|].
  destruct (String.eqb_spec k0 k'); simpl.
  - subst. destruct (String.eqb_spec k' k); [congruence | exact IH].
  - now rewrite IH.
Qed.

Lemma body_details_get (k : string) (d : dict) :
  k <> "redirect" -> k <> "notification" -> k <> "reason" ->
  dict_get k (body_details d) = dict_get k d.
Proof.
  intros H1 H2 H3. unfold body_details.
  destruct (is_None _); repeat (rewrite dict_get_del_other by assumption);
    reflexivity.
Qed.

Lemma body_details_facts (d : dict) :
  dict_get "redirect" (body_details d) = None /\
  dict_get "notification" (body_details d) = None /\
  dict_get "reason" (body_details d) <> Some JNull /\
  (forall v, dict_get "reason" d = Some v -> v <> JNull ->
             dict_get "reason" (body_details d) = Some v).
Proof.
  assert (dict_get "reason" (dict_del "notification" (dict_del "redirect" d))
          = dict_get "reason" d) as Hreason.
  { now rewrite !dict_get_del_other by discriminate. }
  unfold body_details. rewrite Hreason.
  destruct (dict_get "reason" d) as [v|] eqn:E.
  - destruct v; cbn [is_None];
      repeat split;
      try (rewrite ?dict_get_del_same, ?dict_get_del_other by discriminate;
           rewrite ?dict_get_del_same; reflexivity);
      try (rewrite Hreason; discriminate);
      try (rewrite dict_get_del_same; discriminate);
      try (intros v' [= <-] Hv; try (now destruct Hv);
           rewrite Hreason; reflexivity).
  - cbn [is_None]. repeat split;
      try (rewrite ?dict_get_del_same, ?dict_get_del_other by discriminate;
           rewrite ?dict_get_del_same; reflexivity);
      try (rewrite dict_get_del_same; discriminate);
      try discriminate.
Qed.

Lemma jsonable_encoder_None (v : json) :
  jsonable_encoder v = JNull -> v = JNull.
Proof. destruct v; try discriminate; reflexivity. Qed.

(** X1. The [details] of an error body never carry the keys [redirect] or
    [notification], never a [reason] that is [None], and no key that starts
    with [_sa], at any depth.  A [reason] with a value and every other key
    of the payload's details are there with the value [jsonable_encoder]
    gives, which is the payload's value itself when that holds no key
    starting with [_sa]. *)
Theorem body_details_invariant (resp_exc : ResponseException) :
  exists d,
    body_get "details" (snd (create_error_response resp_exc)) = Some (JDict d) /\
    dict_get "redirect" d = None /\
    dict_get "notification" d = None /\
    dict_get "reason" d <> Some JNull /\
    encoded (JDict d) = true /\
    (forall k, sqlalchemy_key k = true -> dict_get k d = None) /\
    (forall v, dict_get "reason" (details resp_exc) = Some v -> v <> JNull ->
               dict_get "reason" d = Some (jsonable_encoder v)) /\
    (forall k, k <> "redirect" -> k <> "notification" -> k <> "reason" ->
               sqlalchemy_key k = false ->
               dict_get k d
               = option_map jsonable_encoder (dict_get k (details resp_exc))) /\
    (forall k v, k <> "redirect" -> k <> "notification" ->
                 sqlalchemy_key k = false ->
                 dict_get k (details resp_exc) = Some v -> v <> JNull ->
                 encoded v = true ->
                 dict_get k d = Some v).
Proof.
  exists (encode_members jsonable_encoder (body_details (details resp_exc))).
  split; [apply create_error_response_details|].
  destruct (body_details_facts (details resp_exc)) as (Hr & Hn & Hnone & Hsome).
  assert (forall k v, k <> "redirect" -> k <> "notification" ->
                      dict_get k (details resp_exc) = Some v -> v <> JNull ->
                      dict_get k (body_details (details resp_exc)) = Some v)
    as Hkeep.
  { intros k v H1 H2 Hk Hv. destruct (String.eqb_spec k "reason") as [->|H3].
    - now apply Hsome.
    - now rewrite body_details_get. }
  rewrite !dict_get_encode_members.
  change (sqlalchemy_key "redirect") with false.
  change (sqlalchemy_key "notification") with false.
  change (sqlalchemy_key "reason") with false.
  cbv iota. rewrite Hr, Hn. repeat split.
  - destruct (dict_get "reason" (body_details (details resp_exc))) as [v|];
      [|discriminate].
    cbn [option_map]. intros [= H]. apply jsonable_encoder_None in H.
    subst v. now apply Hnone.
  - apply (encoded_jsonable_encoder
             (JDict (body_details (details resp_exc)))).
  - intros k Hk. now rewrite dict_get_encode_members, Hk.
  - intros v Hv Hne. now rewrite (Hsome v Hv Hne).
  - intros k H1 H2 H3 Hk.
    now rewrite dict_get_encode_members, Hk, body_details_get.
  - intros k v H1 H2 Hk Hv Hne Henc.
    rewrite dict_get_encode_members, Hk, (Hkeep k v H1 H2 Hv Hne).
    cbn [option_map]. now rewrite (jsonable_encoder_encoded v Henc).
Qed.

Lemma create_error_response_redirect (r : ResponseException) :
  body_get "redirect" (snd (create_error_response r))
  = match dict_get "redirect" (details r) with
    | Some v => if truthy v then Some (jsonable_encoder v) else None
    | None => if redirect r then Some (JBool true) else None
    end.
Proof.
  unfold body_get, create_error_response, dict_pop.
  destruct (inner r) as [c r'].
  cbn [snd JSONResponse.content jsonable_encoder].
  rewrite dict_get_encode_members. change (sqlalchemy_key _) with false.
  cbv iota.
  destruct (dict_get "redirect" (details r)) as [v|].
  - destruct (truthy v) eqn:Hv;
      match goal with
      | |- context [if truthy ?n then _ else _] => destruct (truthy n)
      end;
      rewrite ?dict_get_set_other by discriminate;
      rewrite ?dict_get_set_same; reflexivity.
  - cbn [truthy]. destruct (redirect r);
      match goal with
      | |- context [if truthy ?n then _ else _] => destruct (truthy n)
      end;
      rewrite ?dict_get_set_other by discriminate;
      rewrite ?dict_get_set_same; reflexivity.
Qed.

Lemma create_error_response_notification (r : ResponseException) :
  body_get "notification" (snd (create_error_response r))
  = match dict_get "notification" (details r) with
    | Some v => if truthy v then Some (jsonable_encoder v) else None
    | None => if notification r then Some (JBool true) else None
    end.
Proof.
  unfold body_get, create_error_response, dict_pop.
  destruct (inner r) as [c r'].
  cbn [snd JSONResponse.content jsonable_encoder].
  rewrite dict_get_encode_members. change (sqlalchemy_key _) with false.
  cbv iota.
  rewrite dict_get_del_other by discriminate.
  destruct (dict_get "notification" (details r)) as [v|].
  - destruct (truthy v) eqn:Hv;
      match goal with
      | |- context [if truthy ?n then _ else _] => destruct (truthy n)
      end; rewrite ?dict_get_set_same; reflexivity.
  - cbn [truthy]. destruct (notification r);
      match goal with
      | |- context [if truthy ?n then _ else _] => destruct (truthy n)
      end; rewrite ?dict_get_set_same; reflexivity.
Qed.

(** X2. The body of an error response is an object whose keys are [msg],
    [code], [details], then [redirect] and [notification] when they hold:
    each flag is the value found under that key in the payload's details
    or, without one, the payload's own flag; its key is in the body exactly
    when that value is truthy, and what is under the key is the value as
    [jsonable_encoder] leaves it. *)
Theorem body_shape (resp_exc : ResponseException) :
  let flag key own :=
    match dict_get key (details resp_exc) with
    | Some v => v
    | None => JBool own
    end in
  let redirect_value := flag "redirect" (redirect resp_exc) in
  let notification_value := flag "notification" (notification resp_exc) in
  exists body,
    JSONResponse.content (snd (create_error_response resp_exc)) = JDict body /\
    map fst body
    = (["msg"; "code"; "details"]
       ++ (if truthy redirect_value then ["redirect"] else [])
       ++ (if truthy notification_value then ["notification"] else []))%list /\
    dict_get "redirect" body
    = (if truthy redirect_value
       then Some (jsonable_encoder redirect_value) else None) /\
    dict_get "notification" body
    = (if truthy notification_value
       then Some (jsonable_encoder notification_value) else None).
Proof.
  intros flag redirect_value notification_value.
  pose proof (create_error_response_redirect resp_exc) as Hr.
  pose proof (create_error_response_notification resp_exc) as Hn.
  unfold body_get in Hr, Hn.
  unfold create_error_response, dict_pop in *.
  destruct (inner resp_exc) as [c r'].
  cbn [snd JSONResponse.content jsonable_encoder] in *.
  rewrite dict_get_del_other in * by discriminate.
  eexists. split; [reflexivity|].
  rewrite Hr, Hn, map_fst_encode_members.
  subst redirect_value notification_value flag. cbv beta.
  destruct (dict_get "redirect" (details resp_exc)) as [rv|];
    destruct (dict_get "notification" (details resp_exc)) as [nv|];
    cbn [truthy];
    repeat match goal with
           | |- context [truthy ?v] => destruct (truthy v)
           | |- context [if redirect resp_exc then _ else _] =>
               destruct (redirect resp_exc)
           | |- context [if notification resp_exc then _ else _] =>
               destruct (notification resp_exc)
           end; repeat split.
Qed.

(** X3. Whatever the handlers return carries the request path under
    [endpoint] in the details of its body: an [endpoint] key in the raised
    details is overwritten. *)
Theorem endpoint_is_request_path (cat : catalogue) (request : Request.t)
  (e : raised) (response : JSONResponse.t) :
  snd (exception_handler cat request e) = Returns response ->
  exists d,
    body_get "details" response = Some (JDict d) /\
    dict_get "endpoint" d = Some (JStr (Request.url_path request)).
Proof.
  assert (forall r s, dict_get "endpoint" (details r) = Some (JStr s) ->
          exists d,
            body_get "details" (snd (create_error_response r)) = Some (JDict d) /\
            dict_get "endpoint" d = Some (JStr s)) as H.
  { intros r v Hv. eexists. split; [apply create_error_response_details|].
    rewrite dict_get_encode_members. change (sqlalchemy_key _) with false.
    cbv iota. rewrite body_details_get by discriminate. rewrite Hv.
    reflexivity. }
  destruct e as [exc | exc | errors | name]; simpl.
  - unfold http_exception_handler.
    destruct (parse_error_detail _) as [error| |]; simpl; try discriminate.
    intros [= <-]. apply H. apply dict_get_set_same.
  - unfold custom_http_exception_handler.
    destruct (parse_error_detail _) as [error| |]; simpl; try discriminate.
    intros [= <-]. apply H. apply dict_get_set_same.
  - unfold validation_exception_handler.
    destruct (create_error_response _) as [error response'] eqn:E. simpl.
    intros [= <-]. change response' with (snd (error, response')).
    rewrite <- E. apply H. reflexivity.
  - discriminate.
Qed.

Lemma endpoint_is_request_path_witness :
  let request := Request.mk "/users/42" [] in
  let e :=
    Raised_HTTPException
      (EXC value NotFoundError (Some [("endpoint", JStr "/elsewhere")])
         false false) in
  exists response d,
    snd (exception_handler value request e) = Returns response /\
    body_get "details" response = Some (JDict d) /\
    dict_get "endpoint" d = Some (JStr "/users/42").
Proof.
  intros request e.
  destruct (endpoint_is_request_path value request e _ eq_refl) as (d & H1 & H2).
  eexists _, d. split; [reflexivity|]. split; assumption.
Defined.

(** *** Catalogue members raised through [EXC] *)

Lemma EXC_payload_flags (cat : catalogue) (exc : ErrorCode)
  (details : option dict) (redirect notification : bool) :
  Exception.redirect (EXC_payload cat exc details redirect notification)
  = (redirect || Exception.redirect (cat exc)) /\
  Exception.notification (EXC_payload cat exc details redirect notification)
  = (notification || Exception.notification (cat exc)).
Proof.
  unfold EXC_payload, EXC_update. destruct redirect, notification; simpl; auto.
Qed.

Lemma member_code_band (exc : ErrorCode) :
  4000 <= code (value exc) < 6000.
Proof. destruct exc; simpl; lia. Qed.

(** X4. Every member of the catalogue, raised through [EXC] after any
    history of handled exceptions, is answered with its own message and its
    own code; the code lies between 4000 and 5999, and the status is 400 for
    a code below 5000 and 500 otherwise.  The 5999 fallback is never taken
    for a member. *)
Theorem member_answered_by_its_code
  (history : list (Request.t * raised)) (exc : ErrorCode)
  (details : option dict) (redirect notification : bool) (request : Request.t) :
  wf_dict (or_empty details) = true ->
  let cat := catalogue_after value history in
  exists response,
    http_exception_handler request (EXC cat exc details redirect notification)
    = Returns response /\
    body_get "msg" response = Some (JStr (msg (value exc))) /\
    body_get "code" response = Some (JInt (code (value exc))) /\
    4000 <= code (value exc) < 6000 /\
    JSONResponse.status_code response
    = (if code (value exc) <? 5000 then 400 else 500).
Proof.
  intros Hwf cat.
  destruct (catalogue_after_stable history value eq_refl exc) as [Hsame _].
  apply same_but_details_fields in Hsame.
  destruct Hsame as (Hmsg & Hcode & _). fold cat in Hmsg, Hcode.
  pose proof (EXC_payload_fields cat exc details redirect notification) as Hp.
  cbv zeta in Hp. destruct Hp as (Pm & Pc & _).
  pose proof (member_code_band exc) as Hband.
  eexists. split; [apply http_exception_handler_EXC, Hwf|].
  rewrite create_error_response_msg, create_error_response_code,
    create_error_response_status.
  unfold inner_code, inner. cbn [custom code msg fst snd].
  rewrite Pm, Pc, Hmsg, Hcode. repeat split; try lia.
  unfold status_of.
  destruct (code (value exc) <? 5000) eqn:E.
  - apply Z.ltb_lt in E.
    replace (4000 <=? code (value exc)) with true
      by (symmetry; apply Z.leb_le; lia).
    reflexivity.
  - now rewrite andb_false_r.
Qed.

Lemma member_answered_by_its_code_witness :
  let history :=
    [ (Request.mk "/items" [],
       Raised_RequestValidationError [JDict [("msg", JStr "Field required")]]) ] in
  let cat := catalogue_after value history in
  exists response,
    http_exception_handler (Request.mk "/db" [])
      (EXC cat DbError None false false) = Returns response /\
    body_get "msg" response = Some (JStr "Bad Gateway") /\
    body_get "code" response = Some (JInt 5041) /\
    JSONResponse.status_code response = 500.
Proof.
  intros history cat.
  destruct (member_answered_by_its_code history DbError None false false
              (Request.mk "/db" []) eq_refl)
    as (response & H & Hmsg & Hcode & _ & Hstatus).
  exists response. repeat split; assumption.
Defined.

(** X5. The flags given to [EXC] come out at the top of the body: when the
    details carry no [redirect] key, the body has [redirect] set to true if
    the exception was raised with [redirect=True] and has no such key
    otherwise; the same holds of [notification].  This is so after any
    history of handled exceptions. *)
Theorem EXC_flags_in_body
  (history : list (Request.t * raised)) (exc : ErrorCode)
  (details : option dict) (redirect notification : bool) (request : Request.t) :
  wf_dict (or_empty details) = true ->
  dict_get "redirect" (or_empty details) = None ->
  dict_get "notification" (or_empty details) = None ->
  let cat := catalogue_after value history in
  exists response,
    http_exception_handler request (EXC cat exc details redirect notification)
    = Returns response /\
    body_get "redirect" response
    = (if redirect then Some (JBool true) else None) /\
    body_get "notification" response
    = (if notification then Some (JBool true) else None).
Proof.
  intros Hwf Hr Hn cat.
  destruct (catalogue_after_stable history value eq_refl exc) as [Hsame _].
  apply same_but_details_fields in Hsame.
  destruct Hsame as (_ & _ & _ & Hred & Hnot). fold cat in Hred, Hnot.
  assert (Exception.redirect (value exc) = false) as Vr by (destruct exc; reflexivity).
  assert (Exception.notification (value exc) = false) as Vn
    by (destruct exc; reflexivity).
  pose proof (EXC_payload_fields cat exc details redirect notification) as Hp.
  cbv zeta in Hp. destruct Hp as (_ & _ & Pd).
  destruct (EXC_payload_flags cat exc details redirect notification) as [Fr Fn].
  eexists. split; [apply http_exception_handler_EXC, Hwf|].
  rewrite create_error_response_redirect, create_error_response_notification.
  cbn [Exception.details Exception.redirect Exception.notification].
  rewrite !dict_get_set_other by discriminate.
  rewrite Pd, Hr, Hn, Fr, Fn, Hred, Hnot, Vr, Vn, !orb_false_r.
  split; reflexivity.
Qed.

Lemma EXC_flags_in_body_witness :
  exists response,
    http_exception_handler (Request.mk "/login" [])
      (EXC value NotAuthenticated (Some [("next", JStr "/home")]) true false)
    = Returns response /\
    body_get "redirect" response = Some (JBool true) /\
    body_get "notification" response = None.
Proof.
  apply (EXC_flags_in_body [] NotAuthenticated (Some [("next", JStr "/home")])
           true false (Request.mk "/login" [])); reflexivity.
Defined.

(** X6. A dictionary detail and its JSON text are answered alike: the
    handler gives the same outcome for the dump of a payload handed over as
    a dictionary and for the same dump as a string, whatever the status
    code of the exception. *)
Theorem dict_and_text_details_agree (r : ResponseException)
  (request : Request.t) (status status' : Z) :
  wf_dict (details r) = true ->
  http_exception_handler request
    (HTTPException.mk status (DetailDict (model_dump r)))
  = http_exception_handler request
      (HTTPException.mk status' (DetailStr (model_dump_json r))).
Proof.
  intros Hwf. unfold http_exception_handler. cbn [HTTPException.detail].
  rewrite (parse_error_detail_dump r Hwf). reflexivity.
Qed.

Lemma dict_and_text_details_agree_witness :
  let r := mkResponseException "ModuleException" "Gone" 4504
             [("id", JInt 7)] false true false in
  http_exception_handler (Request.mk "/x" [])
    (HTTPException.mk 410 (DetailDict (model_dump r)))
  = http_exception_handler (Request.mk "/x" [])
      (HTTPException.mk 400 (DetailStr (model_dump_json r))).
Proof.
  intros r. apply (dict_and_text_details_agree r (Request.mk "/x" []) 410 400).
  reflexivity.
Defined.

(** *** [ModuleException] *)

(** X7. The JSON text of a [ModuleException] decodes to its [dict()], and,
    taken as the detail of an [HTTPException], it is parsed into a custom
    payload with the same prefix, message, code, details and flags. *)
Theorem ModuleException_json_round_trip (e : ModuleException.t) :
  let p := ModuleException.payload e in
  wf_dict (ModuleExceptionPayload.details p) = true ->
  loads (ModuleException_json e) = Returns (JDict (ModuleException_dict e)) /\
  parse_error_detail (DetailStr (ModuleException_json e))
  = Returns
      (mkResponseException (ModuleExceptionPayload.prefix p)
         (ModuleExceptionPayload.msg p) (ModuleExceptionPayload.code p)
         (ModuleExceptionPayload.details p)
         (ModuleExceptionPayload.redirect p)
         (ModuleExceptionPayload.notification p) true).
Proof.
  intros p Hwf.
  assert (loads (ModuleException_json e) = Returns (JDict (ModuleException_dict e)))
    as Hl.
  { apply JsonFacts.loads_dumps. unfold wf_dict in Hwf.
    unfold ModuleException_dict. fold p. simpl in Hwf |- *. now rewrite Hwf. }
  split; [exact Hl|].
  unfold parse_error_detail. rewrite Hl. reflexivity.
Qed.

Lemma ModuleException_json_round_trip_witness :
  let e :=
    ModuleException_init (Msg "disk full") ModuleException_default_code
      (Some [("free", JInt 0)]) false true in
  loads (ModuleException_json e) = Returns (JDict (ModuleException_dict e)) /\
  dict_get "code" (ModuleException_dict e) = Some (JInt 5999).
Proof.
  intros e.
  destruct (ModuleException_json_round_trip e eq_refl) as [H _].
  split; [exact H | reflexivity].
Defined.

End ExceptionMore.

(** ** More of the logger *)

Module LoggerMore.
Import Starlette Logger LoggerFacts.

(** X8. [ColorPicker.pick] by level: each of the four lower colours covers
    the levels from its own up to the next, [fatal] is for [CRITICAL] alone,
    and [end_of_hope] is what every level below [DEBUG] (0, the unset
    level, included) and every level above [CRITICAL] gets; [clear] is never
    picked. *)
Theorem pick_bands (level : Z) :
  (pick level = debug <-> 10 <= level < 20) /\
  (pick level = info <-> 20 <= level < 30) /\
  (pick level = warn <-> 30 <= level < 40) /\
  (pick level = error <-> 40 <= level < 50) /\
  (pick level = fatal <-> level = 50) /\
  (pick level = end_of_hope <-> level < 10 \/ 50 < level) /\
  pick level <> clear.
Proof.
  unfold pick, DEBUG, INFO, WARNING, ERROR, CRITICAL.
  destruct (10 <=? level) eqn:E1; destruct (level <? 20) eqn:E2;
    destruct (20 <=? level) eqn:E3; destruct (level <? 30) eqn:E4;
    destruct (30 <=? level) eqn:E5; destruct (level <? 40) eqn:E6;
    destruct (40 <=? level) eqn:E7; destruct (level <? 50) eqn:E8;
    destruct (50 =? level) eqn:E9; cbn [andb];
    rewrite ?Z.leb_le, ?Z.leb_gt, ?Z.ltb_lt, ?Z.ltb_ge, ?Z.eqb_eq, ?Z.eqb_neq
      in *;
    try lia;
    repeat split; try discriminate; try lia; intros; lia.
Qed.

(** *** The adapter *)

(** X9. Reading an id back after the property setter gives the value that
    was set, except that [None] and the empty string give the default
    ('root', 'no-request'): the setters never leave an empty id, and neither
    touches the other variable or the uuid source. *)
Theorem setter_then_getter (value : option string) (w : world) :
  TRACE_ID_get (trace_id_setter value w) <> "" /\
  REQUEST_ID_get (request_id_setter value w) <> "" /\
  (forall v, value = Some v -> v <> "" ->
     TRACE_ID_get (trace_id_setter value w) = v /\
     REQUEST_ID_get (request_id_setter value w) = v) /\
  (value = None \/ value = Some "" ->
     TRACE_ID_get (trace_id_setter value w) = "root" /\
     REQUEST_ID_get (request_id_setter value w) = "no-request") /\
  REQUEST_ID_get (trace_id_setter value w) = REQUEST_ID_get w /\
  TRACE_ID_get (request_id_setter value w) = TRACE_ID_get w /\
  uuid_drawn (trace_id_setter value w) = uuid_drawn w /\
  uuid_drawn (request_id_setter value w) = uuid_drawn w.
Proof.
  unfold trace_id_setter, request_id_setter, TRACE_ID_get, REQUEST_ID_get,
    TRACE_ID_set, REQUEST_ID_set, or_default. cbn.
  destruct value as [v|]; [destruct (String.eqb_spec v "") as [->|Hv]|];
    repeat split; try discriminate; try reflexivity; try assumption;
    intros; intuition congruence.
Qed.

Lemma dict_get_update (k : string) (b : dict) :
  distinct (map fst b) = true ->
  forall a,
    dict_get k (dict_update a b)
    = match dict_get k b with
      | Some v => Some v
      | None => dict_get k a
      end.
Proof.
  unfold dict_update. induction b as [|[k0 v0] t IH]; intros Hd a; simpl.
  - reflexivity.
  - simpl in Hd. apply andb_true_iff in Hd. destruct Hd as [Hk Ht].
    rewrite (IH Ht). destruct (String.eqb_spec k0 k) as [->|Hne].
    + assert (dict_get k t = None) as ->.
      { apply negb_true_iff in Hk. clear -Hk.
        induction t as [|[k1 v1] t IH]; simpl in *; [reflexivity|].
        apply orb_false_iff in Hk. destruct Hk as [H1 H2].
        rewrite String.eqb_sym, H1. exact (IH H2). }
      apply ExceptionFacts.dict_get_set_same.
    + rewrite ExceptionFacts.dict_get_set_other by congruence. reflexivity.
Qed.

(** X10. [process] replaces the [extra] of the keyword arguments by a
    dictionary in which the class attribute [APP_EXTRA] wins over the
    adapter's own [extra], and both win over the four computed entries: the
    caller's extra under [data], the declarer, and the trace and request ids
    of the current context.  Every other keyword argument is left as it is. *)
Theorem process_extra (self : adapter) (APP_EXTRA kwargs : dict) (w : world)
  (declarer : string) :
  service_name self = Some declarer ->
  distinct (map fst (extra self)) = true ->
  distinct (map fst APP_EXTRA) = true ->
  exists kwargs' record_extra,
    process self APP_EXTRA kwargs w = Returns kwargs' /\
    dict_get "extra" kwargs' = Some (JDict record_extra) /\
    (forall k, k <> "extra" -> dict_get k kwargs' = dict_get k kwargs) /\
    (forall k,
       dict_get k record_extra
       = match dict_get k APP_EXTRA, dict_get k (extra self) with
         | Some v, _ => Some v
         | None, Some v => Some v
         | None, None =>
             dict_get k
               [ ("data", extra_or_empty kwargs);
                 ("declarer", JStr declarer);
                 ("trace_id", JStr (TRACE_ID_get w));
                 ("request_id", JStr (REQUEST_ID_get w)) ]
         end).
Proof.
  intros Hname Hself Happ. unfold process. rewrite Hname.
  eexists _, _. split; [reflexivity|]. split.
  - apply ExceptionFacts.dict_get_set_same.
  - split.
    + intros k Hk. apply ExceptionFacts.dict_get_set_other. congruence.
    + intros k. rewrite (dict_get_update k APP_EXTRA Happ).
      rewrite (dict_get_update k (extra self) Hself).
      destruct (dict_get k APP_EXTRA); [reflexivity|].
      destruct (dict_get k (extra self)); reflexivity.
Qed.

Lemma process_extra_witness :
  let self := mkAdapter (Some "billing") [] in
  let w := mkWorld (fun _ => "u") 0 (Some "trace-9") None in
  exists kwargs' record_extra,
    process self [("app_name", JStr "fastapi")]
      [("extra", JDict [("order", JInt 7)])] w = Returns kwargs' /\
    dict_get "extra" kwargs' = Some (JDict record_extra) /\
    dict_get "trace_id" record_extra = Some (JStr "trace-9") /\
    dict_get "request_id" record_extra = Some (JStr "no-request") /\
    dict_get "data" record_extra = Some (JDict [("order", JInt 7)]) /\
    dict_get "app_name" record_extra = Some (JStr "fastapi").
Proof.
  intros self w.
  destruct (process_extra self [("app_name", JStr "fastapi")]
              [("extra", JDict [("order", JInt 7)])] w "billing"
              eq_refl eq_refl eq_refl)
    as (kwargs' & record_extra & H & He & _ & Hk).
  exists kwargs', record_extra. split; [exact H|]. split; [exact He|].
  rewrite !Hk. repeat split.
Defined.

(** X11. An instance that [create] did not make, of the base class itself,
    has no [service_name]: [process] raises [AttributeError] on it, whatever
    it was built with and whatever it is given.  On an instance that
    [create] made, [process] returns when the keyword [extra] was left out
    or was a dictionary, and raises [TypeError] when it was anything else,
    [None] included. *)
Theorem process_needs_service_name (APP_EXTRA kwargs : dict) (w : world) :
  (forall init_kwargs,
     process_instance (init init_kwargs) APP_EXTRA kwargs w
     = Raises (Uncaught "AttributeError")) /\
  (forall who create_kwargs,
     match dict_get "extra" create_kwargs with
     | None | Some (JDict _) =>
         exists kwargs',
           process_instance (create who create_kwargs) APP_EXTRA kwargs w
           = Returns kwargs'
     | Some _ =>
         process_instance (create who create_kwargs) APP_EXTRA kwargs w
         = Raises TypeError
     end).
Proof.
  split.
  - reflexivity.
  - intros who create_kwargs. unfold process_instance, create, init.
    cbn [instance_service_name instance_extra].
    destruct (dict_get "extra" create_kwargs) as [[ | b | z | s | l | d ]|];
      try reflexivity; unfold process; cbn [service_name];
      eexists; reflexivity.
Qed.

Lemma process_needs_service_name_witness :
  process_instance (create (Issuer_str "jobs") [("extra", JNull)]) []
    [("extra", JDict [("a", JInt 1)])] (mkWorld (fun _ => "u") 0 None None)
  = Raises TypeError.
Proof.
  exact (proj2 (process_needs_service_name []
                  [("extra", JDict [("a", JInt 1)])]
                  (mkWorld (fun _ => "u") 0 None None))
           (Issuer_str "jobs") [("extra", JNull)]).
Defined.

(** *** The middleware and the adapter together *)

(** X12. A record processed while [call_next] runs carries the ids of the
    request: in the world [dispatch] hands to [call_next], [process] puts
    under [request_id] the first identifier drawn and under [trace_id] the
    inbound [X-Trace-ID] header or, without one, the second identifier
    drawn, provided neither [APP_EXTRA] nor the adapter's [extra] has these
    keys. *)
Theorem record_carries_request_ids (request : Request.t)
  (call_next : downstream) (w : world) (self : adapter)
  (APP_EXTRA kwargs : dict) (declarer : string) :
  service_name self = Some declarer ->
  distinct (map fst (extra self)) = true ->
  distinct (map fst APP_EXTRA) = true ->
  dict_get "trace_id" (extra self) = None ->
  dict_get "request_id" (extra self) = None ->
  dict_get "trace_id" APP_EXTRA = None ->
  dict_get "request_id" APP_EXTRA = None ->
  let request_id := uuid_source w (uuid_drawn w) in
  let trace_id :=
    match find_header "x-trace-id" (Request.headers request) with
    | Some inbound => inbound
    | None => uuid_source w (S (uuid_drawn w))
    end in
  exists established kwargs' record_extra,
    dispatch request call_next w
    = (let '(w', called) := call_next request established in
       (w',
        response <- called ;;
        Returns
          (Response.mk (Response.status_code response) (Response.body response)
             (headers_set "X-Trace-ID" trace_id
                (headers_set "X-Request-ID" request_id
                   (Response.headers response)))))) /\
    process self APP_EXTRA kwargs established = Returns kwargs' /\
    dict_get "extra" kwargs' = Some (JDict record_extra) /\
    dict_get "request_id" record_extra = Some (JStr request_id) /\
    dict_get "trace_id" record_extra = Some (JStr trace_id).
Proof.
  intros Hname Hself Happ H1 H2 H3 H4 request_id trace_id.
  exists (mkWorld (uuid_source w) (S (S (uuid_drawn w)))
            (Some trace_id) (Some request_id)).
  unfold process. rewrite Hname.
  eexists _, _. split; [reflexivity|]. split; [reflexivity|].
  split; [apply ExceptionFacts.dict_get_set_same|].
  rewrite !(dict_get_update _ APP_EXTRA Happ).
  rewrite !(dict_get_update _ (extra self) Hself).
  rewrite H1, H2, H3, H4. split; reflexivity.
Qed.

Lemma record_carries_request_ids_witness :
  let w := mkWorld (fun n => if Nat.eqb n 0 then "req-1" else "trace-1")
             0 None None in
  let request := Request.mk "/jobs" [("x-trace-id", "inbound-7")] in
  let call_next : downstream := fun _ w => (w, Returns (Response.mk 200 "ok" [])) in
  exists established kwargs' record_extra,
    fst (dispatch request call_next w) = established /\
    process (mkAdapter (Some "jobs") []) [] [] established
    = Returns kwargs' /\
    dict_get "extra" kwargs' = Some (JDict record_extra) /\
    dict_get "request_id" record_extra = Some (JStr "req-1") /\
    dict_get "trace_id" record_extra = Some (JStr "inbound-7").
Proof.
  intros w request call_next.
  destruct (record_carries_request_ids request call_next w
              (mkAdapter (Some "jobs") []) [] [] "jobs"
              eq_refl eq_refl eq_refl eq_refl eq_refl eq_refl eq_refl)
    as (established & kwargs' & record_extra & Hd & Hp & He & Hr & Ht).
  exists established, kwargs', record_extra.
  split; [rewrite Hd; reflexivity|]. repeat split; assumption.
Defined.

(** *** Response headers *)

(** Assigning a header changes nothing outside the entries of that name. *)
Lemma set_header_filter (p : string * string -> bool) (k v : string)
  (l : raw_headers) :
  (forall v', p (k, v') = false) ->
  filter p (set_header k v l) = filter p l.
Proof.
  intros Hp.
  assert (forall t, filter p (drop_header k t) = filter p t) as Hdrop.
  { induction t as [|[k0 v0] t IH]; [reflexivity|]. simpl.
    destruct (String.eqb_spec k0 k) as [->|Hne]; simpl.
    - now rewrite Hp.
    - now rewrite IH. }
  induction l as [|[k0 v0] t IH]; simpl.
  - now rewrite Hp.
  - destruct (String.eqb_spec k0 k) as [->|Hne]; simpl.
    + now rewrite !Hp, Hdrop.
    + now rewrite IH.
Qed.

Lemma set_header_once (k v : string) (l : raw_headers) :
  filter (fun kv => String.eqb (fst kv) k) (set_header k v l) = [(k, v)].
Proof.
  assert (forall t, filter (fun kv => String.eqb (fst kv) k) (drop_header k t)
                    = []) as Hdrop.
  { induction t as [|[k0 v0] t IH]; [reflexivity|]. simpl.
    destruct (String.eqb k0 k) eqn:E; simpl; rewrite ?E; exact IH. }
  induction l as [|[k0 v0] t IH]; simpl.
  - now rewrite String.eqb_refl.
  - destruct (String.eqb k0 k) eqn:E; simpl;
      rewrite ?E, ?String.eqb_refl, ?Hdrop; [reflexivity | exact IH].
Qed.

(** X13. The response [dispatch] returns has exactly one [x-request-id] and
    exactly one [x-trace-id] header, whatever headers of those names the
    rest of the application had set, and every other header is as
    [call_next] returned it, in the same order. *)
Theorem one_header_of_each (request : Request.t) (call_next : downstream)
  (w w' : world) (response' : Response.t) :
  dispatch request call_next w = (w', Returns response') ->
  let request_id := uuid_source w (uuid_drawn w) in
  let trace_id :=
    match find_header "x-trace-id" (Request.headers request) with
    | Some inbound => inbound
    | None => uuid_source w (S (uuid_drawn w))
    end in
  let other (kv : string * string) :=
    negb (String.eqb (fst kv) "x-request-id") &&
    negb (String.eqb (fst kv) "x-trace-id") in
  exists response,
    snd (call_next request
           (mkWorld (uuid_source w) (S (S (uuid_drawn w)))
              (Some trace_id) (Some request_id)))
    = Returns response /\
    filter (fun kv => String.eqb (fst kv) "x-request-id")
      (Response.headers response') = [("x-request-id", request_id)] /\
    filter (fun kv => String.eqb (fst kv) "x-trace-id")
      (Response.headers response') = [("x-trace-id", trace_id)] /\
    filter other (Response.headers response')
    = filter other (Response.headers response).
Proof.
  intros H request_id trace_id other.
  change (dispatch request call_next w)
    with (let '(w', called) :=
            call_next request
              (mkWorld (uuid_source w) (S (S (uuid_drawn w)))
                 (Some trace_id) (Some request_id)) in
          (w',
           response <- called ;;
           Returns
             (Response.mk (Response.status_code response)
                (Response.body response)
                (set_header "x-trace-id" trace_id
                   (set_header "x-request-id" request_id
                      (Response.headers response)))))) in H.
  destruct (call_next request _) as [w0 called].
  destruct called as [response| |]; try discriminate H.
  injection H as _ <-. exists response. split; [reflexivity|].
  cbn [Response.headers]. repeat split.
  - rewrite set_header_filter by reflexivity. apply set_header_once.
  - apply set_header_once.
  - rewrite !set_header_filter; [reflexivity | | ];
      intros v'; unfold other; cbn [fst]; rewrite String.eqb_refl;
      cbn; rewrite ?andb_false_r; reflexivity.
Qed.

Lemma one_header_of_each_witness :
  let w := mkWorld (fun n => if Nat.eqb n 0 then "req-1" else "trace-1")
             0 None None in
  let request := Request.mk "/jobs" [] in
  let call_next : downstream :=
    fun _ w =>
      (w, Returns (Response.mk 200 "ok"
                     [ ("x-request-id", "stale"); ("content-type", "text/plain");
                       ("x-request-id", "staler") ])) in
  exists response',
    snd (dispatch request call_next w) = Returns response' /\
    filter (fun kv => String.eqb (fst kv) "x-request-id")
      (Response.headers response') = [("x-request-id", "req-1")] /\
    filter (fun kv => String.eqb (fst kv) "x-trace-id")
      (Response.headers response') = [("x-trace-id", "trace-1")].
Proof.
  intros w request call_next.
  destruct (one_header_of_each request call_next w _ _ eq_refl)
    as (response & _ & Hr & Ht & _).
  eexists. split; [reflexivity|]. split; assumption.
Defined.

(** *** Consecutive requests *)

Lemma dispatch_inv (request : Request.t) (call_next : downstream)
  (w w' : world) (response' : Response.t) :
  dispatch request call_next w = (w', Returns response') ->
  let request_id := uuid_source w (uuid_drawn w) in
  let trace_id :=
    match find_header "x-trace-id" (Request.headers request) with
    | Some inbound => inbound
    | None => uuid_source w (S (uuid_drawn w))
    end in
  w' = fst (call_next request
              (mkWorld (uuid_source w) (S (S (uuid_drawn w)))
                 (Some trace_id) (Some request_id))) /\
  find_header "x-request-id" (Response.headers response') = Some request_id /\
  find_header "x-trace-id" (Response.headers response') = Some trace_id.
Proof.
  intros H request_id trace_id.
  change (dispatch request call_next w)
    with (let '(w', called) :=
            call_next request
              (mkWorld (uuid_source w) (S (S (uuid_drawn w)))
                 (Some trace_id) (Some request_id)) in
          (w',
           response <- called ;;
           Returns
             (Response.mk (Response.status_code response)
                (Response.body response)
                (set_header "x-trace-id" trace_id
                   (set_header "x-request-id" request_id
                      (Response.headers response)))))) in H.
  destruct (call_next request _) as [w0 called].
  destruct called as [response| |]; try discriminate H.
  injection H as <- <-. cbn [fst Response.headers]. split; [reflexivity|].
  rewrite find_header_set_other by discriminate.
  rewrite !find_header_set_same. split; reflexivity.
Qed.

(** X14. Two requests served one after the other get different request
    ids, and a request without an inbound trace id gets a trace id that
    differs from its request id, as long as [uuid4] never repeats itself
    and the rest of the application only draws from it. *)
Theorem consecutive_requests_differ (request1 request2 : Request.t)
  (call_next : downstream) (w w1 w2 : world) (response1 response2 : Response.t) :
  (forall a b, uuid_source w a = uuid_source w b -> a = b) ->
  (forall rq w0,
     uuid_source (fst (call_next rq w0)) = uuid_source w0 /\
     (uuid_drawn w0 <= uuid_drawn (fst (call_next rq w0)))%nat) ->
  dispatch request1 call_next w = (w1, Returns response1) ->
  dispatch request2 call_next w1 = (w2, Returns response2) ->
  find_header "x-request-id" (Response.headers response1)
  <> find_header "x-request-id" (Response.headers response2) /\
  (find_header "x-trace-id" (Request.headers request1) = None ->
   find_header "x-trace-id" (Response.headers response1)
   <> find_header "x-request-id" (Response.headers response1)).
Proof.
  intros Hinj Hnext H1 H2.
  apply dispatch_inv in H1. apply dispatch_inv in H2. cbv zeta in H1, H2.
  destruct H1 as (E1 & R1 & T1). destruct H2 as (_ & R2 & _).
  rewrite R1, R2, T1.
  match type of E1 with
  | _ = fst (call_next ?rq ?w0) => destruct (Hnext rq w0) as [Hs Hd]
  end.
  rewrite <- E1 in Hs, Hd. cbn [uuid_source uuid_drawn] in Hs, Hd.
  split.
  - rewrite Hs. intros [= E]. apply Hinj in E. lia.
  - intros ->. intros [= E]. apply Hinj in E. lia.
Qed.

Lemma decimal_name_injective (a b : nat) :
  NilEmpty.string_of_uint (Nat.to_uint a) = NilEmpty.string_of_uint (Nat.to_uint b) ->
  a = b.
Proof.
  intros H. apply DecimalNat.Unsigned.to_uint_inj.
  apply (f_equal NilEmpty.uint_of_string) in H.
  rewrite !NilEmpty.usu in H. now injection H.
Qed.

Lemma consecutive_requests_differ_witness :
  let w := mkWorld (fun n => NilEmpty.string_of_uint (Nat.to_uint n))
             0 None None in
  let call_next : downstream := fun _ w => (w, Returns (Response.mk 200 "ok" [])) in
  let request := Request.mk "/jobs" [] in
  exists w1 response1 w2 response2,
    dispatch request call_next w = (w1, Returns response1) /\
    dispatch request call_next w1 = (w2, Returns response2) /\
    find_header "x-request-id" (Response.headers response1)
    <> find_header "x-request-id" (Response.headers response2).
Proof.
  intros w call_next request.
  pose (name := fun n => NilEmpty.string_of_uint (Nat.to_uint n)).
  pose (w1 := mkWorld name 2 (Some (name 1%nat)) (Some (name 0%nat))).
  pose (w2 := mkWorld name 4 (Some (name 3%nat)) (Some (name 2%nat))).
  pose (response1 :=
          Response.mk 200 "ok"
            [("x-request-id", name 0%nat); ("x-trace-id", name 1%nat)]).
  pose (response2 :=
          Response.mk 200 "ok"
            [("x-request-id", name 2%nat); ("x-trace-id", name 3%nat)]).
  exists w1, response1, w2, response2.
  split; [reflexivity|]. split; [reflexivity|].
  refine (proj1 (consecutive_requests_differ request request call_next
                   w w1 w2 response1 response2 decimal_name_injective
                   _ eq_refl eq_refl)).
  intros rq w0. split; [reflexivity | apply le_n].
Defined.

(** *** The access-log filter *)

Lemma differs_from_spec (x : json) (path : string) :
  differs_from x path = true <-> x <> JStr path.
Proof.
  destruct x; simpl; try (split; [discriminate | reflexivity]).
  destruct (String.eqb_spec s path) as [->|Hne]; simpl.
  - split; [discriminate | intros H; now destruct H].
  - split; [intros _ [= E]; contradiction | reflexivity].
Qed.

Lemma mapping_item_2_absent (d : list (hashable * json)) :
  (forall x, ~ In (Key_int 2, x) d) -> mapping_item_2 d = None.
Proof.
  induction d as [|[k v] t IH]; intros H; [reflexivity|].
  assert (mapping_item_2 t = None) as Ht
      by (apply IH; intros x Hx; apply (H x); now right).
  destruct k as [ | b | z | s ]; cbn [mapping_item_2]; try exact Ht.
  destruct (Z.eqb_spec z 2) as [->|_]; [|exact Ht].
  destruct (H v). now left.
Qed.

Lemma mapping_item_2_present (d : list (hashable * json)) (x : json) :
  NoDup (map fst d) -> In (Key_int 2, x) d -> mapping_item_2 d = Some x.
Proof.
  induction d as [|[k v] t IH]; intros Hnd Hin; [destruct Hin|].
  inversion Hnd as [|? ? Hk Ht]; subst.
  destruct Hin as [[= -> ->]|Hin]; [reflexivity|].
  assert (k <> Key_int 2) as Hne.
  { intros ->. apply Hk. change (Key_int 2) with (fst (Key_int 2, x)).
    apply in_map, Hin. }
  destruct k as [ | b | z | s ]; cbn [mapping_item_2]; try (now apply IH).
  destruct (Z.eqb_spec z 2) as [->|_]; [congruence | now apply IH].
Qed.

(** X15. [EndpointFilter.filter] keeps a record with a tuple of arguments
    exactly when there are at least three and the third is not the path; a
    record with fewer arguments, or none, is dropped whatever it is about.
    With a mapping for arguments the record is dropped below three entries;
    from three on the filter raises [KeyError] unless the mapping has the
    key 2, and then keeps the record exactly when the value under that key
    is not the path.  An access-log record is therefore dropped when its
    full path is the heartbeat path and kept when it is anything else, a
    query string included. *)
Theorem filter_keeps (path : string) :
  (forall l,
     exists kept,
       EndpointFilter_filter path (Args_tuple l) = Returns kept /\
       (kept = true <->
        exists x, nth_error l 2 = Some x /\ x <> JStr path)) /\
  (forall d,
     (List.length d < 3)%nat ->
     EndpointFilter_filter path (Args_mapping d) = Returns false) /\
  (forall d,
     (3 <= List.length d)%nat -> (forall x, ~ In (Key_int 2, x) d) ->
     EndpointFilter_filter path (Args_mapping d)
     = Raises (Uncaught "KeyError")) /\
  (forall d x,
     (3 <= List.length d)%nat -> NoDup (map fst d) -> In (Key_int 2, x) d ->
     exists kept,
       EndpointFilter_filter path (Args_mapping d) = Returns kept /\
       (kept = true <-> x <> JStr path)) /\
  (forall client method full_path version status,
     EndpointFilter_filter heartbeat_path
       (Args_tuple [client; method; JStr full_path; version; status])
     = Returns (negb (String.eqb full_path heartbeat_path))).
Proof.
  split; [|split; [|split; [|split]]].
  - intros l. destruct l as [|a [|b [|c t]]]; simpl.
    + exists false. split; [reflexivity|].
      split; [discriminate | intros (x & H & _); discriminate H].
    + exists false. split; [reflexivity|].
      split; [discriminate | intros (x & H & _); discriminate H].
    + exists false. split; [reflexivity|].
      split; [discriminate | intros (x & H & _); discriminate H].
    + exists (differs_from c path). split; [reflexivity|].
      rewrite differs_from_spec. split.
      * intros H. exists c. split; [reflexivity | exact H].
      * intros (x & [= <-] & H). exact H.
  - intros d H. destruct d as [|a [|b [|c t]]]; try reflexivity.
    simpl in H. lia.
  - intros d H Habsent. unfold EndpointFilter_filter.
    rewrite (mapping_item_2_absent d Habsent).
    destruct d as [|a [|b [|c t]]]; try (simpl in H; lia). reflexivity.
  - intros d x H Hnd Hin. unfold EndpointFilter_filter.
    rewrite (mapping_item_2_present d x Hnd Hin).
    destruct d as [|a [|b [|c t]]]; try (simpl in H; lia).
    exists (differs_from x path). split; [reflexivity|].
    apply differs_from_spec.
  - reflexivity.
Qed.

End LoggerMore.

(** ** [src/model.py]: enumerations and views *)

Module ModelFacts.
Import Exception Model ExceptionFacts.

Lemma find_value_app (v : string) (ms ms' : list Member.t) :
  find_value v (ms ++ ms')
  = match find_value v ms with
    | Some m => Some m
    | None => find_value v ms'
    end.
Proof.
  induction ms as [|m t IH]; simpl; [reflexivity|].
  destruct (String.eqb (Member.value m) v); [reflexivity | exact IH].
Qed.

Lemma find_value_sound (v : string) (ms : list Member.t) (m : Member.t) :
  find_value v ms = Some m -> Member.value m = v /\ In m ms.
Proof.
  induction ms as [|m0 t IH]; simpl; [discriminate|].
  destruct (String.eqb_spec (Member.value m0) v).
  - intros [= <-]. auto.
  - intros H. destruct (IH H). auto.
Qed.

Lemma find_value_none (v : string) (ms : list Member.t) :
  find_value v ms = None <-> ~ In v (map Member.value ms).
Proof.
  induction ms as [|m0 t IH]; simpl; [tauto|].
  destruct (String.eqb_spec (Member.value m0) v); [|tauto].
  split; [discriminate | tauto].
Qed.

Local Abbreviation grow :=
  (fun (ms : list Member.t) (nv : string * string) =>
     match find_value (snd nv) ms with
     | Some _ => ms
     | None => (ms ++ [Member.mk (fst nv) (snd nv)])%list
     end).

(** Once a value has its member, it keeps it as the body goes on. *)
Lemma grow_keeps (body : enum_body) (ms : list Member.t) (v : string)
  (m : Member.t) :
  find_value v ms = Some m -> find_value v (fold_left grow body ms) = Some m.
Proof.
  revert ms. induction body as [|[n0 v0] t IH]; intros ms H; simpl; [exact H|].
  apply IH. destruct (find_value v0 ms); [exact H|].
  rewrite find_value_app, H. reflexivity.
Qed.

(** The values with a member are those already there and those of the
    body. *)
Lemma grow_values (body : enum_body) (ms : list Member.t) (v : string) :
  In v (map Member.value (fold_left grow body ms))
  <-> In v (map Member.value ms) \/ In v (map snd body).
Proof.
  revert ms. induction body as [|[n0 v0] t IH]; intros ms; simpl; [tauto|].
  rewrite IH. destruct (find_value v0 ms) as [m|] eqn:E.
  - apply find_value_sound in E as [E1 E2].
    assert (In v0 (map Member.value ms))
      by (rewrite <- E1; apply in_map, E2).
    split; [tauto|]. intros [H1|[<-|H1]]; auto.
  - rewrite map_app, in_app_iff. simpl. tauto.
Qed.

Lemma grow_NoDup (body : enum_body) (ms : list Member.t) :
  NoDup (map Member.value ms) ->
  NoDup (map Member.value (fold_left grow body ms)).
Proof.
  revert ms. induction body as [|[n0 v0] t IH]; intros ms H; simpl; [exact H|].
  apply IH. destruct (find_value v0 ms) eqn:E; [exact H|].
  rewrite map_app. simpl. apply find_value_none in E.
  apply NoDup_app; [exact H | repeat constructor; intros [] |].
  intros x Hx [<-|[]]. exact (E Hx).
Qed.

(** A member's name is the first name given its value. *)
Lemma grow_names (body : enum_body) (ms : list Member.t) (m : Member.t) :
  In m (fold_left grow body ms) ->
  In m ms \/ In (Member.name m, Member.value m) body.
Proof.
  revert ms. induction body as [|[n0 v0] t IH]; intros ms; simpl; [tauto|].
  intros H. apply IH in H. destruct H as [H|H]; [|tauto].
  destruct (find_value v0 ms); [tauto|].
  apply in_app_iff in H as [H|[<-|[]]]; [tauto|]. simpl. tauto.
Qed.

Lemma canonical_finds (body : enum_body) (v : string) :
  In v (map snd body) ->
  exists m, find_value v (canonical body) = Some m /\ Member.value m = v
            /\ In (Member.name m, v) body.
Proof.
  intros Hin. destruct (find_value v (canonical body)) as [m|] eqn:E.
  - exists m. destruct (find_value_sound _ _ _ E) as [E1 E2].
    repeat split; [exact E1|]. apply grow_names in E2 as [[]|E2].
    now rewrite <- E1.
  - apply find_value_none in E. exfalso. apply E.
    unfold canonical. rewrite grow_values. tauto.
Qed.

Lemma lookup_name_members (all body : enum_body) (n v : string) :
  NoDup (map fst body) -> In (n, v) body ->
  (forall nv, In nv body -> In (snd nv) (map snd all)) ->
  lookup_name n
    (flat_map
       (fun nv : string * string =>
          match find_value (snd nv) (canonical all) with
          | Some m => [(fst nv, m)]
          | None => []
          end) body)
  = find_value v (canonical all).
Proof.
  induction body as [|[n0 v0] t IH]; intros Hnd Hin Hall; [destruct Hin|].
  simpl. inversion Hnd as [|? ? Hn0 Ht]; subst.
  destruct (canonical_finds all v0 (Hall (n0, v0) (or_introl eq_refl)))
    as (m0 & E0 & _).
  rewrite E0. simpl. destruct Hin as [[= -> ->]|Hin].
  - now rewrite String.eqb_refl.
  - destruct (String.eqb_spec n0 n) as [->|_].
    + exfalso. apply Hn0. change n with (fst (n, v)). apply in_map, Hin.
    + apply IH; [exact Ht | exact Hin |]. intros nv H. apply Hall. now right.
Qed.

Lemma lookup_name_absent (key : string) (ms : list (string * Member.t)) :
  ~ In key (map fst ms) -> lookup_name key ms = None.
Proof.
  induction ms as [|[n m] t IH]; simpl; [reflexivity|]. intros H.
  destruct (String.eqb_spec n key); [tauto|]. apply IH. tauto.
Qed.

Lemma members_names (body : enum_body) :
  map fst (members body) = map fst body.
Proof.
  unfold members.
  assert (forall part,
             (forall nv, In nv part -> In (snd nv) (map snd body)) ->
             map fst
               (flat_map
                  (fun nv : string * string =>
                     match find_value (snd nv) (canonical body) with
                     | Some m => [(fst nv, m)]
                     | None => []
                     end) part) = map fst part) as H.
  { induction part as [|[n v] t IH]; intros Hall; [reflexivity|]. simpl.
    destruct (canonical_finds body v (Hall (n, v) (or_introl eq_refl)))
      as (m & E & _).
    rewrite E. simpl. f_equal. apply IH. intros nv H. apply Hall. now right. }
  apply H. intros nv Hnv. apply in_map, Hnv.
Qed.

(** X16.  [ValuedEnum.to_dict] gives back the class body: every name,
    aliases included, with the value assigned to it, in the order of the
    definition. *)
Theorem to_dict_is_body (body : enum_body) : to_dict body = body.
Proof.
  unfold to_dict, members.
  assert (forall part,
             (forall nv, In nv part -> In (snd nv) (map snd body)) ->
             map (fun km : string * Member.t => (fst km, Member.value (snd km)))
               (flat_map
                  (fun nv : string * string =>
                     match find_value (snd nv) (canonical body) with
                     | Some m => [(fst nv, m)]
                     | None => []
                     end) part) = part) as H.
  { induction part as [|[n v] t IH]; intros Hall; [reflexivity|]. simpl.
    destruct (canonical_finds body v (Hall (n, v) (or_introl eq_refl)))
      as (m & E & Ev & _).
    rewrite E. simpl. rewrite Ev. f_equal. apply IH.
    intros nv H. apply Hall. now right. }
  apply H. intros nv Hnv. apply in_map, Hnv.
Qed.

(** X17.  In an enumeration whose body assigns [v] to the name [n], the
    lookups by name and by value end at one member: [from_key] and
    [from_name] of [n] and [from_value] of [v] return the same member, its
    value is [v], its name is a name the body gives to [v] ([n] itself or
    the name [n] is an alias of), and [has_value] holds of [v]. *)
Theorem lookups_meet (body : enum_body) (n v : string) (safe : bool) :
  NoDup (map fst body) -> In (n, v) body ->
  exists m,
    from_key body n safe = Found m /\
    from_name body n = Found m /\
    from_value body v safe = Found m /\
    has_value body v = true /\
    Member.value m = v /\
    In (Member.name m, v) body.
Proof.
  intros Hnd Hin.
  assert (In v (map snd body)) as Hv
      by (change v with (snd (n, v)); apply in_map, Hin).
  destruct (canonical_finds body v Hv) as (m & E & Ev & En).
  assert (lookup_name n (members body) = Some m) as L.
  { unfold members. rewrite (lookup_name_members body body n v Hnd Hin), E.
    - reflexivity.
    - intros nv H. apply in_map, H. }
  exists m. unfold from_key, from_name, from_value, has_value.
  rewrite L, E. repeat split; assumption.
Qed.

Lemma lookups_meet_witness :
  exists m,
    from_key [("a", "x"); ("b", "y"); ("c", "x")] "c" false = Found m /\
    from_name [("a", "x"); ("b", "y"); ("c", "x")] "c" = Found m /\
    from_value [("a", "x"); ("b", "y"); ("c", "x")] "x" false = Found m /\
    has_value [("a", "x"); ("b", "y"); ("c", "x")] "x" = true /\
    Member.value m = "x" /\
    In (Member.name m, "x") [("a", "x"); ("b", "y"); ("c", "x")].
Proof.
  apply (lookups_meet [("a", "x"); ("b", "y"); ("c", "x")] "c" "x" false).
  - repeat constructor; simpl; intuition discriminate.
  - simpl. auto.
Defined.

(** X18.  A name the body does not define: [from_key] returns [None] when
    [safe] and otherwise raises a [ModelException] whose payload has code
    400, the message with the name in it, no details, and the prefix
    'ModuleException' of the payload class (the prefix of the class
    [ModelException] is not in the payload); [from_name] raises
    [KeyError]. *)
Theorem unknown_name (body : enum_body) (key : string) :
  ~ In key (map fst body) ->
  from_key body key true = Nothing /\
  from_name body key = Raised_KeyError /\
  exists e,
    from_key body key false = Raised_ModelException e /\
    ModuleException_dict e
    = [ ("prefix", JStr "ModuleException");
        ("msg", JStr ("Недопустимое значение: " ++ key));
        ("code", JInt 400);
        ("details", JDict []);
        ("redirect", JBool false);
        ("notification", JBool false) ] /\
    ModuleException.args e = "Недопустимое значение: " ++ key.
Proof.
  intros H. unfold from_key, from_name.
  rewrite (lookup_name_absent key (members body))
    by (rewrite members_names; exact H).
  repeat split. eexists. repeat split.
Qed.

Lemma unknown_name_witness :
  from_key [("a", "x")] "x" true = Nothing /\
  from_name [("a", "x")] "x" = Raised_KeyError /\
  exists e,
    from_key [("a", "x")] "x" false = Raised_ModelException e /\
    ModuleException_dict e
    = [ ("prefix", JStr "ModuleException");
        ("msg", JStr ("Недопустимое значение: " ++ "x"));
        ("code", JInt 400);
        ("details", JDict []);
        ("redirect", JBool false);
        ("notification", JBool false) ] /\
    ModuleException.args e = "Недопустимое значение: " ++ "x".
Proof.
  apply (unknown_name [("a", "x")] "x"). simpl. intuition discriminate.
Defined.

(** X19.  [values] lists each value of the body once, and [has_value] and
    [from_value] go by it: [has_value v] holds exactly when [v] is in
    [values], which is exactly when the body assigns [v] to some name; for
    any other [v], [from_value] returns [None] when [safe] and raises
    [ModelException] with code 400 otherwise. *)
Theorem values_once (body : enum_body) :
  NoDup (values body) /\
  forall v,
    (In v (values body) <-> In v (map snd body)) /\
    (has_value body v = true <-> In v (values body)) /\
    (has_value body v = false ->
     from_value body v true = Nothing /\
     from_value body v false
     = Raised_ModelException
         (ModelException ("Недопустимое значение: " ++ v) 400)).
Proof.
  split.
  - unfold values, canonical. apply grow_NoDup. constructor.
  - intros v. unfold values, has_value, from_value. repeat split.
    + unfold canonical. rewrite grow_values. simpl. tauto.
    + unfold canonical. rewrite grow_values. simpl. tauto.
    + destruct (find_value v (canonical body)) eqn:E; [|discriminate].
      intros _. apply find_value_sound in E as [<- E]. apply in_map, E.
    + intros H. destruct (find_value v (canonical body)) eqn:E; [reflexivity|].
      apply find_value_none in E. contradiction.
    + destruct (find_value v (canonical body)); [discriminate | reflexivity].
    + destruct (find_value v (canonical body)); [discriminate | reflexivity].
Qed.

Lemma view_get_gen (k : string) (data : dict) (fs : list string) (acc : dict) :
  dict_get k
    (fold_left
       (fun d k =>
          match dict_get k data with
          | Some v => dict_set k v d
          | None => d
          end) fs acc)
  = if existsb (String.eqb k) fs
    then match dict_get k data with
         | Some v => Some v
         | None => dict_get k acc
         end
    else dict_get k acc.
Proof.
  revert acc. induction fs as [|f t IH]; intros acc; simpl; [reflexivity|].
  rewrite IH. destruct (String.eqb_spec k f) as [->|Hne]; simpl.
  - destruct (dict_get f data) as [v|] eqn:E.
    + rewrite dict_get_set_same. now destruct (existsb _ t).
    + now destruct (existsb _ t).
  - destruct (dict_get f data) as [v|]; [|reflexivity].
    now rewrite (dict_get_set_other k f v acc Hne).
Qed.

Lemma fold_left_ext_in {A B : Type} (f g : A -> B -> A) (l : list B) :
  (forall a b, In b l -> f a b = g a b) ->
  forall a, fold_left f l a = fold_left g l a.
Proof.
  induction l as [|b t IH]; intros H a; simpl; [reflexivity|].
  rewrite H by now left. apply IH. intros a' b' Hb. apply H. now right.
Qed.

(** X20.  The dictionary returned by a view has, for a name of the class's
    fields, the entry [data] has for it, and nothing for any other key;
    viewing a view changes nothing. *)
Theorem view_projects (field_names : list string) (data : dict) :
  (forall k,
     dict_get k (view field_names data)
     = if existsb (String.eqb k) field_names then dict_get k data else None) /\
  view field_names (view field_names data) = view field_names data.
Proof.
  assert (forall k,
             dict_get k (view field_names data)
             = if existsb (String.eqb k) field_names
               then dict_get k data else None) as G.
  { intros k. unfold view. rewrite view_get_gen. simpl.
    now destruct (existsb _ _), (dict_get k data). }
  split; [exact G|]. unfold view at 1 3. apply fold_left_ext_in.
  intros d k Hk. rewrite G.
  assert (existsb (String.eqb k) field_names = true) as ->.
  { apply existsb_exists. exists k. split; [exact Hk | apply String.eqb_refl]. }
  reflexivity.
Qed.

End ModelFacts.

(** ** [src/config.py]: loaders of environment variables *)

Module ConfigFacts.
Import Exception Config JsonFacts ExceptionFacts.

(** *** Texts without white space *)

Lemma printable_char_not_ws (c : ascii) :
  printable_char c = true ->
  ws1 c = false /\ (forall c2, ws2 c c2 = false) /\
  (forall c2 c3, ws3 c c2 c3 = false) /\ (N_of_ascii c <? 128)%N = true.
Proof.
  destruct c as [[] [] [] [] [] [] [] []]; try discriminate;
    intros _; repeat split.
Qed.

Lemma lstrip_printable (s : string) : printable s = true -> lstrip s = s.
Proof.
  destruct s as [|c t]; [reflexivity|]. simpl printable. intros H.
  apply andb_true_iff in H as [H _].
  destruct (printable_char_not_ws c H) as (H1 & H2 & H3 & _).
  cbn [lstrip]. rewrite H1. destruct t as [|c2 t2]; [reflexivity|].
  rewrite H2. destruct t2 as [|c3 t3]; [reflexivity|]. now rewrite H3.
Qed.

Lemma all_ws_printable (c : ascii) (t : string) :
  printable_char c = true -> all_ws (String c t) = false.
Proof.
  intros H. destruct (printable_char_not_ws c H) as (H1 & H2 & H3 & _).
  cbn [all_ws]. rewrite H1. destruct t as [|c2 t2]; [reflexivity|].
  rewrite H2. destruct t2 as [|c3 t3]; [reflexivity|]. now rewrite H3.
Qed.

Lemma rstrip_printable (s : string) : printable s = true -> rstrip s = s.
Proof.
  induction s as [|c t IH]; [reflexivity|]. simpl printable. intros H.
  apply andb_true_iff in H as [Hc Ht].
  change (rstrip (String c t))
    with (if all_ws (String c t) then EmptyString else String c (rstrip t)).
  now rewrite (all_ws_printable c t Hc), (IH Ht).
Qed.

Lemma strip_printable (s : string) : printable s = true -> strip s = s.
Proof.
  intros H. unfold strip. rewrite (lstrip_printable s H).
  apply rstrip_printable, H.
Qed.

Lemma printable_char_not_int_ws (c : ascii) :
  printable_char c = true -> int_ws1 c = false.
Proof.
  destruct c as [[] [] [] [] [] [] [] []]; try discriminate; reflexivity.
Qed.

(** [int] strips nothing from a text without white space. *)
Lemma int_strip_printable (s : string) :
  printable s = true -> int_strip s = s.
Proof.
  intros H. unfold int_strip.
  assert (int_lstrip s = s) as ->.
  { destruct s as [|c t]; [reflexivity|]. simpl printable in H.
    apply andb_true_iff in H as [H _].
    destruct (printable_char_not_ws c H) as (_ & H2 & H3 & _).
    cbn [int_lstrip]. rewrite (printable_char_not_int_ws c H).
    destruct t as [|c2 t2]; [reflexivity|].
    rewrite H2. destruct t2 as [|c3 t3]; [reflexivity|]. now rewrite H3. }
  induction s as [|c t IH]; [reflexivity|]. simpl printable in H.
  apply andb_true_iff in H as [Hc Ht].
  change (int_rstrip (String c t))
    with (if int_all_ws (String c t) then EmptyString
          else String c (int_rstrip t)).
  assert (int_all_ws (String c t) = false) as ->.
  { destruct (printable_char_not_ws c Hc) as (_ & H2 & H3 & _).
    cbn [int_all_ws]. rewrite (printable_char_not_int_ws c Hc).
    destruct t as [|c2 t2]; [reflexivity|].
    rewrite H2. destruct t2 as [|c3 t3]; [reflexivity|]. now rewrite H3. }
  now rewrite (IH Ht).
Qed.

Lemma is_ascii_printable (s : string) : printable s = true -> is_ascii s = true.
Proof.
  induction s as [|c t IH]; [reflexivity|]. simpl. intros H.
  apply andb_true_iff in H as [Hc Ht].
  destruct (printable_char_not_ws c Hc) as (_ & _ & _ & ->). exact (IH Ht).
Qed.

Lemma printable_app (a b : string) :
  printable (a ++ b) = printable a && printable b.
Proof.
  induction a as [|c t IH]; [reflexivity|]. simpl. now rewrite IH, andb_assoc.
Qed.

Lemma has_char_app (c : ascii) (a b : string) :
  has_char c (a ++ b) = has_char c a || has_char c b.
Proof.
  induction a as [|x t IH]; [reflexivity|]. simpl. now rewrite IH, orb_assoc.
Qed.

(** *** Decimal numbers *)

Lemma printable_string_of_uint (u : Decimal.uint) :
  printable (NilEmpty.string_of_uint u) = true.
Proof. induction u; simpl; auto. Qed.

Lemma has_char_string_of_uint (c : ascii) (u : Decimal.uint) :
  digit_of_char c = None -> has_char c (NilEmpty.string_of_uint u) = false.
Proof.
  intros H.
  assert (forall d, In d ["0"; "1"; "2"; "3"; "4"; "5"; "6"; "7"; "8"; "9"]%char ->
                    Ascii.eqb d c = false) as E.
  { intros d Hd. destruct (Ascii.eqb_spec d c) as [<-|]; [|reflexivity].
    simpl in Hd. intuition (subst; discriminate). }
  induction u; cbn [NilEmpty.string_of_uint has_char]; [reflexivity | ..];
    rewrite IHu, orb_false_r; apply E; simpl; tauto.
Qed.

Lemma string_of_Z_cases (z : Z) :
  string_of_Z z = "0" /\ z = 0%Z \/
  exists u, nonzero_head u = true /\
    (string_of_Z z = NilEmpty.string_of_uint u /\ z = Z.of_uint u \/
     string_of_Z z = String "-" (NilEmpty.string_of_uint u)
     /\ z = Z.opp (Z.of_uint u)).
Proof.
  unfold string_of_Z. destruct z as [|p|p]; simpl Z.to_int.
  - now left.
  - right. exists (Pos.to_uint p). split; [apply to_uint_nonzero_head|]. left.
    unfold NilZero.string_of_int.
    rewrite (string_of_uint_nonzero_head _ (to_uint_nonzero_head p)).
    split; [reflexivity|]. unfold Z.of_uint.
    now rewrite DecimalPos.Unsigned.of_to.
  - right. exists (Pos.to_uint p). split; [apply to_uint_nonzero_head|]. right.
    unfold NilZero.string_of_int.
    rewrite (string_of_uint_nonzero_head _ (to_uint_nonzero_head p)).
    split; [reflexivity|]. unfold Z.of_uint.
    now rewrite DecimalPos.Unsigned.of_to.
Qed.

Lemma printable_string_of_Z (z : Z) : printable (string_of_Z z) = true.
Proof.
  destruct (string_of_Z_cases z) as [[-> _]|(u & _ & [[-> _]|[-> _]])];
    [reflexivity | | simpl]; apply printable_string_of_uint.
Qed.

Lemma has_char_string_of_Z (c : ascii) (z : Z) :
  digit_of_char c = None -> c <> "-"%char -> has_char c (string_of_Z z) = false.
Proof.
  intros Hd Hm.
  destruct (string_of_Z_cases z) as [[-> _]|(u & _ & [[-> _]|[-> _]])].
  - change "0" with (NilEmpty.string_of_uint (Decimal.D0 Decimal.Nil)).
    apply has_char_string_of_uint, Hd.
  - apply has_char_string_of_uint, Hd.
  - cbn [has_char]. rewrite (has_char_string_of_uint c u Hd), orb_false_r.
    destruct (Ascii.eqb_spec "-" c); congruence.
Qed.

Lemma int_digits_string_of_uint (u : Decimal.uint) :
  int_digits (NilEmpty.string_of_uint u) true = Some u.
Proof. induction u; simpl; try rewrite IHu; reflexivity. Qed.

(** [int(str(z))] is [z]. *)
Lemma py_int_string_of_Z (z : Z) : py_int (string_of_Z z) = Returns z.
Proof.
  unfold py_int.
  rewrite (int_strip_printable _ (printable_string_of_Z z)).
  rewrite (is_ascii_printable _ (printable_string_of_Z z)). cbn [negb].
  destruct (string_of_Z_cases z) as [[-> ->]|(u & Hu & [[-> ->]|[-> ->]])].
  - reflexivity.
  - destruct u; try discriminate Hu; simpl;
      rewrite int_digits_string_of_uint; reflexivity.
  - simpl. destruct u; try discriminate Hu; simpl;
      rewrite int_digits_string_of_uint; reflexivity.
Qed.

(** *** Splitting at a character *)

Lemma prefix_char (c a : ascii) (t : string) :
  String.prefix (String c EmptyString) (String a t) = Ascii.eqb a c.
Proof.
  simpl. destruct (ascii_dec c a) as [->|Hne].
  - rewrite Ascii.eqb_refl. now destruct t.
  - destruct (Ascii.eqb_spec a c); congruence.
Qed.

Lemma split_from_plain (c : ascii) (x : string) :
  has_char c x = false -> split_from (String c EmptyString) x 0 = [x].
Proof.
  induction x as [|a t IH]; [reflexivity|]. simpl has_char. intros H.
  apply orb_false_iff in H as [Ha Ht].
  change (split_from (String c EmptyString) (String a t) 0)
    with (if String.prefix (String c EmptyString) (String a t)
          then EmptyString
               :: split_from (String c EmptyString) t
                    (String.length (String c EmptyString) - 1)
          else match split_from (String c EmptyString) t 0 with
               | piece :: pieces => String a piece :: pieces
               | [] => [String a EmptyString]
               end).
  now rewrite prefix_char, Ha, (IH Ht).
Qed.

Lemma split_from_app (c : ascii) (x rest : string) :
  has_char c x = false ->
  split_from (String c EmptyString) (x ++ String c rest) 0
  = x :: split_from (String c EmptyString) rest 0.
Proof.
  induction x as [|a t IH].
  - intros _.
    change (split_from (String c EmptyString) (EmptyString ++ String c rest) 0)
      with (if String.prefix (String c EmptyString) (String c rest)
            then EmptyString :: split_from (String c EmptyString) rest 0
            else match split_from (String c EmptyString) rest 0 with
                 | piece :: pieces => String c piece :: pieces
                 | [] => [String c EmptyString]
                 end).
    now rewrite prefix_char, Ascii.eqb_refl.
  - simpl has_char. intros H. apply orb_false_iff in H as [Ha Ht].
    change (split_from (String c EmptyString) (String a t ++ String c rest) 0)
      with (if String.prefix (String c EmptyString)
                 (String a (t ++ String c rest))
            then EmptyString
                 :: split_from (String c EmptyString) (t ++ String c rest) 0
            else match split_from (String c EmptyString)
                         (t ++ String c rest) 0 with
                 | piece :: pieces => String a piece :: pieces
                 | [] => [String a EmptyString]
                 end).
    now rewrite prefix_char, Ha, (IH Ht).
Qed.

Lemma join_cons (c : ascii) (x y : string) (t : list string) :
  join (String c EmptyString) (x :: y :: t)
  = x ++ String c (join (String c EmptyString) (y :: t)).
Proof. reflexivity. Qed.

Lemma split_from_join (c : ascii) (t : list string) :
  forall x,
    (forall y, In y (x :: t) -> has_char c y = false) ->
    split_from (String c EmptyString) (join (String c EmptyString) (x :: t)) 0
    = x :: t.
Proof.
  induction t as [|y t IH]; intros x H.
  - apply split_from_plain, H. now left.
  - rewrite join_cons, split_from_app by (apply H; now left).
    f_equal. apply IH. intros z Hz. apply H. now right.
Qed.

Lemma join_nonempty (c : ascii) (x : string) (t : list string) :
  x <> EmptyString ->
  String.eqb (join (String c EmptyString) (x :: t)) EmptyString = false.
Proof.
  intros Hx. destruct x as [|a x']; [congruence|].
  destruct t; reflexivity.
Qed.

Lemma cut_plain (c : ascii) (x : string) :
  has_char c x = false -> cut (String c EmptyString) x = None.
Proof.
  induction x as [|a t IH]; [reflexivity|]. simpl has_char. intros H.
  apply orb_false_iff in H as [Ha Ht].
  change (cut (String c EmptyString) (String a t))
    with (if String.prefix (String c EmptyString) (String a t)
          then Some (EmptyString,
                     drop (String.length (String c EmptyString)) (String a t))
          else match cut (String c EmptyString) t with
               | Some (before, after) => Some (String a before, after)
               | None => None
               end).
  now rewrite prefix_char, Ha, (IH Ht).
Qed.

Lemma cut_app (c : ascii) (x rest : string) :
  has_char c x = false ->
  cut (String c EmptyString) (x ++ String c rest) = Some (x, rest).
Proof.
  induction x as [|a t IH].
  - intros _.
    change (cut (String c EmptyString) (EmptyString ++ String c rest))
      with (if String.prefix (String c EmptyString) (String c rest)
            then Some (EmptyString, rest)
            else match cut (String c EmptyString) rest with
                 | Some (before, after) => Some (String c before, after)
                 | None => None
                 end).
    now rewrite prefix_char, Ascii.eqb_refl.
  - simpl has_char. intros H. apply orb_false_iff in H as [Ha Ht].
    change (cut (String c EmptyString) (String a t ++ String c rest))
      with (if String.prefix (String c EmptyString)
                 (String a (t ++ String c rest))
            then Some (EmptyString,
                       drop (String.length (String c EmptyString))
                         (String a (t ++ String c rest)))
            else match cut (String c EmptyString) (t ++ String c rest) with
                 | Some (before, after) => Some (String a before, after)
                 | None => None
                 end).
    now rewrite prefix_char, Ha, (IH Ht).
Qed.

(** *** [EnvListLoader] *)

Lemma load_items_stripped (items : list string) :
  (forall x, In x items -> x <> EmptyString /\ strip x = x) ->
  load_items item_str items = Returns items.
Proof.
  induction items as [|x t IH]; intros H; [reflexivity|].
  destruct (H x (or_introl eq_refl)) as [Hx Hs]. cbn [load_items].
  rewrite Hs. destruct (String.eqb_spec x EmptyString); [contradiction|].
  unfold item_str at 1. cbn [Py.bind].
  rewrite IH by (intros y Hy; apply H; now right). reflexivity.
Qed.

(** X21.  A list of items written with the separator between them is read
    back as it was: for items that are not empty, have no white space at
    their ends and no separator inside, [EnvListLoader] of their join
    returns the items. *)
Theorem list_loader_round_trip (c : ascii) (items : list string) :
  (forall x, In x items ->
             x <> EmptyString /\ strip x = x /\ has_char c x = false) ->
  EnvListLoader item_str (String c EmptyString)
    (join (String c EmptyString) items)
  = Returns items.
Proof.
  intros H. destruct items as [|x t]; [reflexivity|]. unfold EnvListLoader.
  rewrite (join_nonempty c x t) by (apply (H x); now left).
  unfold split. rewrite split_from_join by (intros y Hy; now apply H).
  cbn [Py.bind]. apply load_items_stripped. intros y Hy.
  destruct (H y Hy) as (H1 & H2 & _). now split.
Qed.

Lemma list_loader_round_trip_witness :
  EnvListLoader item_str ","
    (join "," ["http://a:80"; "b c"; "d"])
  = Returns ["http://a:80"; "b c"; "d"].
Proof.
  apply (list_loader_round_trip "," ["http://a:80"; "b c"; "d"]).
  intros x [<-|[<-|[<-|[]]]]; repeat split; discriminate.
Defined.

Lemma load_items_str (pieces : list string) :
  load_items item_str pieces
  = Returns (filter (fun x => negb (String.eqb x EmptyString))
               (map strip pieces)).
Proof.
  induction pieces as [|v t IH]; [reflexivity|]. cbn [load_items map filter].
  destruct (String.eqb (strip v) EmptyString); cbn [negb]; [exact IH|].
  unfold item_str at 1. cbn [Py.bind]. now rewrite IH.
Qed.

(** X22.  With [str] items the loader raises nothing unless its separator
    is empty: it returns the pieces of the split, stripped, the empty ones
    left out, so no item of the result is empty.  With the empty separator
    a value that is not empty raises [ValueError], and the empty value
    still gives the empty list. *)
Theorem list_loader_str (sep value : string) :
  EnvListLoader item_str sep value
  = match value, sep with
    | EmptyString, _ => Returns []
    | _, EmptyString => Raises ValueError
    | _, _ =>
        Returns (filter (fun x => negb (String.eqb x EmptyString))
                   (map strip (split_from sep value 0)))
    end
  /\ forall items,
       EnvListLoader item_str sep value = Returns items ->
       ~ In EmptyString items.
Proof.
  assert (EnvListLoader item_str sep value
          = match value, sep with
            | EmptyString, _ => Returns []
            | _, EmptyString => Raises ValueError
            | _, _ =>
                Returns (filter (fun x => negb (String.eqb x EmptyString))
                           (map strip (split_from sep value 0)))
            end) as E.
  { unfold EnvListLoader, split. destruct value as [|a v]; [reflexivity|].
    cbn [String.eqb]. destruct sep as [|c s]; [reflexivity|].
    cbn [Py.bind]. apply load_items_str. }
  split; [exact E|]. intros items. rewrite E.
  destruct value as [|a v]; [intros [= <-]; intros []|].
  destruct sep as [|c s]; [discriminate|]. intros [= <-] H.
  apply filter_In in H as [_ H]. discriminate H.
Qed.


(** *** [EnvDictLoader] *)

Section StrDict.

Variable kvs : string.

Local Abbreviation has_sep :=
  (fun e : string => match cut kvs e with Some _ => true | None => false end).

Local Abbreviation pair_of :=
  (fun e : string =>
     match cut kvs e with Some (a, b) => [a; b] | None => [e] end).

Local Abbreviation put :=
  (fun (d : list (string * string)) (e : string) =>
     match cut kvs e with
     | Some (a, b) => assign String.eqb (strip a) (strip b) d
     | None => d
     end).

Lemma split_entries_str (entries : list string) :
  kvs <> EmptyString ->
  split_entries kvs entries
  = Returns (map pair_of
               (filter (fun e => negb (String.eqb (strip e) EmptyString))
                  entries)).
Proof.
  intros Hk. induction entries as [|e t IH]; [reflexivity|].
  cbn [split_entries filter].
  destruct (String.eqb (strip e) EmptyString); cbn [negb]; [exact IH|].
  rewrite IH. unfold split_once. destruct kvs as [|c0 s0]; [congruence|].
  cbn [map]. now destruct (cut _ e) as [[a b]|].
Qed.

Lemma load_pairs_good (entries : list string) :
  forall d,
    forallb has_sep entries = true ->
    load_pairs item_str item_str String.eqb (map pair_of entries) d
    = Returns (fold_left put entries d).
Proof.
  induction entries as [|e t IH]; intros d H; [reflexivity|].
  cbn [forallb] in H. apply andb_true_iff in H as [He Ht].
  cbn [map fold_left]. destruct (cut kvs e) as [[a b]|]; [|discriminate].
  cbn [load_pairs]. unfold item_str at 1 2. cbn [Py.bind]. apply IH, Ht.
Qed.

Lemma load_pairs_bad (entries : list string) :
  forall d,
    forallb has_sep entries = false ->
    load_pairs item_str item_str String.eqb (map pair_of entries) d
    = Raises ValueError.
Proof.
  induction entries as [|e t IH]; intros d H; [discriminate|].
  cbn [forallb] in H. cbn [map].
  destruct (cut kvs e) as [[a b]|]; [|reflexivity].
  cbn [load_pairs]. unfold item_str at 1 2. cbn [Py.bind]. apply IH, H.
Qed.

Lemma assign_keys (k k' v : string) (d : list (string * string)) :
  In k' (map fst (assign String.eqb k v d)) <-> k' = k \/ In k' (map fst d).
Proof.
  induction d as [|[k0 v0] t IH]; simpl; [intuition congruence|].
  destruct (String.eqb_spec k0 k) as [->|Hne]; simpl; [intuition congruence|].
  rewrite IH. tauto.
Qed.

Lemma assign_NoDup (k v : string) (d : list (string * string)) :
  NoDup (map fst d) -> NoDup (map fst (assign String.eqb k v d)).
Proof.
  induction d as [|[k0 v0] t IH]; simpl; intros H.
  - repeat constructor. intros [].
  - inversion H as [|? ? Hk0 Ht]; subst.
    destruct (String.eqb_spec k0 k) as [->|Hne]; simpl.
    + now constructor.
    + constructor; [|apply IH, Ht]. rewrite assign_keys. tauto.
Qed.

Lemma assign_In (k v k' v' : string) (d : list (string * string)) :
  In (k', v') (assign String.eqb k v d) ->
  (k' = k /\ v' = v) \/ In (k', v') d.
Proof.
  induction d as [|[k0 v0] t IH]; simpl.
  - intros [[= <- <-]|[]]. auto.
  - destruct (String.eqb_spec k0 k) as [->|Hne]; simpl.
    + intros [[= <- <-]|H]; auto.
    + intros [H|H]; [auto|]. destruct (IH H); auto.
Qed.

Lemma assign_In_same (k v : string) (d : list (string * string)) :
  In (k, v) (assign String.eqb k v d).
Proof.
  induction d as [|[k0 v0] t IH]; simpl; [auto|].
  destruct (String.eqb_spec k0 k); simpl; auto.
Qed.

Lemma assign_In_other (k v k' v' : string) (d : list (string * string)) :
  k' <> k -> In (k', v') d -> In (k', v') (assign String.eqb k v d).
Proof.
  intros Hne. induction d as [|[k0 v0] t IH]; simpl; [auto|].
  destruct (String.eqb_spec k0 k) as [->|_]; simpl.
  - intros [[= -> ->]|H]; [congruence | auto].
  - intros [H|H]; auto.
Qed.

Lemma put_NoDup (entries : list string) :
  forall d, NoDup (map fst d) -> NoDup (map fst (fold_left put entries d)).
Proof.
  induction entries as [|e t IH]; intros d H; [exact H|]. cbn [fold_left].
  apply IH. destruct (cut kvs e) as [[a b]|]; [apply assign_NoDup, H | exact H].
Qed.

Lemma put_from (entries : list string) (k v : string) :
  forall d,
    In (k, v) (fold_left put entries d) ->
    In (k, v) d \/
    exists e a b,
      In e entries /\ cut kvs e = Some (a, b) /\ k = strip a /\ v = strip b.
Proof.
  induction entries as [|e t IH]; intros d H; [now left|].
  cbn [fold_left] in H. apply IH in H as [H|(e' & a & b & H1 & H2)].
  - destruct (cut kvs e) as [[a b]|] eqn:E; [|now left].
    apply assign_In in H as [[-> ->]|H]; [|now left].
    right. exists e, a, b. simpl. auto.
  - right. exists e', a, b. simpl. tauto.
Qed.

Lemma put_stays (entries : list string) (k v : string) :
  (forall e a b, In e entries -> cut kvs e = Some (a, b) -> strip a <> k) ->
  forall d, In (k, v) d -> In (k, v) (fold_left put entries d).
Proof.
  induction entries as [|e t IH]; intros Hk d H; [exact H|]. cbn [fold_left].
  apply IH; [intros e' a b He'; apply Hk; now right|].
  destruct (cut kvs e) as [[a b]|] eqn:E; [|exact H].
  apply assign_In_other; [|exact H].
  intros ->. exact (Hk e a b (or_introl eq_refl) E eq_refl).
Qed.

Lemma dict_loader_str (ps value : string) :
  ps <> EmptyString -> kvs <> EmptyString -> value <> EmptyString ->
  EnvDictLoader item_str item_str String.eqb ps kvs value
  = load_pairs item_str item_str String.eqb
      (map pair_of
         (filter (fun e => negb (String.eqb (strip e) EmptyString))
            (split_from ps value 0))) [].
Proof.
  intros Hp Hk Hv. unfold EnvDictLoader.
  destruct (String.eqb_spec value EmptyString); [contradiction|].
  unfold split. destruct ps; [congruence|]. cbn [Py.bind].
  now rewrite (split_entries_str _ Hk).
Qed.

End StrDict.

(** X23.  [EnvDictLoader] with [str] keys and values, separators that are
    not empty and a value that is not empty: when every entry that is not
    blank has the key-value separator in it, the loader returns a
    dictionary, its keys are pairwise distinct and each of its items is
    the stripped key and value of an entry, cut at the entry's first
    separator; when some entry that is not blank lacks the separator, the
    loader raises [ValueError] and returns nothing. *)
Theorem dict_loader_outcome (ps kvs value : string) :
  ps <> EmptyString -> kvs <> EmptyString -> value <> EmptyString ->
  let entries :=
    filter (fun e => negb (String.eqb (strip e) EmptyString))
      (split_from ps value 0) in
  if forallb
       (fun e => match cut kvs e with Some _ => true | None => false end)
       entries
  then exists d,
      EnvDictLoader item_str item_str String.eqb ps kvs value = Returns d /\
      NoDup (map fst d) /\
      forall k v,
        In (k, v) d ->
        exists e a b,
          In e entries /\ cut kvs e = Some (a, b) /\
          k = strip a /\ v = strip b
  else EnvDictLoader item_str item_str String.eqb ps kvs value
       = Raises ValueError.
Proof.
  intros Hp Hk Hv entries. rewrite (dict_loader_str kvs ps value Hp Hk Hv).
  fold entries. destruct (forallb _ entries) eqn:E.
  - rewrite (load_pairs_good kvs entries [] E). eexists. split; [reflexivity|].
    split; [apply put_NoDup; constructor|]. intros k v H.
    apply put_from in H as [[]|H]. exact H.
  - apply load_pairs_bad, E.
Qed.

Lemma dict_loader_outcome_witness :
  EnvDictLoader item_str item_str String.eqb "," ":" "a:1, ,b"
  = Raises ValueError.
Proof.
  exact (dict_loader_outcome "," ":" "a:1, ,b"
           ltac:(discriminate) ltac:(discriminate) ltac:(discriminate)).
Defined.

(** X24.  The last entry for a key wins, and what follows the first
    key-value separator of an entry is its value, separators included: if
    every entry that is not blank has the separator, the entry [e] is cut
    into [a] and [b] and no later entry has the key of [e], then the
    dictionary returned has the item [strip a], [strip b]. *)
Theorem dict_loader_last_wins (ps kvs value e a b : string)
  (before after : list string) :
  ps <> EmptyString -> kvs <> EmptyString -> value <> EmptyString ->
  filter (fun e => negb (String.eqb (strip e) EmptyString))
    (split_from ps value 0) = (before ++ e :: after)%list ->
  forallb (fun e => match cut kvs e with Some _ => true | None => false end)
    (before ++ e :: after) = true ->
  cut kvs e = Some (a, b) ->
  (forall e' a' b',
     In e' after -> cut kvs e' = Some (a', b') -> strip a' <> strip a) ->
  exists d,
    EnvDictLoader item_str item_str String.eqb ps kvs value = Returns d /\
    In (strip a, strip b) d /\
    forall v, In (strip a, v) d -> v = strip b.
Proof.
  intros Hp Hk Hv Hs Hall He Hafter.
  rewrite (dict_loader_str kvs ps value Hp Hk Hv), Hs.
  rewrite (load_pairs_good kvs _ [] Hall). eexists. split; [reflexivity|].
  assert (In (strip a, strip b)
            (fold_left
               (fun (d : list (string * string)) (e : string) =>
                  match cut kvs e with
                  | Some (a, b) => assign String.eqb (strip a) (strip b) d
                  | None => d
                  end) (before ++ e :: after) [])) as Hin.
  { rewrite fold_left_app. cbn [fold_left]. apply (put_stays kvs after).
    - exact Hafter.
    - rewrite He. apply assign_In_same. }
  split; [exact Hin|]. intros v Hv'.
  pose proof (put_NoDup kvs (before ++ e :: after) [] (NoDup_nil _)) as Hnd.
  revert Hin Hv' Hnd.
  generalize (fold_left
               (fun (d : list (string * string)) (e : string) =>
                  match cut kvs e with
                  | Some (a, b) => assign String.eqb (strip a) (strip b) d
                  | None => d
                  end) (before ++ e :: after) []).
  intros d. induction d as [|[k0 v0] t IH]; simpl; [intros []|].
  intros H1 H2 Hnd. inversion Hnd as [|? ? Hk0 Ht]; subst.
  destruct H1 as [H1|H1], H2 as [H2|H2].
  - congruence.
  - exfalso. apply Hk0. injection H1 as -> _.
    change (strip a) with (fst (strip a, v)). apply in_map, H2.
  - exfalso. apply Hk0. injection H2 as -> _.
    change (strip a) with (fst (strip a, strip b)). apply in_map, H1.
  - apply IH; assumption.
Qed.

Lemma dict_loader_last_wins_witness :
  exists d,
    EnvDictLoader item_str item_str String.eqb "," ":"
      "a:1, url : http://x:80 ,a:3" = Returns d /\
    In (strip "a", strip "3") d /\
    forall v, In (strip "a", v) d -> v = strip "3".
Proof.
  apply (dict_loader_last_wins "," ":" "a:1, url : http://x:80 ,a:3"
           "a:3" "a" "3" ["a:1"; " url : http://x:80 "] []);
    try discriminate; try reflexivity.
  intros e' a' b' [].
Defined.

(** *** [EnvLoggerModulesLoader] *)

Lemma strip_nonblank (c : ascii) (t : string) :
  printable_char c = true ->
  String.eqb (strip (String c t)) EmptyString = false.
Proof.
  intros H. unfold strip.
  assert (lstrip (String c t) = String c t) as ->.
  { destruct (printable_char_not_ws c H) as (H1 & H2 & H3 & _).
    cbn [lstrip]. rewrite H1. destruct t as [|c2 t2]; [reflexivity|].
    rewrite H2. destruct t2 as [|c3 t3]; [reflexivity|]. now rewrite H3. }
  change (rstrip (String c t))
    with (if all_ws (String c t) then EmptyString else String c (rstrip t)).
  now rewrite (all_ws_printable c t H).
Qed.

Lemma entry_text_facts (m : ModuleLoggingConfig.t) :
  ModuleLoggingConfig.name m <> EmptyString ->
  printable (ModuleLoggingConfig.name m) = true ->
  has_char "," (ModuleLoggingConfig.name m) = false ->
  entry_text m <> EmptyString /\
  strip (entry_text m) = entry_text m /\
  has_char "," (entry_text m) = false.
Proof.
  intros Hn Hp Hc. unfold entry_text. repeat split.
  - destruct (ModuleLoggingConfig.name m); [congruence | discriminate].
  - apply strip_printable. rewrite !printable_app, Hp, printable_string_of_Z.
    reflexivity.
  - rewrite !has_char_app, Hc, has_char_string_of_Z by (reflexivity || discriminate).
    reflexivity.
Qed.

Lemma load_modules_entry (m : ModuleLoggingConfig.t) (rest : list string) :
  ModuleLoggingConfig.name m <> EmptyString ->
  printable (ModuleLoggingConfig.name m) = true ->
  has_char "," (ModuleLoggingConfig.name m) = false ->
  has_char ":" (ModuleLoggingConfig.name m) = false ->
  load_modules ":" (entry_text m :: rest)
  = (modules <- load_modules ":" rest ;; Returns (m :: modules)).
Proof.
  intros Hn Hp Hc Hk.
  destruct (entry_text_facts m Hn Hp Hc) as (H1 & H2 & _).
  cbn [load_modules]. rewrite H2.
  destruct (String.eqb_spec (entry_text m) EmptyString); [contradiction|].
  unfold split_once.
  change (entry_text m)
    with (ModuleLoggingConfig.name m
          ++ String ":" (string_of_Z (ModuleLoggingConfig.log_level m))).
  rewrite (cut_app ":" _ _ Hk). cbn [Py.bind].
  rewrite (strip_printable _ (printable_string_of_Z _)), py_int_string_of_Z.
  cbn [Py.bind]. rewrite (strip_printable _ Hp). now destruct m.
Qed.

(** X25.  The modules written as [name:level] entries with commas between
    them are read back as they were: for names that are not empty and are
    made of characters above the space and below 128 other than the comma
    and the colon, and for any integer levels, [EnvLoggerModulesLoader]
    returns the modules, in order. *)
Theorem modules_loader_round_trip (ms : list ModuleLoggingConfig.t) :
  (forall m, In m ms ->
             ModuleLoggingConfig.name m <> EmptyString /\
             printable (ModuleLoggingConfig.name m) = true /\
             has_char "," (ModuleLoggingConfig.name m) = false /\
             has_char ":" (ModuleLoggingConfig.name m) = false) ->
  EnvLoggerModulesLoader "," ":" (join "," (map entry_text ms)) = Returns ms.
Proof.
  intros H. destruct ms as [|m0 t]; [reflexivity|].
  unfold EnvLoggerModulesLoader. cbn [map].
  destruct (H m0 (or_introl eq_refl)) as (Hn & Hp & Hc & Hk).
  rewrite (join_nonempty "," (entry_text m0) (map entry_text t))
    by apply (entry_text_facts m0 Hn Hp Hc).
  unfold split. rewrite split_from_join.
  - cbn [Py.bind]. change (entry_text m0 :: map entry_text t)
      with (map entry_text (m0 :: t)).
    revert H. generalize (m0 :: t). clear. intros ms H.
    induction ms as [|m t IH]; [reflexivity|]. cbn [map].
    destruct (H m (or_introl eq_refl)) as (Hn & Hp & Hc & Hk).
    rewrite (load_modules_entry m _ Hn Hp Hc Hk), IH; [reflexivity|].
    intros m' Hm'. apply H. now right.
  - intros y Hy. change (entry_text m0 :: map entry_text t)
      with (map entry_text (m0 :: t)) in Hy.
    apply in_map_iff in Hy as (m & <- & Hm).
    destruct (H m Hm) as (Hn' & Hp' & Hc' & _).
    apply (entry_text_facts m Hn' Hp' Hc').
Qed.

Lemma modules_loader_round_trip_witness :
  EnvLoggerModulesLoader "," ":"
    (join ","
       (map entry_text
          [ ModuleLoggingConfig.mk "uvicorn.error" 20;
            ModuleLoggingConfig.mk "sqlalchemy" (-1) ]))
  = Returns [ ModuleLoggingConfig.mk "uvicorn.error" 20;
              ModuleLoggingConfig.mk "sqlalchemy" (-1) ].
Proof.
  apply (modules_loader_round_trip
           [ ModuleLoggingConfig.mk "uvicorn.error" 20;
             ModuleLoggingConfig.mk "sqlalchemy" (-1) ]).
  intros m [<-|[<-|[]]]; repeat split; discriminate.
Defined.

(** The entries are read one after the other: after entries that load, the
    outcome is that of the entries that follow. *)
Lemma load_modules_app (entry_separator : string) (good l : list string) :
  forall ms,
    load_modules entry_separator good = Returns ms ->
    load_modules entry_separator (good ++ l)
    = (more <- load_modules entry_separator l ;; Returns (ms ++ more)%list).
Proof.
  induction good as [|entry rest IH]; intros ms H.
  - injection H as <-. cbn [app].
    destruct (load_modules entry_separator l); reflexivity.
  - cbn [app load_modules] in *.
    destruct (String.eqb (strip entry) EmptyString); [now apply IH|].
    destruct (split_once entry_separator entry) as [parts| |];
      cbn [Py.bind] in *; try discriminate H.
    destruct parts as [|name [|log_level [|x parts]]]; try discriminate H.
    destruct (py_int (strip log_level)) as [level| |];
      cbn [Py.bind] in *; try discriminate H.
    destruct (load_modules entry_separator rest) as [modules| |] eqn:E;
      cbn [Py.bind] in *; try discriminate H.
    injection H as <-. rewrite (IH modules eq_refl).
    destruct (load_modules entry_separator l); reflexivity.
Qed.

(** X26.  One entry without a level, or with a level that [int] refuses,
    fails the whole variable: after any entries that load, an entry that
    is not blank and has no entry separator, or whose text after the first
    entry separator is not an integer, makes [EnvLoggerModulesLoader] raise
    [ValueError], whatever entries follow; the modules read before it are
    not returned. *)
Theorem modules_loader_bad_entry (separator entry_separator value : string)
  (good rest : list string) (bad : string)
  (ms : list ModuleLoggingConfig.t) :
  value <> EmptyString ->
  split separator value = Returns (good ++ bad :: rest)%list ->
  load_modules entry_separator good = Returns ms ->
  String.eqb (strip bad) EmptyString = false ->
  match cut entry_separator bad with
  | None => True
  | Some (_, level) => py_int (strip level) = Raises ValueError
  end ->
  EnvLoggerModulesLoader separator entry_separator value = Raises ValueError.
Proof.
  intros Hv Hsplit Hgood Hbad Hcut. unfold EnvLoggerModulesLoader.
  destruct (String.eqb_spec value EmptyString); [contradiction|].
  rewrite Hsplit. cbn [Py.bind].
  rewrite (load_modules_app entry_separator good (bad :: rest) ms Hgood).
  cbn [load_modules]. rewrite Hbad. unfold split_once.
  destruct entry_separator as [|c s]; [reflexivity|].
  destruct (cut (String c s) bad) as [[name level]|]; [|reflexivity].
  cbn [Py.bind]. now rewrite Hcut.
Qed.

Lemma modules_loader_bad_entry_witness :
  EnvLoggerModulesLoader "," ":" "uvicorn:20, sqlalchemy:INFO ,x:1"
  = Raises ValueError.
Proof.
  apply (modules_loader_bad_entry "," ":" "uvicorn:20, sqlalchemy:INFO ,x:1"
           ["uvicorn:20"] ["x:1"] " sqlalchemy:INFO "
           [ModuleLoggingConfig.mk "uvicorn" 20]).
  - discriminate.
  - reflexivity.
  - reflexivity.
  - reflexivity.
  - reflexivity.
Defined.

(** *** [BaseConfig.parse_env_var] *)

(** X27.  In [LoggerConfig] only the field [modules] has a loader.  Any
    other field is read as JSON, so the compact JSON text of a value (the
    text [dumps] writes, without white space and with characters above 127
    written as they are) gives the value back and the empty text raises
    [JSONDecodeError]; for [modules] the empty text is the empty list, and
    the JSON text of the empty list is refused with [ValueError]. *)
Theorem parse_env_var_LoggerConfig (field_name : string) (v : json) :
  field_name <> "modules" -> wf v = true ->
  parse_env_var LoggerConfig_loaders field_name (dumps v)
  = Returns (By_json v) /\
  parse_env_var LoggerConfig_loaders field_name EmptyString
  = Raises JSONDecodeError /\
  parse_env_var LoggerConfig_loaders "modules" EmptyString
  = Returns (By_loader []) /\
  parse_env_var LoggerConfig_loaders "modules" (dumps (JList []))
  = Raises ValueError.
Proof.
  intros Hf Hwf. unfold parse_env_var, LoggerConfig_loaders. cbn [find_loader].
  destruct (String.eqb_spec "modules" field_name) as [E|_]; [congruence|].
  rewrite (loads_dumps v Hwf). repeat split.
Qed.

Lemma parse_env_var_LoggerConfig_witness :
  parse_env_var LoggerConfig_loaders "LOGGING_DEFAULT" (dumps (JInt 20))
  = Returns (By_json (JInt 20)) /\
  parse_env_var LoggerConfig_loaders "LOGGING_DEFAULT" EmptyString
  = Raises JSONDecodeError /\
  parse_env_var LoggerConfig_loaders "modules" EmptyString
  = Returns (By_loader []) /\
  parse_env_var LoggerConfig_loaders "modules" (dumps (JList []))
  = Raises ValueError.
Proof.
  apply (parse_env_var_LoggerConfig "LOGGING_DEFAULT" (JInt 20));
    [discriminate | reflexivity].
Defined.

(** *** [BaseServiceConfig] *)

(** X28.  After [load] the dictionary handed to it has no key [modules]:
    what was under [modules], whatever its value, is under [module], in
    place of what [module] had; a dictionary without [modules] is left as
    it was; every other key keeps its value; and the class is called with
    that dictionary. *)
Theorem load_moves_modules {A : Type} (cls : dict -> outcome A)
  (config_data : dict) :
  let after := fst (load cls config_data) in
  snd (load cls config_data) = cls after /\
  dict_get "modules" after = None /\
  dict_get "module" after
  = match dict_get "modules" config_data with
    | Some modules_config => Some modules_config
    | None => dict_get "module" config_data
    end /\
  (forall k, k <> "modules" -> k <> "module" ->
             dict_get k after = dict_get k config_data) /\
  (dict_get "modules" config_data = None -> after = config_data).
Proof.
  unfold load. cbn [fst snd].
  destruct (dict_get "modules" config_data) as [v|] eqn:E.
  - repeat split.
    + rewrite dict_get_set_other by discriminate.
      apply ExceptionMore.dict_get_del_same.
    + apply dict_get_set_same.
    + intros k H1 H2. rewrite dict_get_set_other by assumption.
      now apply ExceptionMore.dict_get_del_other.
    + discriminate.
  - repeat split; auto.
Qed.

(** X29.  [yaml_settings_source] on a file that holds a mapping returns
    the mapping without the key [modules]; what was under [modules] is put
    under [module] only when it is truthy, otherwise [module] keeps what
    it had (where [load] overwrites it); every other key keeps its value.
    A missing file and a file whose content is falsy (an empty document)
    give the empty dictionary; truthy content that is not a mapping
    raises. *)
Theorem yaml_source_moves_modules (loaded : dict) :
  (exists after,
     yaml_settings_source (Some (JDict loaded)) = Returns after /\
     dict_get "modules" after = None /\
     dict_get "module" after
     = match dict_get "modules" loaded with
       | Some modules_config =>
           if truthy modules_config then Some modules_config
           else dict_get "module" loaded
       | None => dict_get "module" loaded
       end /\
     (forall k, k <> "modules" -> k <> "module" ->
                dict_get k after = dict_get k loaded)) /\
  yaml_settings_source None = Returns [] /\
  (forall content,
     truthy content = false ->
     yaml_settings_source (Some content) = Returns []) /\
  (forall content,
     truthy content = true -> (forall d, content <> JDict d) ->
     exists e, yaml_settings_source (Some content) = Raises e).
Proof.
  split; [|split; [reflexivity|split]].
  - unfold yaml_settings_source, dict_pop.
    assert (forall d, (if truthy (JDict d) then JDict d else JDict [])
                      = JDict d) as -> by (intros [|? ?]; reflexivity).
    destruct (dict_get "modules" loaded) as [v|] eqn:E.
    + destruct (truthy v) eqn:T; eexists; (split; [reflexivity|]);
        repeat split.
      * rewrite dict_get_set_other by discriminate.
        apply ExceptionMore.dict_get_del_same.
      * apply dict_get_set_same.
      * intros k H1 H2. rewrite dict_get_set_other by assumption.
        now apply ExceptionMore.dict_get_del_other.
      * apply ExceptionMore.dict_get_del_same.
      * now apply ExceptionMore.dict_get_del_other.
      * intros k H1 H2. now apply ExceptionMore.dict_get_del_other.
    + cbn [truthy]. eexists. split; [reflexivity|]. repeat split.
      * apply ExceptionMore.dict_get_del_same.
      * now apply ExceptionMore.dict_get_del_other.
      * intros k H1 H2. now apply ExceptionMore.dict_get_del_other.
  - intros content H. unfold yaml_settings_source. rewrite H. reflexivity.
  - intros content H Hd. unfold yaml_settings_source. rewrite H.
    destruct content as [ | b | z | s | l | d ];
      try (eexists; reflexivity).
    destruct (Hd d eq_refl).
Qed.

End ConfigFacts.
